(** * Token-metadata subsystem of TokenForge: a shallow embedding

    The development follows the token-metadata router
    (server/api token-metadata routes: [/temporary], [/link],
    [/:tokenAddress/history], [/:tokenAddress/verify], [/:tokenAddress],
    [/], [/upload-logo], and the helper [verifyTokenOwnership]) together
    with the PL/pgSQL functions and triggers of the migrations
    [delicate_bird] and [rough_ocean], and, on the client side, the session
    handling and the save calls of [metadataService] and the tag toggle
    and the submit of [TokenMetadataForm].

    Modelling conventions.
    - A table with a UNIQUE key is a finite map from that key to the rest
      of the row; [token_metadata_history], which has no natural key, is a
      list in insertion order.  Surrogate [id SERIAL] columns are read by no
      statement and are left out.
    - Strings are sequences of 8-bit characters; [toLowerCase] and
      [toUpperCase] act on the ASCII letters, which is what hex addresses
      and network identifiers consist of.
    - Timestamps are integers (seconds); [CURRENT_TIMESTAMP] is the [now]
      field of the environment of a request.  Every handler runs at most one
      statement that reads the clock, so one reading per request is exact.
    - A handler body is a computation in a state-and-exception monad over
      the database.  Every [query] is its own transaction: a statement that
      raises leaves the database as it was before that statement, while
      the statements that ran before it stay committed.
    - The declared constraints that a statement of the router can trip are
      checked: UNIQUE keys, the foreign keys into [tokens], NOT NULL on
      [token_metadata_history.updated_by], the range of the INTEGER
      [update_count], and the widths of the VARCHAR columns for the values
      a request supplies: the descriptive fields of a body, and the
      session identifier and the caller of [POST /temporary].  A value
      that a statement copies from a stored row, and an address that
      passed the ownership check against [tokens], is taken to fit the
      column it goes to. *)

From stdpp Require Import gmap strings list sorting.
From Stdlib Require Import ZArith Ascii String.

Local Open Scope string_scope.
Local Open Scope list_scope.
Local Open Scope Z_scope.

(** ** JavaScript strings *)

Module Js.

Definition lower_char (c : ascii) : ascii :=
  let n := N_of_ascii c in
  if decide (65 ≤ n ≤ 90)%N then ascii_of_N (n + 32) else c.

Definition upper_char (c : ascii) : ascii :=
  let n := N_of_ascii c in
  if decide (97 ≤ n ≤ 122)%N then ascii_of_N (n - 32) else c.

Fixpoint map_chars (f : ascii → ascii) (s : string) : string :=
  match s with
  | EmptyString => EmptyString
  | String c s' => String (f c) (map_chars f s')
  end.

(** [String.prototype.toLowerCase] and [toUpperCase]. *)
Definition toLowerCase : string → string := map_chars lower_char.
Definition toUpperCase : string → string := map_chars upper_char.

(** [s.split(sep)] for a one-character separator. *)
Fixpoint split (sep : ascii) (s : string) : list string :=
  match s with
  | EmptyString => [EmptyString]
  | String c s' =>
      if decide (c = sep) then EmptyString :: split sep s'
      else match split sep s' with
           | [] => [String c EmptyString]
           | w :: ws => String c w :: ws
           end
  end.

(** Truthiness of a value that is [undefined] or a string. *)
Definition truthy (v : option string) : bool :=
  match v with
  | None => false
  | Some s => negb (String.eqb s "")
  end.

(** [a || b] on such values. *)
Definition or_else (v : option string) (d : string) : string :=
  match v with
  | Some s => if String.eqb s "" then d else s
  | None => d
  end.

End Js.

(** ** Rows and tables *)

(** The ten descriptive columns that [token_metadata] and
    [temporary_metadata] share and that every statement copies together. *)
Record Descriptive := {
  name : option string;
  symbol : option string;
  description : option string;
  website_url : option string;
  twitter_url : option string;
  telegram_url : option string;
  discord_url : option string;
  whitepaper_url : option string;
  github_url : option string;
  tags : option (list string)
}.

(** Modelled from the spec: the [tokens] table, which is declared outside
    the migrations at hand.  A row, keyed by [contract_address], maps the
    token address to exactly one owner address; [network_id] is the
    recorded network of the token.  These are the columns the router and
    the triggers read. *)
Record Token := {
  owner_address : string;
  network_id : string
}.

(** A row of [token_metadata], keyed by [token_address].  [update_count]
    is [INTEGER DEFAULT 0] and [verified] is [BOOLEAN DEFAULT false]; no
    statement writes NULL into either. *)
Record TokenMetadata := {
  fields : Descriptive;
  logo_url : option string;
  created_at : Z;
  updated_at : Z;
  last_updated_by : option string;
  update_count : Z;
  verified : bool
}.

(** A row of [temporary_metadata], keyed by [session_id]. *)
Record TemporaryMetadata := {
  creator_address : string;
  t_fields : Descriptive;
  logo_data : option string;
  t_created_at : Z;
  expires_at : Z
}.

(** A row of [token_metadata_history]; [previous_data] is
    [row_to_json(OLD)]. *)
Record HistoryEntry := {
  h_token_address : string;
  updated_by : string;
  update_timestamp : Z;
  previous_data : TokenMetadata
}.

Record DB := {
  tokens : gmap string Token;
  token_metadata : gmap string TokenMetadata;
  temporary_metadata : gmap string TemporaryMetadata;
  token_metadata_history : list HistoryEntry
}.

Definition with_token_metadata (m : gmap string TokenMetadata) (db : DB) : DB :=
  {| tokens := tokens db; token_metadata := m;
     temporary_metadata := temporary_metadata db;
     token_metadata_history := token_metadata_history db |}.

Definition with_temporary_metadata (m : gmap string TemporaryMetadata) (db : DB) : DB :=
  {| tokens := tokens db; token_metadata := token_metadata db;
     temporary_metadata := m;
     token_metadata_history := token_metadata_history db |}.

Definition with_history (h : list HistoryEntry) (db : DB) : DB :=
  {| tokens := tokens db; token_metadata := token_metadata db;
     temporary_metadata := temporary_metadata db;
     token_metadata_history := h |}.

Definition with_tokens (m : gmap string Token) (db : DB) : DB :=
  {| tokens := m; token_metadata := token_metadata db;
     temporary_metadata := temporary_metadata db;
     token_metadata_history := token_metadata_history db |}.

(** ** The environment of a request *)

Record Env := {
  (** [CURRENT_TIMESTAMP] / [now()] *)
  now : Z;
  (** [process.env[NAME]] *)
  process_env : string → option string;
  (** [client.put(files)] of web3.storage, by file name: the CID, or [None]
      when the promise rejects *)
  web3_put : string → option string;
  (** whether the [fs] calls on the upload directory succeed *)
  fs_ok : bool;
  (** [contract.owner()] through the provider of an RPC URL, by contract
      address: the owner, or [None] when the call rejects *)
  chain_owner : string → string → option string;
  (** [`${req.protocol}://${req.get('host')}`] *)
  origin : string;
  (** [path.extname] *)
  extname : string → string
}.

Definition with_chain_owner (c : string → string → option string) (e : Env) : Env :=
  {| now := now e; process_env := process_env e; web3_put := web3_put e;
     fs_ok := fs_ok e; chain_owner := c; origin := origin e;
     extname := extname e |}.

(** ** State and exceptions *)

Definition M (A : Type) : Type := DB → (string + A) * DB.

Definition ret {A} (x : A) : M A := λ db, (inr x, db).

Definition bind {A B} (m : M A) (k : A → M B) : M B :=
  λ db, match m db with
        | (inl err, db') => (inl err, db')
        | (inr x, db') => k x db'
        end.

Definition throw {A} (err : string) : M A := λ db, (inl err, db).

(** A result computed without touching the database. *)
Definition lift {A} (r : string + A) : M A := λ db, (r, db).

Definition gets {A} (f : DB → A) : M A := λ db, (inr (f db), db).

Definition modify (f : DB → DB) : M unit := λ db, (inr tt, f db).

(** One statement: all of its effects, those of its triggers included, or
    none. *)
Definition atomic {A} (m : M A) : M A :=
  λ db, match m db with
        | (inl err, _) => (inl err, db)
        | ok => ok
        end.

Notation "'let!' x ':=' m 'in' k" := (bind m (λ x, k))
  (at level 10, x name, m at level 100, k at level 200).
Notation "m ';;' k" := (bind m (λ _, k))
  (at level 100, k at level 200, right associativity).

(** ** Statements and triggers *)

Module Sql.

Definition INT4_MIN : Z := -2147483648.
Definition INT4_MAX : Z := 2147483647.

(** The value of an INTEGER expression. *)
Definition int4 (z : Z) : string + Z :=
  if decide (INT4_MIN ≤ z ≤ INT4_MAX) then inr z
  else inl "integer out of range".

Definition INTERVAL_24_HOURS : Z := 86400.

(** A value for a [VARCHAR(n)] column: NULL, or a string of at most [n]
    characters. *)
Definition fits (n : Z) (v : option string) : Prop :=
  match v with
  | Some s => Z.of_nat (String.length s) ≤ n
  | None => True
  end.

#[global] Instance fits_dec n v : Decision (fits n v).
Proof. destruct v; cbn; apply _. Defined.

Definition columns_fit (cols : list (Z * option string)) : Prop :=
  Forall (λ c, fits c.1 c.2) cols.

#[global] Instance columns_fit_dec cols : Decision (columns_fit cols).
Proof. unfold columns_fit. apply _. Defined.




(** The assignment of the parameters of a statement to VARCHAR columns,
    each given with the width of its column.  The casts are evaluated
    when the statement is planned, before it reads or writes a row, and
    an over-long value raises
    [value too long for type character varying(n)].  (PostgreSQL lets an
    over-long value through, cut to [n] characters, when all of the excess
    is spaces; here it raises like any other over-long value.) *)
Definition assign (cols : list (Z * option string)) : M unit :=
  if decide (columns_fit cols) then ret tt
  else throw "value too long for type character varying".

(** The descriptive columns of [token_metadata] and of
    [temporary_metadata]: [name VARCHAR(100)], [symbol VARCHAR(20)],
    [description VARCHAR(300)] and the six [VARCHAR(255)] URLs; [tags] is
    [TEXT[]]. *)
Definition descriptive_columns (f : Descriptive) : list (Z * option string) :=
  [(100, name f); (20, symbol f); (300, description f);
   (255, website_url f); (255, twitter_url f); (255, telegram_url f);
   (255, discord_url f); (255, whitepaper_url f); (255, github_url f)].

(** [SELECT ... FROM tokens WHERE contract_address = $1] *)
Definition select_token (contract_address : string) : M (option Token) :=
  gets (λ db, tokens db !! contract_address).

(** [SELECT * FROM token_metadata WHERE token_address = $1] *)
Definition select_token_metadata (token_address : string) : M (option TokenMetadata) :=
  gets (λ db, token_metadata db !! token_address).

(** [INSERT INTO token_metadata_history (token_address, updated_by,
    previous_data)]: [updated_by] is NOT NULL, [token_address] references
    [tokens], [update_timestamp] defaults to the clock. *)
Definition history_entry (e : Env) (token_address who : string)
    (previous : TokenMetadata) : HistoryEntry :=
  {| h_token_address := token_address; updated_by := who;
     update_timestamp := now e; previous_data := previous |}.

Definition insert_history (e : Env) (token_address : string)
    (by_whom : option string) (previous : TokenMetadata) : M unit :=
  match by_whom with
  | None => throw "null value in column updated_by violates not-null constraint"
  | Some who =>
      let! parent := select_token token_address in
      match parent with
      | None => throw "violates foreign key constraint token_metadata_history_token_fk"
      | Some _ =>
          modify (λ db,
            with_history
              (token_metadata_history db ++
               [history_entry e token_address who previous])
              db)
      end
  end.

Definition set_update_count (c : Z) (r : TokenMetadata) : TokenMetadata :=
  {| fields := fields r; logo_url := logo_url r; created_at := created_at r;
     updated_at := updated_at r; last_updated_by := last_updated_by r;
     update_count := c; verified := verified r |}.

Definition set_updated_at (t : Z) (r : TokenMetadata) : TokenMetadata :=
  {| fields := fields r; logo_url := logo_url r; created_at := created_at r;
     updated_at := t; last_updated_by := last_updated_by r;
     update_count := update_count r; verified := verified r |}.

Inductive TG_OP := INSERT | UPDATE | DELETE.

(** [update_modified_column()]: [NEW.updated_at = now()]. *)
Definition update_modified_column (e : Env) (NEW : TokenMetadata) : TokenMetadata :=
  set_updated_at (now e) NEW.

(** [track_metadata_updates()]: on UPDATE, store [OLD] in the history
    under [NEW.last_updated_by] and set
    [NEW.update_count := OLD.update_count + 1]. *)
Definition track_metadata_updates (e : Env) (op : TG_OP) (token_address : string)
    (OLD NEW : TokenMetadata) : M TokenMetadata :=
  match op with
  | UPDATE =>
      insert_history e token_address (last_updated_by NEW) OLD ;;
      let! c := lift (int4 (update_count OLD + 1)) in
      ret (set_update_count c NEW)
  | _ => ret NEW
  end.

(** [UPDATE token_metadata SET ... WHERE token_address = $n RETURNING *].
    [SET] computes the new row from the old one.  The two BEFORE UPDATE
    row triggers fire in the order of their names:
    [track_token_metadata_updates], then [update_token_metadata_modtime].
    Where a handler passes fields of a request body, their assignment to
    the VARCHAR columns is the [assign] that precedes the statement. *)
Definition update_token_metadata (e : Env) (token_address : string)
    (SET : TokenMetadata → string + TokenMetadata) : M (option TokenMetadata) :=
  atomic (
    let! row := select_token_metadata token_address in
    match row with
    | None => ret None
    | Some OLD =>
        let! NEW := lift (SET OLD) in
        let! NEW := track_metadata_updates e UPDATE token_address OLD NEW in
        let NEW := update_modified_column e NEW in
        modify (λ db,
          with_token_metadata (<[token_address := NEW]> (token_metadata db)) db) ;;
        ret (Some NEW)
    end).

(** [INSERT INTO token_metadata (token_address, <descriptive>, logo_url,
    last_updated_by, update_count) ... RETURNING *]; the timestamps and
    [verified] take their defaults.  Where a handler passes fields of a
    request body, their assignment to the VARCHAR columns is the [assign]
    that precedes the statement. *)
Definition insert_token_metadata (e : Env) (token_address : string)
    (f : Descriptive) (logo : option string) (by_whom : option string)
    (count : Z) : M TokenMetadata :=
  atomic (
    let! dup := select_token_metadata token_address in
    match dup with
    | Some _ => throw "duplicate key value violates unique constraint"
    | None =>
        let! parent := select_token token_address in
        match parent with
        | None => throw "violates foreign key constraint token_metadata_token_fk"
        | Some _ =>
            let row :=
              {| fields := f; logo_url := logo; created_at := now e;
                 updated_at := now e; last_updated_by := by_whom;
                 update_count := count; verified := false |} in
            modify (λ db,
              with_token_metadata (<[token_address := row]> (token_metadata db)) db) ;;
            ret row
        end
    end).

(** [SELECT * FROM temporary_metadata WHERE session_id = $1] *)
Definition select_temporary (session_id : string) : M (option TemporaryMetadata) :=
  gets (λ db, temporary_metadata db !! session_id).

(** [SELECT * FROM temporary_metadata WHERE session_id = $1 AND
    creator_address = $2] *)
Definition select_temporary_of (session_id creator : string)
    : M (option TemporaryMetadata) :=
  gets (λ db,
    match temporary_metadata db !! session_id with
    | Some t => if decide (creator_address t = creator) then Some t else None
    | None => None
    end).

(** [UPDATE temporary_metadata SET <descriptive>, logo_data = $4,
    expires_at = (CURRENT_TIMESTAMP + INTERVAL '24 hours')
    WHERE session_id = $12 RETURNING *] *)
Definition update_temporary (e : Env) (session_id : string) (f : Descriptive)
    (logo : option string) : M (option TemporaryMetadata) :=
  assign (descriptive_columns f) ;;
  let! row := select_temporary session_id in
  match row with
  | None => ret None
  | Some t =>
      let t' :=
        {| creator_address := creator_address t; t_fields := f;
           logo_data := logo; t_created_at := t_created_at t;
           expires_at := now e + INTERVAL_24_HOURS |} in
      modify (λ db,
        with_temporary_metadata (<[session_id := t']> (temporary_metadata db)) db) ;;
      ret (Some t')
  end.

(** [INSERT INTO temporary_metadata (session_id, creator_address,
    <descriptive>, logo_data) ... RETURNING *]; [session_id] is
    [VARCHAR(64)], [creator_address] is [VARCHAR(42)]. *)
Definition insert_temporary (e : Env) (session_id creator : string)
    (f : Descriptive) (logo : option string) : M TemporaryMetadata :=
  assign ((64, Some session_id) :: (42, Some creator) :: descriptive_columns f) ;;
  let! dup := select_temporary session_id in
  match dup with
  | Some _ => throw "duplicate key value violates unique constraint"
  | None =>
      let t :=
        {| creator_address := creator; t_fields := f; logo_data := logo;
           t_created_at := now e; expires_at := now e + INTERVAL_24_HOURS |} in
      modify (λ db,
        with_temporary_metadata (<[session_id := t]> (temporary_metadata db)) db) ;;
      ret t
  end.

(** [DELETE FROM temporary_metadata WHERE session_id = $1] *)
Definition delete_temporary (session_id : string) : M unit :=
  modify (λ db,
    with_temporary_metadata (delete session_id (temporary_metadata db)) db).

Definition newer_first (a b : HistoryEntry) : Prop :=
  update_timestamp b ≤ update_timestamp a.

#[global] Instance newer_first_dec : RelDecision newer_first.
Proof. intros a b. unfold newer_first. apply _. Defined.

(** [SELECT * FROM token_metadata_history WHERE token_address = $1
    ORDER BY update_timestamp DESC] *)
Definition select_history (token_address : string) : M (list HistoryEntry) :=
  gets (λ db,
    merge_sort newer_first
      (filter (λ h, h_token_address h = token_address) (token_metadata_history db))).

(** The WHERE clause of both statements of [link_temporary_metadata()]:
    [creator_address = NEW.owner_address AND expires_at > CURRENT_TIMESTAMP]. *)
Definition owned_and_live (e : Env) (owner : string) (t : TemporaryMetadata) : Prop :=
  creator_address t = owner ∧ now e < expires_at t.

#[global] Instance owned_and_live_dec e owner t : Decision (owned_and_live e owner t).
Proof. unfold owned_and_live. apply _. Defined.

(** [ORDER BY created_at DESC LIMIT 1].  SQL leaves the choice among rows
    of equal [created_at] open; here the scan keeps the row met first. *)
Fixpoint newest (rows : list (string * TemporaryMetadata))
    : option (string * TemporaryMetadata) :=
  match rows with
  | [] => None
  | r :: rest =>
      match newest rest with
      | Some b => if decide (t_created_at r.2 < t_created_at b.2) then Some b else Some r
      | None => Some r
      end
  end.

(** [link_temporary_metadata()], the AFTER INSERT row trigger of [tokens]. *)
Definition link_temporary_metadata (e : Env) (contract_address : string)
    (NEW : Token) : M unit :=
  let! live := gets (λ db,
    filter (λ kv, owned_and_live e (owner_address NEW) kv.2) (temporary_metadata db)) in
  match newest (map_to_list live) with
  | Some (_, t) =>
      insert_token_metadata e contract_address (t_fields t) None
        (Some (owner_address NEW)) 1 ;;
      ret tt
  | None => ret tt
  end ;;
  modify (λ db,
    with_temporary_metadata
      (filter (λ kv, ¬ owned_and_live e (owner_address NEW) kv.2)
         (temporary_metadata db))
      db).

(** Modelled from the spec: [INSERT INTO tokens], a statement of the
    deployment code outside the router; a token address has one row
    ([contract_address] is the target of two foreign keys).  The AFTER
    INSERT row trigger [link_metadata_on_token_creation] then runs
    [link_temporary_metadata()]. *)
Definition insert_token (e : Env) (contract_address : string) (NEW : Token) : M unit :=
  atomic (
    let! dup := select_token contract_address in
    match dup with
    | Some _ => throw "duplicate key value violates unique constraint"
    | None =>
        modify (λ db, with_tokens (<[contract_address := NEW]> (tokens db)) db) ;;
        link_temporary_metadata e contract_address NEW
    end).

(** [cleanup_expired_metadata()]:
    [DELETE FROM temporary_metadata WHERE expires_at < CURRENT_TIMESTAMP]. *)
Definition cleanup_expired_metadata (e : Env) : M unit :=
  modify (λ db,
    with_temporary_metadata
      (filter (λ kv, ¬ (expires_at kv.2 < now e)) (temporary_metadata db)) db).

End Sql.

(** ** The router *)

Inductive Body :=
| MetadataRow (token_address : string) (row : TokenMetadata)
| TemporaryRow (session_id : string) (row : TemporaryMetadata)
| HistoryRows (rows : list HistoryEntry)
| LogoUrl (logoUrl : string)
| Undefined.

(** [res.json(body)] with status 200, or
    [res.status(status).json({ error })]. *)
Inductive Response :=
| Ok (body : Body)
| Fail (status : Z) (error : string).

Definition status (r : Response) : Z :=
  match r with
  | Ok _ => 200
  | Fail s _ => s
  end.

(** The request body of [POST /] and [PUT /:tokenAddress]. *)
Record MetadataBody := {
  tokenAddress : option string;
  b_fields : Descriptive;
  logoUrl : option string
}.

(** The request body of [POST /temporary]. *)
Record TemporaryBody := {
  sessionId : option string;
  s_fields : Descriptive;
  logoData : option string
}.

(** [req.file] as multer leaves it. *)
Record UploadedFile := {
  originalname : string;
  filename : string
}.

Module Router.
Import Js Sql.

(** [try { body } catch (error) { res.status(500).json({ error: failure }) }] *)
Definition handle (failure : string) (body : M Response) : DB → Response * DB :=
  λ db, match body db with
        | (inr r, db') => (r, db')
        | (inl _, db') => (Fail 500 failure, db')
        end.

(** [v.toLowerCase()] where [v] may be [undefined]. *)
Definition lower_of (v : option string) : M string :=
  match v with
  | Some s => ret (toLowerCase s)
  | None => throw "TypeError: Cannot read properties of undefined (reading 'toLowerCase')"
  end.

(** [result.rows[0]] of a statement on [token_metadata]. *)
Definition metadata_row0 (token_address : string) (row : option TokenMetadata) : Body :=
  match row with
  | Some r => MetadataRow token_address r
  | None => Undefined
  end.

Definition temporary_row0 (session_id : string) (row : option TemporaryMetadata) : Body :=
  match row with
  | Some r => TemporaryRow session_id r
  | None => Undefined
  end.

(** [getWeb3StorageClient() !== null] *)
Definition web3_client (e : Env) : bool :=
  truthy (process_env e "WEB3_STORAGE_TOKEN").

Definition ipfs_url (cid fileName : string) : string :=
  "https://" +:+ cid +:+ ".ipfs.dweb.link/" +:+ fileName.

Definition local_url (e : Env) (f : UploadedFile) : string :=
  origin e +:+ "/uploads/" +:+ filename f.

(** [POST /temporary] *)
Definition post_temporary (e : Env) (user : string) (body : TemporaryBody)
    : DB → Response * DB :=
  handle "Failed to save temporary metadata" (
    let userAddress := toLowerCase user in
    match sessionId body with
    | Some sid =>
        if String.eqb sid "" then ret (Fail 400 "Session ID is required")
        else
          let! existingResult := select_temporary sid in
          match existingResult with
          | Some _ =>
              let! result := update_temporary e sid (s_fields body) (logoData body) in
              ret (Ok (temporary_row0 sid result))
          | None =>
              let! row := insert_temporary e sid userAddress (s_fields body)
                            (logoData body) in
              ret (Ok (TemporaryRow sid row))
          end
    | None => ret (Fail 400 "Session ID is required")
    end).

(** The logo step of [POST /link]: the inline image is written to the
    upload directory and, when a web3.storage client is configured, put on
    IPFS; any failure leaves [logoUrl] null. *)
Definition link_logo (e : Env) (tokenAddress : string) (logo_data : option string)
    : option string :=
  if truthy logo_data then
    if fs_ok e then
      if web3_client e then
        let fileName := "token-logo-" +:+ toLowerCase tokenAddress +:+ ".png" in
        match web3_put e fileName with
        | Some cid => Some (ipfs_url cid fileName)
        | None => None
        end
      else None
    else None
  else None.

(** The SET clause of the UPDATE of [POST /link]. *)
Definition link_set (e : Env) (t : TemporaryMetadata) (logoUrl : option string)
    (userAddress : string) (old : TokenMetadata) : string + TokenMetadata :=
  match int4 (update_count old + 1) with
  | inl err => inl err
  | inr c =>
      inr {| fields := t_fields t;
             logo_url := match logoUrl with Some u => Some u | None => logo_url old end;
             created_at := created_at old; updated_at := now e;
             last_updated_by := Some userAddress; update_count := c;
             verified := verified old |}
  end.

(** [POST /link] *)
Definition post_link (e : Env) (user : string) (tokenAddress sessionId : option string)
    : DB → Response * DB :=
  handle "Failed to link metadata" (
    let userAddress := toLowerCase user in
    match tokenAddress, sessionId with
    | Some ta, Some sid =>
        if String.eqb ta "" || String.eqb sid ""
        then ret (Fail 400 "Token address and session ID are required")
        else
          let! tokenResult := select_token (toLowerCase ta) in
          match tokenResult with
          | None => ret (Fail 404 "Token not found")
          | Some tok =>
              let tokenOwner := toLowerCase (owner_address tok) in
              if decide (tokenOwner ≠ userAddress)
              then ret (Fail 403 "Only the token owner can link metadata")
              else
                let! tempResult := select_temporary_of sid userAddress in
                match tempResult with
                | None => ret (Fail 404 "Temporary metadata not found")
                | Some tempMetadata =>
                    let! existingResult := select_token_metadata (toLowerCase ta) in
                    let logoUrl := link_logo e ta (logo_data tempMetadata) in
                    match existingResult with
                    | Some _ =>
                        let! result :=
                          update_token_metadata e (toLowerCase ta)
                            (link_set e tempMetadata logoUrl userAddress) in
                        delete_temporary sid ;;
                        ret (Ok (metadata_row0 (toLowerCase ta) result))
                    | None =>
                        let! row :=
                          insert_token_metadata e (toLowerCase ta)
                            (t_fields tempMetadata) logoUrl (Some userAddress) 1 in
                        delete_temporary sid ;;
                        ret (Ok (MetadataRow (toLowerCase ta) row))
                    end
                end
          end
    | _, _ => ret (Fail 400 "Token address and session ID are required")
    end).

(** [GET /:tokenAddress/history] *)
Definition get_history (e : Env) (user : string) (tokenAddress : string)
    : DB → Response * DB :=
  handle "Failed to fetch metadata history" (
    let userAddress := toLowerCase user in
    let! tokenResult := select_token (toLowerCase tokenAddress) in
    match tokenResult with
    | None => ret (Fail 404 "Token not found")
    | Some tok =>
        let tokenOwner := toLowerCase (owner_address tok) in
        if decide (tokenOwner ≠ userAddress)
        then ret (Fail 403 "Only the token owner can view metadata history")
        else
          let! rows := select_history (toLowerCase tokenAddress) in
          ret (Ok (HistoryRows rows))
    end).

Definition set_verified (old : TokenMetadata) (t : Z) : TokenMetadata :=
  {| fields := fields old; logo_url := logo_url old; created_at := created_at old;
     updated_at := t; last_updated_by := last_updated_by old;
     update_count := update_count old; verified := true |}.

(** [POST /:tokenAddress/verify] *)
Definition post_verify (e : Env) (user : string) (tokenAddress : string)
    : DB → Response * DB :=
  handle "Failed to verify metadata" (
    let userAddress := toLowerCase user in
    let adminAddresses :=
      map toLowerCase (split "," (or_else (process_env e "ADMIN_ADDRESSES") "")) in
    if decide (userAddress ∈ adminAddresses) then
      let! result :=
        update_token_metadata e (toLowerCase tokenAddress)
          (λ old, inr (set_verified old (now e))) in
      match result with
      | None => ret (Fail 404 "Token metadata not found")
      | Some row => ret (Ok (MetadataRow (toLowerCase tokenAddress) row))
      end
    else ret (Fail 403 "Only admins can verify metadata")).

(** [GET /:tokenAddress] *)
Definition get_metadata (tokenAddress : string) : DB → Response * DB :=
  handle "Failed to fetch token metadata" (
    let! result := select_token_metadata (toLowerCase tokenAddress) in
    match result with
    | None => ret (Fail 404 "Token metadata not found")
    | Some row => ret (Ok (MetadataRow (toLowerCase tokenAddress) row))
    end).

(** The SET clause of the UPDATE of [POST /]. *)
Definition post_set (e : Env) (metadata : MetadataBody) (userAddress : string)
    (old : TokenMetadata) : string + TokenMetadata :=
  match int4 (update_count old + 1) with
  | inl err => inl err
  | inr c =>
      inr {| fields := b_fields metadata; logo_url := logoUrl metadata;
             created_at := created_at old; updated_at := now e;
             last_updated_by := Some userAddress; update_count := c;
             verified := verified old |}
  end.

(** [POST /]; the descriptive parameters of its UPDATE and of its INSERT
    go to VARCHAR columns of [token_metadata]. *)
Definition post_metadata (e : Env) (user : string) (metadata : MetadataBody)
    : DB → Response * DB :=
  handle "Failed to save token metadata" (
    let userAddress := toLowerCase user in
    let! denied :=
      if truthy (tokenAddress metadata) then
        let! address := lower_of (tokenAddress metadata) in
        let! tokenResult := select_token address in
        match tokenResult with
        | None => ret (Some (Fail 404 "Token not found"))
        | Some tok =>
            let tokenOwner := toLowerCase (owner_address tok) in
            if decide (tokenOwner ≠ userAddress)
            then ret (Some (Fail 403 "Only the token owner can update metadata"))
            else ret None
        end
      else ret None in
    match denied with
    | Some response => ret response
    | None =>
        let! address := lower_of (tokenAddress metadata) in
        let! existingResult := select_token_metadata address in
        match existingResult with
        | Some _ =>
            assign (descriptive_columns (b_fields metadata)) ;;
            let! result :=
              update_token_metadata e address (post_set e metadata userAddress) in
            ret (Ok (metadata_row0 address result))
        | None =>
            assign (descriptive_columns (b_fields metadata)) ;;
            let! row :=
              insert_token_metadata e address (b_fields metadata)
                (logoUrl metadata) (Some userAddress) 1 in
            ret (Ok (MetadataRow address row))
        end
    end).

(** The SET clause of the UPDATE of [PUT /:tokenAddress]. *)
Definition put_set (e : Env) (metadata : MetadataBody) (old : TokenMetadata)
    : string + TokenMetadata :=
  inr {| fields := b_fields metadata; logo_url := logoUrl metadata;
         created_at := created_at old; updated_at := now e;
         last_updated_by := last_updated_by old;
         update_count := update_count old; verified := verified old |}.

(** [PUT /:tokenAddress]; the descriptive parameters of its UPDATE go to
    VARCHAR columns of [token_metadata]. *)
Definition put_metadata (e : Env) (user : string) (tokenAddress : string)
    (metadata : MetadataBody) : DB → Response * DB :=
  handle "Failed to update token metadata" (
    let userAddress := toLowerCase user in
    let! tokenResult := select_token (toLowerCase tokenAddress) in
    match tokenResult with
    | None => ret (Fail 404 "Token not found")
    | Some tok =>
        let tokenOwner := toLowerCase (owner_address tok) in
        if decide (tokenOwner ≠ userAddress)
        then ret (Fail 403 "Only the token owner can update metadata")
        else
          assign (descriptive_columns (b_fields metadata)) ;;
          let! result :=
            update_token_metadata e (toLowerCase tokenAddress) (put_set e metadata) in
          match result with
          | None => ret (Fail 404 "Token metadata not found")
          | Some row => ret (Ok (MetadataRow (toLowerCase tokenAddress) row))
          end
    end).

(** The storage step of [POST /upload-logo]: IPFS when a client is
    configured and the upload goes through, the local URL otherwise. *)
Definition store_logo (e : Env) (tokenAddress : option string) (f : UploadedFile)
    : string :=
  if web3_client e then
    match fs_ok e, tokenAddress with
    | true, Some ta =>
        let fileName :=
          "token-logo-" +:+ toLowerCase ta +:+ extname e (originalname f) in
        match web3_put e fileName with
        | Some cid => ipfs_url cid fileName
        | None => local_url e f
        end
    | _, _ => local_url e f
    end
  else local_url e f.

(** The SET clause of the UPDATE of [POST /upload-logo]. *)
Definition logo_set (e : Env) (logoUrl userAddress : string) (old : TokenMetadata)
    : string + TokenMetadata :=
  inr {| fields := fields old; logo_url := Some logoUrl;
         created_at := created_at old; updated_at := now e;
         last_updated_by := Some userAddress;
         update_count := update_count old; verified := verified old |}.

(** [POST /upload-logo] *)
Definition post_upload_logo (e : Env) (user : string) (tokenAddress : option string)
    (file : option UploadedFile) : DB → Response * DB :=
  handle "Failed to upload logo" (
    let userAddress := toLowerCase user in
    match file with
    | None => ret (Fail 400 "No file uploaded")
    | Some f =>
        let! denied :=
          if truthy tokenAddress then
            let! address := lower_of tokenAddress in
            let! tokenResult := select_token address in
            match tokenResult with
            | None => ret (Some (Fail 404 "Token not found"))
            | Some tok =>
                let tokenOwner := toLowerCase (owner_address tok) in
                if decide (tokenOwner ≠ userAddress)
                then ret (Some (Fail 403 "Only the token owner can upload a logo"))
                else ret None
            end
          else ret None in
        match denied with
        | Some response => ret response
        | None =>
            let logoUrl := store_logo e tokenAddress f in
            (if truthy tokenAddress then
               let! address := lower_of tokenAddress in
               update_token_metadata e address (logo_set e logoUrl userAddress) ;;
               ret tt
             else ret tt) ;;
            ret (Ok (LogoUrl logoUrl))
        end
    end).

(** [verifyTokenOwnership(tokenAddress, walletAddress)].  The router
    defines it and calls it nowhere.  A provider or contract that cannot
    be built, and an [owner()] call that rejects, are the [None] of
    [chain_owner]. *)
Definition verifyTokenOwnership (e : Env) (tokenAddress walletAddress : string)
    (db : DB) : bool :=
  match tokens db !! toLowerCase tokenAddress with
  | None => false
  | Some tok =>
      let networkId := network_id tok in
      match process_env e (toUpperCase networkId +:+ "_RPC_URL") with
      | None => false
      | Some rpcUrl =>
          if String.eqb rpcUrl "" then false
          else
            match chain_owner e rpcUrl tokenAddress with
            | Some owner =>
                bool_decide (toLowerCase owner = toLowerCase walletAddress)
            | None => false
            end
      end
  end.

End Router.

(** ** Requests and histories of the store *)

Inductive Request :=
| PostTemporary (user : string) (body : TemporaryBody)
| PostLink (user : string) (tokenAddress sessionId : option string)
| GetHistory (user tokenAddress : string)
| PostVerify (user tokenAddress : string)
| GetMetadata (tokenAddress : string)
| PostMetadata (user : string) (metadata : MetadataBody)
| PutMetadata (user tokenAddress : string) (metadata : MetadataBody)
| PostUploadLogo (user : string) (tokenAddress : option string)
    (file : option UploadedFile).

Definition respond (e : Env) (r : Request) : DB → Response * DB :=
  match r with
  | PostTemporary user body => Router.post_temporary e user body
  | PostLink user ta sid => Router.post_link e user ta sid
  | GetHistory user ta => Router.get_history e user ta
  | PostVerify user ta => Router.post_verify e user ta
  | GetMetadata ta => Router.get_metadata ta
  | PostMetadata user metadata => Router.post_metadata e user metadata
  | PutMetadata user ta metadata => Router.put_metadata e user ta metadata
  | PostUploadLogo user ta file => Router.post_upload_logo e user ta file
  end.

(** What changes the three metadata tables: a request to the router, a row
    inserted into [tokens] (which fires [link_temporary_metadata]), and a
    run of [cleanup_expired_metadata]. *)
Inductive Event :=
| Http (r : Request)
| TokenInserted (contract_address : string) (row : Token)
| Sweep.

Definition step (e : Env) (ev : Event) (db : DB) : DB :=
  match ev with
  | Http r => (respond e r db).2
  | TokenInserted a row => (Sql.insert_token e a row db).2
  | Sweep => (Sql.cleanup_expired_metadata e db).2
  end.

Fixpoint run (trace : list (Env * Event)) (db : DB) : DB :=
  match trace with
  | [] => db
  | (e, ev) :: rest => run rest (step e ev db)
  end.

(** The caller and the token of a request that reaches an ownership check:
    Create and UploadLogo with a token address, Update, LinkSession and
    GetHistory. *)
Definition gate_subject (r : Request) : option (string * string) :=
  match r with
  | PostLink user (Some ta) (Some sid) =>
      if String.eqb ta "" || String.eqb sid "" then None else Some (user, ta)
  | GetHistory user ta => Some (user, ta)
  | PostMetadata user metadata =>
      match tokenAddress metadata with
      | Some ta => if String.eqb ta "" then None else Some (user, ta)
      | None => None
      end
  | PutMetadata user ta _ => Some (user, ta)
  | PostUploadLogo user (Some ta) (Some _) =>
      if String.eqb ta "" then None else Some (user, ta)
  | _ => None
  end.

(** Number of history rows of a token. *)
Definition history_count (token_address : string) (db : DB) : Z :=
  Z.of_nat (List.length (filter (λ h, h_token_address h = token_address)
                      (token_metadata_history db))).

(** The row an UPDATE of [token_metadata] leaves, given what its SET clause
    computed from the old row, and the store it leaves when the history
    entry is written under [who]. *)
Definition row_after (e : Env) (old new : TokenMetadata) : TokenMetadata :=
  Sql.update_modified_column e (Sql.set_update_count (update_count old + 1) new).

Definition db_after (e : Env) (a who : string) (old new : TokenMetadata) (db : DB) : DB :=
  {| tokens := tokens db;
     token_metadata := <[a := row_after e old new]> (token_metadata db);
     temporary_metadata := temporary_metadata db;
     token_metadata_history :=
       token_metadata_history db ++ [Sql.history_entry e a who old] |}.

(** The session a caller may link: the row of [sessionId], if the caller
    created it. *)
Definition session_of (db : DB) (user : string) (sessionId : option string)
    : option TemporaryMetadata :=
  match sessionId with
  | Some sid =>
      match temporary_metadata db !! sid with
      | Some t =>
          if decide (creator_address t = Js.toLowerCase user) then Some t else None
      | None => None
      end
  | None => None
  end.

(** Whether [tokens] records the caller as the owner of the token. *)
Definition is_owner (db : DB) (user : string) (tokenAddress : option string) : bool :=
  match tokenAddress with
  | Some ta =>
      match tokens db !! Js.toLowerCase ta with
      | Some tok =>
          bool_decide (Js.toLowerCase (owner_address tok) = Js.toLowerCase user)
      | None => false
      end
  | None => false
  end.

(** A response that turns the caller away at the ownership check: the 403,
    or the 404 of a token that [tokens] does not know. *)
Definition refused (r : Response) : bool :=
  match r with
  | Ok _ => false
  | Fail st msg => (st =? 403) || ((st =? 404) && String.eqb msg "Token not found")
  end.

(** The ownership check of a request as decided by the chain: the caller is
    let through exactly when [owner()] of the token contract, asked over the
    RPC endpoint of the token's network, names the caller. *)
Definition decided_on_chain (e : Env) (r : Request) (db : DB) : Prop :=
  ∀ user ta, gate_subject r = Some (user, ta) →
    refused (respond e r db).1 = negb (Router.verifyTokenOwnership e ta user db).

(** UploadLogo with a token address: a reported success means the URL is on
    the record of the token. *)
Definition logo_persisted_on_success (e : Env) (user ta : string) (f : UploadedFile)
    (db : DB) : Prop :=
  let res := Router.post_upload_logo e user (Some ta) (Some f) db in
  ∀ url, res.1 = Ok (LogoUrl url) →
    ∃ row, token_metadata res.2 !! Js.toLowerCase ta = Some row
           ∧ logo_url row = Some url.

(** What the store looks like after [INSERT INTO tokens] went through. *)
Definition linked_by_trigger (e : Env) (a : string) (NEW : Token) (db db' : DB) : Prop :=
  let mine := Sql.owned_and_live e (owner_address NEW) in
  (∀ sid t, temporary_metadata db !! sid = Some t →
            temporary_metadata db' !! sid = if decide (mine t) then None else Some t)
  ∧ (∀ sid, temporary_metadata db !! sid = None →
            temporary_metadata db' !! sid = None)
  ∧ token_metadata_history db' = token_metadata_history db
  ∧ (((∀ sid t, temporary_metadata db !! sid = Some t → ¬ mine t)
      ∧ token_metadata db' = token_metadata db)
     ∨ (∃ sid t,
          temporary_metadata db !! sid = Some t
          ∧ mine t
          ∧ (∀ sid' t', temporary_metadata db !! sid' = Some t' → mine t' →
                        t_created_at t' ≤ t_created_at t)
          ∧ token_metadata db !! a = None
          ∧ token_metadata db'
            = <[a := {| fields := t_fields t; logo_url := None;
                        created_at := now e; updated_at := now e;
                        last_updated_by := Some (owner_address NEW);
                        update_count := 1; verified := false |}]>
                (token_metadata db))).

(** What one event may do to [token_metadata] and its history: nothing;
    rewrite one row, with one history entry holding the old row and the
    counter raised by one; or add one row with counter 1 and no history
    entry. *)
Inductive Effect (tm : gmap string TokenMetadata) (hist : list HistoryEntry)
    (tm' : gmap string TokenMetadata) (hist' : list HistoryEntry) : Prop :=
| NoWrite :
    tm' = tm → hist' = hist → Effect tm hist tm' hist'
| RowUpdated k old new h :
    tm !! k = Some old → tm' = <[k := new]> tm →
    update_count new = update_count old + 1 →
    hist' = hist ++ [h] → h_token_address h = k → previous_data h = old →
    Effect tm hist tm' hist'
| RowInserted k new :
    tm !! k = None → tm' = <[k := new]> tm → update_count new = 1 →
    hist' = hist →
    Effect tm hist tm' hist'.

Definition effect (db db' : DB) : Prop :=
  Effect (token_metadata db) (token_metadata_history db)
         (token_metadata db') (token_metadata_history db').

(** Every record has as many history rows as its counter exceeds 1, the
    value every INSERT of the router and of the trigger gives it; a token
    without a record has no history row. *)
Definition audited (db : DB) : Prop :=
  ∀ a, history_count a db
       = match token_metadata db !! a with
         | Some r => update_count r - 1
         | None => 0
         end.

(** ** Concrete stores used by the examples *)

Module Scenario.

Definition foo : Descriptive :=
  {| name := Some "Foo"; symbol := Some "FOO"; description := Some "first";
     website_url := None; twitter_url := None; telegram_url := None;
     discord_url := None; whitepaper_url := None; github_url := None;
     tags := Some ["defi"] |}.

Definition bar : Descriptive :=
  {| name := Some "Foo"; symbol := Some "FOO"; description := Some "second";
     website_url := Some "https://foo.example"; twitter_url := None;
     telegram_url := None; discord_url := None; whitepaper_url := None;
     github_url := None; tags := Some ["defi"] |}.

(** No web3.storage token, no admins; the chain reports [0xbbb] as the
    owner of every contract. *)
Definition env_at (t : Z) : Env :=
  {| now := t;
     process_env := λ k, if String.eqb k "ETHEREUM_RPC_URL"
                         then Some "https://rpc.example" else None;
     web3_put := λ _, None;
     fs_ok := true;
     chain_owner := λ _ _, Some "0xBBB";
     origin := "http://localhost:3001";
     extname := λ _, ".png" |}.

Definition admin_env (t : Z) : Env :=
  {| now := t;
     process_env := λ k, if String.eqb k "ADMIN_ADDRESSES"
                         then Some "0xADMIN,0xroot" else None;
     web3_put := λ _, None;
     fs_ok := true;
     chain_owner := λ _ _, None;
     origin := "http://localhost:3001";
     extname := λ _, ".png" |}.

Definition token1 : Token := {| owner_address := "0xAAA"; network_id := "ethereum" |}.

Definition session (creator : string) (created expires : Z) : TemporaryMetadata :=
  {| creator_address := creator; t_fields := foo; logo_data := None;
     t_created_at := created; expires_at := expires |}.

Definition record (by_whom : option string) (count : Z) : TokenMetadata :=
  {| fields := foo; logo_url := None; created_at := 50; updated_at := 50;
     last_updated_by := by_whom; update_count := count; verified := false |}.

Definition empty_db : DB :=
  {| tokens := ∅; token_metadata := ∅; temporary_metadata := ∅;
     token_metadata_history := [] |}.

(** Token [0xtoken1] owned by [0xAAA], no metadata, one session [s1] of
    [0xaaa] created at 0 and expiring at 86400. *)
Definition staged : DB :=
  {| tokens := {[ "0xtoken1" := token1 ]};
     token_metadata := ∅;
     temporary_metadata := {[ "s1" := session "0xaaa" 0 86400 ]};
     token_metadata_history := [] |}.

(** Token [0xtoken1] owned by [0xAAA], with a metadata record last
    written by [0xaaa]. *)
Definition published : DB :=
  {| tokens := {[ "0xtoken1" := token1 ]};
     token_metadata := {[ "0xtoken1" := record (Some "0xaaa") 1 ]};
     temporary_metadata := ∅;
     token_metadata_history := [] |}.

(** The same record after the token changed hands to [0xbbb]. *)
Definition transferred : DB :=
  {| tokens := {[ "0xtoken1" := {| owner_address := "0xbbb"; network_id := "ethereum" |} ]};
     token_metadata := {[ "0xtoken1" := record (Some "0xaaa") 1 ]};
     temporary_metadata := ∅;
     token_metadata_history := [] |}.

(** Three sessions of [0xaaa] (one of them expired at time 100) and one
    of [0xccc], before any token exists. *)
Definition drafts : DB :=
  {| tokens := ∅;
     token_metadata := ∅;
     temporary_metadata :=
       {[ "old" := session "0xaaa" 10 500;
          "new" := {| creator_address := "0xaaa"; t_fields := bar;
                      logo_data := Some "data:image/png;base64,AAAA";
                      t_created_at := 20; expires_at := 600 |};
          "gone" := session "0xaaa" 5 90;
          "other" := session "0xccc" 30 700 ]};
     token_metadata_history := [] |}.

Definition update_body : MetadataBody :=
  {| tokenAddress := Some "0xToken1"; b_fields := bar; logoUrl := None |}.

Definition logo_file : UploadedFile :=
  {| originalname := "logo.png"; filename := "logo-1-2.png" |}.

(** A record whose counter sits at the top of the INTEGER range. *)
Definition saturated : DB :=
  {| tokens := {[ "0xtoken1" := token1 ]};
     token_metadata := {[ "0xtoken1" := record (Some "0xaaa") 2147483647 ]};
     temporary_metadata := ∅;
     token_metadata_history := [] |}.

(** From an empty store: the token is inserted, its owner creates the
    record, updates it, and an admin verifies it. *)
Definition launch : list (Env * Event) :=
  [ (env_at 10, TokenInserted "0xtoken1" token1);
    (env_at 20, Http (PostMetadata "0xAAA" update_body));
    (env_at 30, Http (PutMetadata "0xAAA" "0xToken1" update_body));
    (admin_env 40, Http (PostVerify "0xroot" "0xTOKEN1")) ].

(** Verify by an admin, then an Update and a logo upload by the owner. *)
Definition busy_day : list (Env * Event) :=
  [ (admin_env 100, Http (PostVerify "0xAdmin" "0xToken1"));
    (env_at 200, Http (PutMetadata "0xAAA" "0xToken1" update_body));
    (env_at 300, Http (PostUploadLogo "0xAAA" (Some "0xToken1") (Some logo_file))) ].

End Scenario.

(** The disk storage of the upload middleware of [POST /upload-logo],
    [upload.single('logo')]: [req.file] for a browser file the middleware
    lets through.  [uniqueSuffix] is what
    [Date.now() + '-' + Math.round(Math.random() * 1E9)] gives for the
    request. *)
Module Multer.

(** [file.fieldname + '-' + uniqueSuffix + path.extname(file.originalname)] *)
Definition storage_filename (e : Env) (uniqueSuffix originalname : string) : string :=
  "logo" +:+ "-" +:+ uniqueSuffix +:+ extname e originalname.

Definition single (e : Env) (uniqueSuffix originalname : string) : UploadedFile :=
  {| originalname := originalname;
     filename := storage_filename e uniqueSuffix originalname |}.

End Multer.

(** ** The client service and the metadata form *)

(** [metadataService]: the session identifier the browser holds, in the
    service object and in [localStorage], and the two calls that use it.
    The address the server sees for the caller is fixed by the auth token;
    [uuid] is what [uuidv4()] returns when it is called; [online] tells
    whether [fetch] reaches the server. *)
Module Client.
Import Js.

Record State := {
  this_sessionId : option string;
  localStorage : gmap string string
}.

Definition KEY : string := "metadataSessionId".

(** [constructor]: [localStorage.getItem('metadataSessionId') || null] *)
Definition create (storage : gmap string string) : State :=
  {| this_sessionId :=
       match storage !! KEY with
       | Some s => if String.eqb s "" then None else Some s
       | None => None
       end;
     localStorage := storage |}.

(** [createSession()] *)
Definition createSession (uuid : string) (c : State) : string * State :=
  (uuid, {| this_sessionId := Some uuid;
            localStorage := <[KEY := uuid]> (localStorage c) |}).

(** [getSessionId()] *)
Definition getSessionId (uuid : string) (c : State) : string * State :=
  match this_sessionId c with
  | Some s => if String.eqb s "" then createSession uuid c else (s, c)
  | None => createSession uuid c
  end.


(** [linkTemporaryMetadata(tokenAddress)] *)
Definition linkTemporaryMetadata (online : bool) (e : Env) (user : string)
    (tokenAddress : string) (c : State) (db : DB) : bool * State * DB :=
  if truthy (this_sessionId c) then
    if online then
      let '(response, db') :=
        Router.post_link e user (Some tokenAddress) (this_sessionId c) db in
      match response with
      | Ok _ =>
          (true,
           {| this_sessionId := None;
              localStorage := delete KEY (localStorage c) |},
           db')
      | Fail _ _ => (false, c, db')
      end
    else (false, c, db)
  else (false, c, db).

(** One [fetch]: whether it reaches the server, the environment of the
    server when it serves the request, and the suffix the upload
    middleware draws for it. *)
Record Fetch := {
  reaches : bool;
  server : Env;
  uniqueSuffix : string
}.

(** [data.logoUrl] of a response body. *)
Definition logoUrl_of (data : Body) : option string :=
  match data with
  | LogoUrl url => Some url
  | _ => None
  end.

(** [uploadLogo(tokenAddress, file)], for a file (by its name) that the
    upload middleware lets through: what it returns, or [None] for the
    AppError. *)
Definition uploadLogo (c : Fetch) (user : string) (tokenAddress : string)
    (file : string) (db : DB) : option (option string) * DB :=
  if reaches c then
    let '(response, db') :=
      Router.post_upload_logo (server c) user (Some tokenAddress)
        (Some (Multer.single (server c) (uniqueSuffix c) file)) db in
    match response with
    | Ok data => (Some (logoUrl_of data), db')
    | Fail _ _ => (None, db')
    end
  else (None, db).

(** [saveTokenMetadata(metadata)] *)
Definition saveTokenMetadata (c : Fetch) (user : string) (metadata : MetadataBody)
    (db : DB) : option Body * DB :=
  if reaches c then
    let '(response, db') := Router.post_metadata (server c) user metadata db in
    match response with
    | Ok row => (Some row, db')
    | Fail _ _ => (None, db')
    end
  else (None, db).

(** [updateTokenMetadata(metadata)]: the PUT goes to
    [`/api/token-metadata/${metadata.tokenAddress}`]; with an empty
    address no route of the router matches the path. *)
Definition updateTokenMetadata (c : Fetch) (user : string) (metadata : MetadataBody)
    (db : DB) : option Body * DB :=
  if reaches c then
    let param := default "undefined" (tokenAddress metadata) in
    if String.eqb param "" then (None, db)
    else
      let '(response, db') := Router.put_metadata (server c) user param metadata db in
      match response with
      | Ok row => (Some row, db')
      | Fail _ _ => (None, db')
      end
  else (None, db).

(** [validateUrl(url)] *)
Definition validateUrl (url : string) : bool :=
  if String.eqb url "" then true else String.prefix "https://" url.

End Client.

(** [TokenMetadataForm]: the tag toggle of the form state. *)
Module Form.

(** [handleTagToggle(tagId)] on [prev.tags] *)
Definition handleTagToggle (tagId : string) (tags : option (list string))
    : list string :=
  let currentTags := default [] tags in
  if decide (tagId ∈ currentTags)
  then filter (λ t, t ≠ tagId) currentTags
  else currentTags ++ [tagId].

(** [value && !metadataService.validateUrl(value)] *)
Definition url_error (value : option string) : bool :=
  match value with
  | Some url => Js.truthy value && negb (Client.validateUrl url)
  | None => false
  end.

(** [metadata.description && metadata.description.length > 300].  The
    length is counted in 8-bit characters, which is the length the code
    sees for ASCII text and at least that length for any text they
    encode. *)
Definition description_error (description : option string) : bool :=
  match description with
  | Some d => Js.truthy description && bool_decide (300 < Z.of_nat (String.length d))
  | None => false
  end.

(** [validateForm()] *)
Definition validateForm (metadata : MetadataBody) : bool :=
  let f := b_fields metadata in
  negb (existsb url_error
          [website_url f; twitter_url f; telegram_url f; discord_url f;
           whitepaper_url f; github_url f]
        || description_error (description f)).

(** [initialMetadata?.id] as a condition. *)
Definition has_id (id : option Z) : bool :=
  match id with
  | Some n => negb (n =? 0)
  | None => false
  end.

(** [updatedMetadata.logoUrl = url] on the copy [{ ...metadata }]. *)
Definition with_logoUrl (url : option string) (metadata : MetadataBody)
    : MetadataBody :=
  {| tokenAddress := tokenAddress metadata; b_fields := b_fields metadata;
     logoUrl := url |}.

(** [handleSubmit]: [tokenAddress] and [id] are the props [tokenAddress]
    and [initialMetadata?.id], [metadata] and [logoFile] the state of the
    form when it is submitted; [c1], [c2] and [c3] are the requests in the
    order they are sent.  The result is what [onSave] receives, or [None]
    when nothing is saved. *)
Definition handleSubmit (c1 c2 c3 : Client.Fetch) (user : string)
    (tokenAddress : string) (id : option Z) (metadata : MetadataBody)
    (logoFile : option string) (db : DB) : option Body * DB :=
  let save updatedMetadata db :=
    if has_id id
    then Client.updateTokenMetadata c3 user updatedMetadata db
    else Client.saveTokenMetadata c3 user updatedMetadata db in
  if validateForm metadata then
    match logoFile with
    | Some file =>
        match Client.uploadLogo c1 user tokenAddress file db with
        | (Some _, db1) =>
            match Client.uploadLogo c2 user tokenAddress file db1 with
            | (Some url, db2) =>
                save (with_logoUrl url metadata) db2
            | (None, db2) => (None, db2)
            end
        | (None, db1) => (None, db1)
        end
    | None => save metadata db
    end
  else (None, db).

End Form.

(** The admin allow-list of [POST /:tokenAddress/verify]. *)
Definition adminAddresses (e : Env) : list string :=
  map Js.toLowerCase (Js.split "," (Js.or_else (process_env e "ADMIN_ADDRESSES") "")).

(** A string without upper-case ASCII letters. *)
Definition lowercase (s : string) : Prop := Js.toLowerCase s = s.

(** The request is a Verify by an admin for the record of address [a]. *)
Definition verified_by (e : Env) (r : Request) (a : string) : Prop :=
  ∃ user ta, r = PostVerify user ta
             ∧ Js.toLowerCase user ∈ adminAddresses e
             ∧ a = Js.toLowerCase ta.

(** The request is one of the two that work on sessions. *)
Definition on_sessions (r : Request) : Prop :=
  match r with
  | PostTemporary _ _ | PostLink _ _ _ => True
  | _ => False
  end.

(** What one request writes, in full: [tokens] stays; the sessions stay
    unless [S]; and on [token_metadata] and its history the request does
    nothing, or rewrites the row of one lowercase address (history entry
    with the old row, counter raised by one, creation time kept,
    verification flag kept unless [V] holds of the address and the flag
    is set), or adds an unverified row with counter 1 under a lowercase
    address known to [tokens]. *)
Inductive Write (e : Env) (V : string → Prop) (S : Prop) (db db' : DB) : Prop :=
| WriteNone :
    tokens db' = tokens db →
    (temporary_metadata db' = temporary_metadata db ∨ S) →
    token_metadata db' = token_metadata db →
    token_metadata_history db' = token_metadata_history db →
    Write e V S db db'
| WriteUpdate a old new who :
    tokens db' = tokens db →
    (temporary_metadata db' = temporary_metadata db ∨ S) →
    lowercase a →
    token_metadata db !! a = Some old →
    token_metadata db' = <[a := new]> (token_metadata db) →
    token_metadata_history db'
    = token_metadata_history db ++ [Sql.history_entry e a who old] →
    update_count new = update_count old + 1 →
    created_at new = created_at old →
    (verified new = verified old ∨ (verified new = true ∧ V a)) →
    Write e V S db db'
| WriteInsert a new :
    tokens db' = tokens db →
    (temporary_metadata db' = temporary_metadata db ∨ S) →
    lowercase a →
    token_metadata db !! a = None →
    is_Some (tokens db !! a) →
    token_metadata db' = <[a := new]> (token_metadata db) →
    token_metadata_history db' = token_metadata_history db →
    update_count new = 1 →
    created_at new = now e →
    verified new = false →
    Write e V S db db'.

(** All addresses under which [token_metadata] holds a record are
    lowercase. *)
Definition keys_lowercase (db : DB) : Prop :=
  ∀ a r, token_metadata db !! a = Some r → lowercase a.

(** All sessions are filed under a lowercase creator address. *)
Definition creators_lowercase (db : DB) : Prop :=
  ∀ sid t, temporary_metadata db !! sid = Some t → lowercase (creator_address t).

(** The VARCHAR parameters of the statement that [POST /temporary] runs
    for a body with session identifier [sid]: those of the UPDATE when the
    session exists, those of the INSERT otherwise. *)
Definition temporary_params (user : string) (body : TemporaryBody) (sid : string)
    (db : DB) : list (Z * option string) :=
  match temporary_metadata db !! sid with
  | Some _ => Sql.descriptive_columns (s_fields body)
  | None =>
      (64, Some sid) :: (42, Some (Js.toLowerCase user))
      :: Sql.descriptive_columns (s_fields body)
  end.

(** A request either answered 200 or left the store as it was. *)
Definition all_or_nothing (db : DB) (res : Response * DB) : Prop :=
  (∃ b, res.1 = Ok b) ∨ res.2 = db.

(** * Properties *)

(** ** Strings *)

Lemma lower_char_idemp c : Js.lower_char (Js.lower_char c) = Js.lower_char c.
Proof. destruct c as [[] [] [] [] [] [] [] []]; vm_compute; reflexivity. Qed.

Lemma toLowerCase_idemp s : Js.toLowerCase (Js.toLowerCase s) = Js.toLowerCase s.
Proof.
  unfold Js.toLowerCase.
  induction s as [|c s IH]; simpl; [reflexivity|].
  by rewrite lower_char_idemp, IH.
Qed.

(** ** The UPDATE statement on [token_metadata] *)

(** The assignment to VARCHAR columns goes through exactly when the values
    fit, and never touches the store. *)
Lemma assign_fits cols db :
  Sql.columns_fit cols → Sql.assign cols db = (inr tt, db).
Proof. intros H. unfold Sql.assign. by rewrite decide_True. Qed.

Lemma assign_cases cols db :
  (Sql.columns_fit cols ∧ Sql.assign cols db = (inr tt, db))
  ∨ (¬ Sql.columns_fit cols ∧ ∃ err, Sql.assign cols db = (inl err, db)).
Proof.
  unfold Sql.assign. destruct (decide _) as [H|H]; [left|right]; split; try done.
  by eexists.
Qed.

(** The two statements of [POST /temporary], by cases. *)
Lemma update_temporary_eq e sid f logo db :
  Sql.update_temporary e sid f logo db
  = if decide (Sql.columns_fit (Sql.descriptive_columns f)) then
      match temporary_metadata db !! sid with
      | Some t =>
          let t' := {| creator_address := creator_address t; t_fields := f;
                       logo_data := logo; t_created_at := t_created_at t;
                       expires_at := now e + Sql.INTERVAL_24_HOURS |} in
          (inr (Some t'),
           with_temporary_metadata (<[sid := t']> (temporary_metadata db)) db)
      | None => (inr None, db)
      end
    else (inl "value too long for type character varying", db).
Proof.
  unfold Sql.update_temporary, Sql.assign, bind at 1.
  destruct (decide _); [|done].
  unfold ret at 1, bind at 1, Sql.select_temporary, gets.
  by destruct (temporary_metadata db !! sid).
Qed.

Lemma insert_temporary_eq e sid creator f logo db :
  Sql.insert_temporary e sid creator f logo db
  = if decide (Sql.columns_fit
                 ((64, Some sid) :: (42, Some creator) :: Sql.descriptive_columns f)) then
      match temporary_metadata db !! sid with
      | Some _ => (inl "duplicate key value violates unique constraint", db)
      | None =>
          let t := {| creator_address := creator; t_fields := f; logo_data := logo;
                      t_created_at := now e;
                      expires_at := now e + Sql.INTERVAL_24_HOURS |} in
          (inr t, with_temporary_metadata (<[sid := t]> (temporary_metadata db)) db)
      end
    else (inl "value too long for type character varying", db).
Proof.
  unfold Sql.insert_temporary, Sql.assign, bind at 1.
  destruct (decide _); [|done].
  unfold ret at 1, bind at 1, Sql.select_temporary, gets.
  by destruct (temporary_metadata db !! sid).
Qed.

Section update_statement.
Import Sql.
Variable e : Env.
Variable a : string.
Variable SET : TokenMetadata → string + TokenMetadata.

Local Abbreviation row_after := (row_after e).
Local Abbreviation db_after := (db_after e a).

Lemma update_no_row db :
  token_metadata db !! a = None →
  update_token_metadata e a SET db = (inr None, db).
Proof.
  intros H. unfold update_token_metadata, atomic, bind, select_token_metadata, gets.
  by rewrite H.
Qed.

Lemma update_row db old new who tok :
  token_metadata db !! a = Some old →
  SET old = inr new →
  last_updated_by new = Some who →
  tokens db !! a = Some tok →
  INT4_MIN ≤ update_count old + 1 ≤ INT4_MAX →
  update_token_metadata e a SET db
  = (inr (Some (row_after old new)), db_after who old new db).
Proof.
  intros Hold Hset Hwho Htok Hrange.
  unfold update_token_metadata, atomic, bind, select_token_metadata, gets, lift.
  rewrite Hold, Hset. cbn.
  unfold insert_history, bind, select_token, gets, int4, lift.
  rewrite Hwho, Htok. cbn.
  destruct (decide _) as [_|Hn]; [|by destruct Hn].
  reflexivity.
Qed.

(** Whatever an UPDATE returns, it is one of: no row matched; one row
    rewritten with its history entry; an error and no change. *)
Lemma update_cases db :
  (token_metadata db !! a = None ∧
   update_token_metadata e a SET db = (inr None, db))
  ∨ (∃ old new who tok,
       token_metadata db !! a = Some old ∧ SET old = inr new ∧
       last_updated_by new = Some who ∧ tokens db !! a = Some tok ∧
       INT4_MIN ≤ update_count old + 1 ≤ INT4_MAX ∧
       update_token_metadata e a SET db
       = (inr (Some (row_after old new)), db_after who old new db))
  ∨ (∃ old err,
       token_metadata db !! a = Some old ∧
       update_token_metadata e a SET db = (inl err, db)).
Proof.
  destruct (token_metadata db !! a) as [old|] eqn:Hold;
    [|left; split; [done | by apply update_no_row]].
  right.
  destruct (SET old) as [err|new] eqn:Hset.
  { right. exists old, err. split; [done|].
    unfold update_token_metadata, atomic, bind, select_token_metadata, gets, lift.
    by rewrite Hold, Hset. }
  destruct (last_updated_by new) as [who|] eqn:Hwho.
  2:{ right. exists old. eexists. split; [done|].
      unfold update_token_metadata, atomic, bind, select_token_metadata, gets, lift.
      rewrite Hold, Hset. cbn. unfold insert_history. rewrite Hwho. reflexivity. }
  destruct (tokens db !! a) as [tok|] eqn:Htok.
  2:{ right. exists old. eexists. split; [done|].
      unfold update_token_metadata, atomic, bind, select_token_metadata, gets, lift.
      rewrite Hold, Hset. cbn.
      unfold insert_history, bind, select_token, gets. rewrite Hwho, Htok.
      reflexivity. }
  destruct (decide (INT4_MIN ≤ update_count old + 1 ≤ INT4_MAX)) as [Hr|Hr].
  { left. exists old, new, who, tok. repeat split; try done; try apply Hr.
    by apply update_row with tok. }
  right. exists old. eexists. split; [done|].
  unfold update_token_metadata, atomic, bind, select_token_metadata, gets, lift.
  rewrite Hold, Hset. cbn.
  unfold insert_history, bind, select_token, gets, int4, lift. rewrite Hwho, Htok. cbn.
  destruct (decide _) as [Hy|_]; [by destruct Hr|]. reflexivity.
Qed.

End update_statement.

(** ** Get is insensitive to the case of the address *)

(** C10. [GET /:tokenAddress] lowers the address before the lookup, so a
    mixed-case spelling and its lowercase form get the same answer: the
    same record, or the same 404. *)
Theorem get_metadata_case_insensitive (tokenAddress : string) (db : DB) :
  Router.get_metadata tokenAddress db
  = Router.get_metadata (Js.toLowerCase tokenAddress) db.
Proof. unfold Router.get_metadata. by rewrite toLowerCase_idemp. Qed.

(** Two spellings of one address are the same key for Get. *)
Lemma get_metadata_same_key (a b : string) (db : DB) :
  Js.toLowerCase a = Js.toLowerCase b →
  Router.get_metadata a db = Router.get_metadata b db.
Proof. intros H. unfold Router.get_metadata. by rewrite H. Qed.

(** ** Create without a token address *)

(** C5. With [tokenAddress] absent from the body, [POST /] skips the
    ownership check and then evaluates [metadata.tokenAddress.toLowerCase()]
    for the lookup of the existing record: the TypeError is caught and the
    request ends in a 500 with nothing stored. *)
Theorem create_without_token_address_fails
    (e : Env) (user : string) (f : Descriptive) (logo : option string) (db : DB) :
  Router.post_metadata e user
    {| tokenAddress := None; b_fields := f; logoUrl := logo |} db
  = (Fail 500 "Failed to save token metadata", db).
Proof. reflexivity. Qed.

(** An empty [tokenAddress] skips the ownership check as well; the INSERT
    then needs a token of that address, and with none the request ends in
    the same 500. *)
Lemma create_with_empty_token_address_fails
    (e : Env) (user : string) (f : Descriptive) (logo : option string) (db : DB) :
  tokens db !! "" = None → token_metadata db !! "" = None →
  Router.post_metadata e user
    {| tokenAddress := Some ""; b_fields := f; logoUrl := logo |} db
  = (Fail 500 "Failed to save token metadata", db).
Proof.
  intros Htok Hmeta.
  unfold Router.post_metadata, Router.handle. cbn.
  unfold bind, ret, Sql.select_token_metadata, gets. cbn. rewrite Hmeta.
  destruct (assign_cases (Sql.descriptive_columns f) db) as [[_ ->]|[_ [err ->]]];
    [|done].
  unfold Sql.insert_token_metadata, atomic, bind, Sql.select_token_metadata,
    Sql.select_token, gets.
  by rewrite Hmeta, Htok.
Qed.

(** ** Expired sessions *)

(** C3. At time 200000 the session [s1], which expired at 86400 and has not
    been swept, is found by [POST /link]: the link succeeds, the record is
    created from the session and the session is deleted.  The trigger
    [link_temporary_metadata], which filters on [expires_at], ignores the
    same session at the same time. *)
Theorem link_accepts_expired_session :
  let e := Scenario.env_at 200000 in
  let res := Router.post_link e "0xAAA" (Some "0xToken1") (Some "s1") Scenario.staged in
  (expires_at <$> temporary_metadata Scenario.staged !! "s1") = Some 86400
  ∧ 86400 < now e
  ∧ res.1 = Ok (MetadataRow "0xtoken1"
                  {| fields := Scenario.foo; logo_url := None;
                     created_at := 200000; updated_at := 200000;
                     last_updated_by := Some "0xaaa"; update_count := 1;
                     verified := false |})
  ∧ temporary_metadata res.2 !! "s1" = None
  ∧ Sql.link_temporary_metadata e "0xtoken1" {| owner_address := "0xaaa"; network_id := "ethereum" |}
      Scenario.staged = (inr tt, Scenario.staged).
Proof. vm_compute. repeat split; reflexivity. Qed.

(** ** Update and [last_updated_by] *)

(** C4. After the token changed hands from [0xaaa] to [0xbbb], an Update by
    [0xbbb] succeeds and rewrites the fields, yet [last_updated_by] still
    names [0xaaa], and so does the history entry.  The UPDATE of [POST /] on
    the same store does set [last_updated_by] to the caller. *)
Theorem put_keeps_previous_last_updated_by :
  let e := Scenario.env_at 100 in
  let put := Router.put_metadata e "0xBBB" "0xToken1" Scenario.update_body
               Scenario.transferred in
  let post := Router.post_metadata e "0xBBB" Scenario.update_body
                Scenario.transferred in
  put.1 = Ok (MetadataRow "0xtoken1"
                {| fields := Scenario.bar; logo_url := None; created_at := 50;
                   updated_at := 100; last_updated_by := Some "0xaaa";
                   update_count := 2; verified := false |})
  ∧ (updated_by <$> token_metadata_history put.2) = ["0xaaa"]
  ∧ (last_updated_by <$> token_metadata post.2 !! "0xtoken1") = Some (Some "0xbbb").
Proof. vm_compute. repeat split; reflexivity. Qed.

(** ** Update: counter and history snapshot *)

(** What [PUT /:tokenAddress] does once the caller passed the ownership
    check. *)
Lemma put_metadata_gate_passed e user ta body db tok :
  tokens db !! Js.toLowerCase ta = Some tok →
  Js.toLowerCase (owner_address tok) = Js.toLowerCase user →
  Router.put_metadata e user ta body db
  = if decide (Sql.columns_fit (Sql.descriptive_columns (b_fields body))) then
      match Sql.update_token_metadata e (Js.toLowerCase ta) (Router.put_set e body) db with
      | (inr (Some row), db') => (Ok (MetadataRow (Js.toLowerCase ta) row), db')
      | (inr None, db') => (Fail 404 "Token metadata not found", db')
      | (inl _, db') => (Fail 500 "Failed to update token metadata", db')
      end
    else (Fail 500 "Failed to update token metadata", db).
Proof.
  intros Htok Hown.
  unfold Router.put_metadata, Router.handle, bind at 1, Sql.select_token, gets.
  rewrite Htok. destruct (decide (_ ≠ _)) as [Hne|_]; [done|].
  unfold bind, Sql.assign.
  destruct (decide (Sql.columns_fit _)) as [Hfit|Hfit]; [|done].
  unfold ret.
  destruct (Sql.update_token_metadata _ _ _ _) as [[err|[row|]] db']; done.
Qed.

Lemma put_metadata_ok_inv e user ta body db r :
  (Router.put_metadata e user ta body db).1 = Ok r →
  ∃ tok, tokens db !! Js.toLowerCase ta = Some tok
         ∧ Js.toLowerCase (owner_address tok) = Js.toLowerCase user.
Proof.
  unfold Router.put_metadata, Router.handle, bind at 1, Sql.select_token, gets.
  destruct (tokens db !! Js.toLowerCase ta) as [tok|]; [|done].
  destruct (decide _) as [Hne|Heq]; [done|].
  intros _. exists tok. split; [done|]. by apply dec_stable.
Qed.

(** C2. A successful Update of a record raises [update_count] by exactly
    one and appends exactly one history entry, whose [previous_data] is the
    row as it stood in the store when the UPDATE ran. *)
Theorem update_counts_and_snapshots
    (e : Env) (user ta : string) (body : MetadataBody) (db : DB) (r : Body) :
  let res := Router.put_metadata e user ta body db in
  res.1 = Ok r →
  ∃ old new h,
    token_metadata db !! Js.toLowerCase ta = Some old
    ∧ r = MetadataRow (Js.toLowerCase ta) new
    ∧ token_metadata res.2 = <[Js.toLowerCase ta := new]> (token_metadata db)
    ∧ update_count new = update_count old + 1
    ∧ fields new = b_fields body
    ∧ logo_url new = logoUrl body
    ∧ token_metadata_history res.2 = token_metadata_history db ++ [h]
    ∧ h_token_address h = Js.toLowerCase ta
    ∧ previous_data h = old.
Proof.
  intros res Hok. subst res.
  destruct (put_metadata_ok_inv _ _ _ _ _ _ Hok) as (tok & Htok & Hown).
  rewrite (put_metadata_gate_passed _ _ _ _ _ _ Htok Hown) in Hok |- *.
  destruct (decide (Sql.columns_fit _)) as [Hfit|Hfit]; [|discriminate].
  destruct (update_cases e (Js.toLowerCase ta) (Router.put_set e body) db)
    as [[_ Hu]|[(old & new & who & tok' & Hold & Hset & _ & _ & _ & Hu)
               |(old & err & _ & Hu)]];
    rewrite Hu in Hok |- *; simpl in Hok; try discriminate.
  injection Hok as <-.
  exists old, (row_after e old new), (Sql.history_entry e (Js.toLowerCase ta) who old).
  unfold Router.put_set in Hset. injection Hset as <-.
  repeat split; first [exact Hold | reflexivity].
Qed.

Lemma update_counts_and_snapshots_witness :
  let res := Router.put_metadata (Scenario.env_at 100) "0xAAA" "0xToken1"
               Scenario.update_body Scenario.published in
  res.1 = Ok (MetadataRow "0xtoken1"
                {| fields := Scenario.bar; logo_url := None; created_at := 50;
                   updated_at := 100; last_updated_by := Some "0xaaa";
                   update_count := 2; verified := false |})
  ∧ ∃ old new h,
      token_metadata Scenario.published !! Js.toLowerCase "0xToken1" = Some old
      ∧ MetadataRow "0xtoken1"
          {| fields := Scenario.bar; logo_url := None; created_at := 50;
             updated_at := 100; last_updated_by := Some "0xaaa";
             update_count := 2; verified := false |}
        = MetadataRow (Js.toLowerCase "0xToken1") new
      ∧ token_metadata res.2
        = <[Js.toLowerCase "0xToken1" := new]> (token_metadata Scenario.published)
      ∧ update_count new = update_count old + 1
      ∧ fields new = b_fields Scenario.update_body
      ∧ logo_url new = logoUrl Scenario.update_body
      ∧ token_metadata_history res.2
        = token_metadata_history Scenario.published ++ [h]
      ∧ h_token_address h = Js.toLowerCase "0xToken1"
      ∧ previous_data h = old.
Proof.
  intros res. split; [vm_compute; reflexivity|].
  apply (update_counts_and_snapshots (Scenario.env_at 100) "0xAAA" "0xToken1"
           Scenario.update_body Scenario.published).
  vm_compute. reflexivity.
Defined.

(** ** LinkSession: failures leave the store alone *)

(** C6. When the session is missing or was created by someone else, or
    when the caller is not the recorded owner of the token (or the token is
    unknown), [POST /link] answers 400, 403 or 404 and the store is exactly
    what it was: no record created or altered, no session deleted. *)
Theorem link_failure_leaves_store
    (e : Env) (user : string) (tokenAddress sessionId : option string) (db : DB) :
  session_of db user sessionId = None ∨ is_owner db user tokenAddress = false →
  ∃ st msg,
    Router.post_link e user tokenAddress sessionId db = (Fail st msg, db)
    ∧ (st = 400 ∨ st = 403 ∨ st = 404).
Proof.
  intros H. unfold Router.post_link, Router.handle.
  destruct tokenAddress as [ta|], sessionId as [sid|];
    try (eexists _, _; split; [reflexivity | by left]).
  destruct (String.eqb ta "" || String.eqb sid "") eqn:Hempty;
    [eexists _, _; split; [reflexivity | by left]|].
  unfold bind at 1, Sql.select_token, gets.
  simpl in H.
  destruct (tokens db !! Js.toLowerCase ta) as [tok|];
    [|eexists _, _; split; [reflexivity | by right; right]].
  destruct (decide _) as [Hne|Heq];
    [eexists _, _; split; [reflexivity | by right; left]|].
  apply dec_stable in Heq.
  rewrite bool_decide_eq_false in H.
  destruct H as [H|H]; [|done].
  unfold bind at 1, Sql.select_temporary_of, gets.
  destruct (temporary_metadata db !! sid) as [t|];
    [|eexists _, _; split; [reflexivity | by right; right]].
  destruct (decide _); [done|].
  eexists _, _; split; [reflexivity | by right; right].
Qed.

Lemma link_failure_leaves_store_witness :
  (session_of Scenario.staged "0xAAA" (Some "s2") = None
   ∨ is_owner Scenario.staged "0xAAA" (Some "0xToken1") = false)
  ∧ (session_of Scenario.staged "0xBBB" (Some "s1") = None
     ∨ is_owner Scenario.staged "0xBBB" (Some "0xToken1") = false)
  ∧ (∃ st msg,
       Router.post_link (Scenario.env_at 100) "0xAAA" (Some "0xToken1") (Some "s2")
         Scenario.staged = (Fail st msg, Scenario.staged)
       ∧ (st = 400 ∨ st = 403 ∨ st = 404))
  ∧ (∃ st msg,
       Router.post_link (Scenario.env_at 100) "0xBBB" (Some "0xToken1") (Some "s1")
         Scenario.staged = (Fail st msg, Scenario.staged)
       ∧ (st = 400 ∨ st = 403 ∨ st = 404)).
Proof.
  split; [left; vm_compute; reflexivity|].
  split; [right; vm_compute; reflexivity|].
  split.
  - apply (link_failure_leaves_store (Scenario.env_at 100) "0xAAA"
             (Some "0xToken1") (Some "s2") Scenario.staged).
    left. vm_compute. reflexivity.
  - apply (link_failure_leaves_store (Scenario.env_at 100) "0xBBB"
             (Some "0xToken1") (Some "s1") Scenario.staged).
    right. vm_compute. reflexivity.
Defined.

(** ** The trigger on [tokens] *)

Lemma newest_None rows : Sql.newest rows = None → rows = [].
Proof.
  destruct rows as [|r rest]; [done|]. simpl.
  destruct (Sql.newest rest); [destruct (decide _)|]; done.
Qed.

Lemma newest_Some rows r :
  Sql.newest rows = Some r →
  r ∈ rows ∧ ∀ r', r' ∈ rows → t_created_at r'.2 ≤ t_created_at r.2.
Proof.
  revert r. induction rows as [|x rest IH]; intros r; simpl; [done|].
  destruct (Sql.newest rest) as [b|] eqn:Hb.
  - destruct (IH b eq_refl) as [Hin Hmax].
    destruct (decide _) as [Hlt|Hge]; intros [= <-].
    + split; [by right|].
      intros r' [->|Hr']%elem_of_cons; [lia | by apply Hmax].
    + split; [by left|].
      intros r' [->|Hr']%elem_of_cons; [lia|].
      specialize (Hmax r' Hr'). lia.
  - intros [= <-]. apply newest_None in Hb as ->.
    split; [by left|]. intros r' [->|Hr']%elem_of_cons; [lia|].
    by apply elem_of_nil in Hr'.
Qed.

Lemma insert_token_effect e a NEW db db' :
  Sql.insert_token e a NEW db = (inr tt, db') → linked_by_trigger e a NEW db db'.
Proof.
  intros Hrun. unfold linked_by_trigger.
  set (mine := Sql.owned_and_live e (owner_address NEW)).
  unfold Sql.insert_token, atomic, bind at 1, Sql.select_token, gets in Hrun.
  destruct (tokens db !! a) as [?|] eqn:Hfresh; [done|].
  unfold bind at 1, modify in Hrun.
  unfold Sql.link_temporary_metadata, bind at 1, gets in Hrun.
  cbn [temporary_metadata with_tokens] in Hrun.
  set (live := filter (λ kv, Sql.owned_and_live e (owner_address NEW) kv.2)
                 (temporary_metadata db)) in Hrun.
  assert (Hdel : ∀ db1 : DB,
             temporary_metadata db1 = temporary_metadata db →
             ∀ sid,
               (filter (λ kv, ¬ Sql.owned_and_live e (owner_address NEW) kv.2)
                  (temporary_metadata db1)) !! sid
               = match temporary_metadata db !! sid with
                 | Some t => if decide (mine t) then None else Some t
                 | None => None
                 end).
  { intros db1 -> sid. rewrite map_lookup_filter.
    destruct (temporary_metadata db !! sid) as [t|]; [|done]. simpl.
    subst mine. destruct (decide (Sql.owned_and_live _ _ t)) as [Hm|Hm].
    - rewrite option_guard_False; [done|]. simpl. tauto.
    - by rewrite option_guard_True. }
  destruct (Sql.newest (map_to_list live)) as [[sid t]|] eqn:Hnew.
  - apply newest_Some in Hnew as [Hin Hmax].
    apply elem_of_map_to_list in Hin. subst live.
    apply map_lookup_filter_Some in Hin as [Ht Hmine]. simpl in Hmine.
    unfold bind at 1 in Hrun. unfold bind at 1 in Hrun.
    unfold Sql.insert_token_metadata, atomic, bind at 1,
      Sql.select_token_metadata, gets in Hrun.
    cbn [token_metadata with_tokens] in Hrun.
    destruct (token_metadata db !! a) eqn:Hnone; [done|].
    unfold bind at 1, Sql.select_token, gets in Hrun.
    cbn [tokens with_tokens] in Hrun. rewrite lookup_insert_eq in Hrun.
    cbn in Hrun. injection Hrun as <-.
    cbn [temporary_metadata token_metadata_history token_metadata
         with_temporary_metadata with_token_metadata with_tokens].
    split; [|split; [|split; [done|]]].
    + intros sid' t' Ht'. rewrite (Hdel db eq_refl). by rewrite Ht'.
    + intros sid' Ht'. rewrite (Hdel db eq_refl). by rewrite Ht'.
    + right. exists sid, t. repeat split; try done; try apply Hmine.
      intros sid' t' Ht' Hm'.
      apply (Hmax (sid', t')). apply elem_of_map_to_list.
      apply map_lookup_filter_Some. by split.
  - apply newest_None in Hnew. apply map_to_list_empty_iff in Hnew.
    cbn in Hrun. injection Hrun as <-.
    cbn [temporary_metadata token_metadata_history token_metadata
         with_temporary_metadata with_token_metadata with_tokens].
    split; [|split; [|split; [done|]]].
    + intros sid' t' Ht'. rewrite (Hdel db eq_refl). by rewrite Ht'.
    + intros sid' Ht'. rewrite (Hdel db eq_refl). by rewrite Ht'.
    + left. split; [|done]. intros sid t Ht Hm.
      assert (live !! sid = Some t) as Hl
        by (subst live; apply map_lookup_filter_Some; by split).
      rewrite Hnew in Hl. by rewrite lookup_empty in Hl.
Qed.

Lemma insert_token_succeeds e a NEW db :
  tokens db !! a = None → token_metadata db !! a = None →
  ∃ db', Sql.insert_token e a NEW db = (inr tt, db').
Proof.
  intros Hfresh Hnone.
  unfold Sql.insert_token, atomic, bind at 1, Sql.select_token, gets.
  rewrite Hfresh. unfold bind at 1, modify.
  unfold Sql.link_temporary_metadata, bind at 1, gets.
  destruct (Sql.newest _) as [[sid t]|]; [|by eexists].
  unfold bind at 1. unfold bind at 1.
  unfold Sql.insert_token_metadata, atomic, bind at 1, Sql.select_token_metadata, gets.
  cbn [token_metadata with_tokens]. rewrite Hnone.
  unfold bind at 1, Sql.select_token, gets.
  cbn [tokens with_tokens]. rewrite lookup_insert_eq. cbn. by eexists.
Qed.

(** C7. A row inserted into [tokens] fires [link_temporary_metadata]: when
    the new owner has sessions that have not expired, the one created last
    is copied into [token_metadata] under the new contract address with
    [update_count = 1] and no logo; in every case all of the owner's
    unexpired sessions are deleted, copied or not, and every other session
    stays.  No request to the router is involved. *)
Theorem token_insert_links_sessions
    (e : Env) (a : string) (NEW : Token) (db : DB) :
  tokens db !! a = None → token_metadata db !! a = None →
  ∃ db', Sql.insert_token e a NEW db = (inr tt, db')
         ∧ linked_by_trigger e a NEW db db'.
Proof.
  intros Hfresh Hnone.
  destruct (insert_token_succeeds e a NEW db Hfresh Hnone) as [db' Hrun].
  exists db'. split; [done|]. by apply insert_token_effect.
Qed.

Lemma token_insert_links_sessions_witness :
  let e := Scenario.env_at 100 in
  let NEW := {| owner_address := "0xaaa"; network_id := "ethereum" |} in
  (tokens Scenario.drafts !! "0xt9" = None
   ∧ token_metadata Scenario.drafts !! "0xt9" = None)
  ∧ ∃ db', Sql.insert_token e "0xt9" NEW Scenario.drafts = (inr tt, db')
           ∧ linked_by_trigger e "0xt9" NEW Scenario.drafts db'.
Proof.
  intros e NEW. split; [split; vm_compute; reflexivity|].
  apply (token_insert_links_sessions e "0xt9" NEW Scenario.drafts);
    vm_compute; reflexivity.
Defined.

(** On the store [drafts] at time 100: the session created last among the
    two live ones of [0xaaa] is copied, both are deleted, the expired one
    and the one of [0xccc] stay. *)
Example token_insert_on_drafts :
  let e := Scenario.env_at 100 in
  let db' := step e (TokenInserted "0xt9"
                       {| owner_address := "0xaaa"; network_id := "ethereum" |})
               Scenario.drafts in
  (fields <$> token_metadata db' !! "0xt9") = Some Scenario.bar
  ∧ (update_count <$> token_metadata db' !! "0xt9") = Some 1
  ∧ (logo_url <$> token_metadata db' !! "0xt9") = Some None
  ∧ temporary_metadata db' !! "new" = None
  ∧ temporary_metadata db' !! "old" = None
  ∧ temporary_metadata db' !! "gone" = Some (Scenario.session "0xaaa" 5 90)
  ∧ temporary_metadata db' !! "other" = Some (Scenario.session "0xccc" 30 700).
Proof. vm_compute. repeat split; reflexivity. Qed.

(** ** Every UPDATE is audited *)

Lemma update_effect e a SET db :
  effect db (Sql.update_token_metadata e a SET db).2.
Proof.
  destruct (update_cases e a SET db)
    as [[_ Hu]|[(old & new & who & tok & Hold & _ & _ & _ & _ & Hu)
               |(old & err & _ & Hu)]]; rewrite Hu; simpl.
  - by apply NoWrite.
  - by eapply (RowUpdated _ _ _ _ a old (row_after e old new)
                 (Sql.history_entry e a who old)).
  - by apply NoWrite.
Qed.

Lemma insert_effect e a f logo who c db :
  c = 1 → effect db (Sql.insert_token_metadata e a f logo who c db).2.
Proof.
  intros ->.
  unfold Sql.insert_token_metadata, atomic, bind at 1, Sql.select_token_metadata, gets.
  destruct (token_metadata db !! a) eqn:Hnone; [by apply NoWrite|].
  unfold bind at 1, Sql.select_token, gets.
  destruct (tokens db !! a); [|by apply NoWrite].
  cbn. by eapply (RowInserted _ _ _ _ a).
Qed.

(** The statements on [temporary_metadata] and [tokens] do not show in an
    [effect]. *)
Lemma effect_frame db db1 db2 :
  effect db db1 →
  token_metadata db2 = token_metadata db1 →
  token_metadata_history db2 = token_metadata_history db1 →
  effect db db2.
Proof. unfold effect. by intros H -> ->. Qed.

Lemma effect_refl db : effect db db.
Proof. by apply NoWrite. Qed.

Lemma post_temporary_effect e user body db :
  effect db (Router.post_temporary e user body db).2.
Proof.
  unfold Router.post_temporary, Router.handle.
  destruct (sessionId body) as [sid|]; [|apply effect_refl].
  destruct (String.eqb sid ""); [apply effect_refl|].
  unfold bind at 1, Sql.select_temporary, gets.
  destruct (temporary_metadata db !! sid) as [t|] eqn:Ht.
  - unfold bind at 1. rewrite update_temporary_eq, Ht.
    destruct (decide _); by apply NoWrite.
  - unfold bind at 1. rewrite insert_temporary_eq, Ht.
    destruct (decide _); by apply NoWrite.
Qed.

Lemma post_link_effect e user ta sid db :
  effect db (Router.post_link e user ta sid db).2.
Proof.
  unfold Router.post_link, Router.handle.
  destruct ta as [ta|], sid as [sid|]; try apply effect_refl.
  destruct (_ || _); [apply effect_refl|].
  unfold bind at 1, Sql.select_token, gets.
  destruct (tokens db !! _) as [tok|]; [|apply effect_refl].
  destruct (decide _); [apply effect_refl|].
  unfold bind at 1, Sql.select_temporary_of, gets.
  destruct (match temporary_metadata db !! sid with Some _ => _ | None => _ end)
    as [t|]; [|apply effect_refl].
  unfold bind at 1, Sql.select_token_metadata, gets.
  destruct (token_metadata db !! _).
  - unfold bind at 1.
    pose proof (update_effect e (Js.toLowerCase ta)
                  (Router.link_set e t (Router.link_logo e ta (logo_data t))
                     (Js.toLowerCase user)) db) as Hu.
    destruct (Sql.update_token_metadata _ _ _ _) as [[err|row] db1]; [done|].
    cbn. by eapply effect_frame.
  - unfold bind at 1.
    pose proof (insert_effect e (Js.toLowerCase ta) (t_fields t)
                  (Router.link_logo e ta (logo_data t))
                  (Some (Js.toLowerCase user)) 1 db eq_refl) as Hi.
    destruct (Sql.insert_token_metadata _ _ _ _ _ _ _) as [[err|row] db1]; [done|].
    cbn. by eapply effect_frame.
Qed.

Lemma get_history_effect e user ta db :
  effect db (Router.get_history e user ta db).2.
Proof.
  unfold Router.get_history, Router.handle, bind at 1, Sql.select_token, gets.
  destruct (tokens db !! _); [|apply effect_refl].
  destruct (decide _); apply effect_refl.
Qed.

Lemma post_verify_effect e user ta db :
  effect db (Router.post_verify e user ta db).2.
Proof.
  unfold Router.post_verify, Router.handle.
  destruct (decide _); [|apply effect_refl].
  unfold bind.
  pose proof (update_effect e (Js.toLowerCase ta)
                (λ old, inr (Router.set_verified old (now e))) db) as Hu.
  by destruct (Sql.update_token_metadata _ _ _ _) as [[err|[row|]] db1].
Qed.

Lemma post_metadata_effect e user metadata db :
  effect db (Router.post_metadata e user metadata db).2.
Proof.
  unfold Router.post_metadata, Router.handle.
  destruct (tokenAddress metadata) as [ta|]; [|apply effect_refl].
  assert (Hbody : ∀ db0, db0 = db →
            effect db
              (match
                 (let! address := Router.lower_of (Some ta) in
                  let! existingResult := Sql.select_token_metadata address in
                  match existingResult with
                  | Some _ =>
                      Sql.assign (Sql.descriptive_columns (b_fields metadata)) ;;
                      let! result :=
                        Sql.update_token_metadata e address
                          (Router.post_set e metadata (Js.toLowerCase user)) in
                      ret (Ok (Router.metadata_row0 address result))
                  | None =>
                      Sql.assign (Sql.descriptive_columns (b_fields metadata)) ;;
                      let! row :=
                        Sql.insert_token_metadata e address (b_fields metadata)
                          (logoUrl metadata) (Some (Js.toLowerCase user)) 1 in
                      ret (Ok (MetadataRow address row))
                  end) db0
               with
               | (inr r, db') => (r, db')
               | (inl _, db') => (Fail 500 "Failed to save token metadata", db')
               end).2).
  { intros db0 ->. cbn [Router.lower_of].
    unfold bind at 1, ret at 1. unfold bind at 1, Sql.select_token_metadata, gets.
    destruct (token_metadata db !! _).
    - unfold bind at 1, Sql.assign.
      destruct (decide _); [|apply effect_refl]. unfold ret at 1, bind at 1.
      pose proof (update_effect e (Js.toLowerCase ta)
                    (Router.post_set e metadata (Js.toLowerCase user)) db) as Hu.
      by destruct (Sql.update_token_metadata _ _ _ _) as [[err|row] db1].
    - unfold bind at 1, Sql.assign.
      destruct (decide _); [|apply effect_refl]. unfold ret at 1, bind at 1.
      pose proof (insert_effect e (Js.toLowerCase ta) (b_fields metadata)
                    (logoUrl metadata) (Some (Js.toLowerCase user)) 1 db eq_refl) as Hi.
      by destruct (Sql.insert_token_metadata _ _ _ _ _ _ _) as [[err|row] db1]. }
  destruct (Js.truthy (Some ta)).
  - unfold bind at 1. cbn [Router.lower_of].
    unfold bind at 1, ret at 1. unfold bind at 1, Sql.select_token, gets.
    destruct (tokens db !! _); [|apply effect_refl].
    destruct (decide _); [apply effect_refl|].
    unfold ret at 1. by apply Hbody.
  - unfold bind at 1, ret at 1. by apply Hbody.
Qed.

Lemma put_metadata_effect e user ta metadata db :
  effect db (Router.put_metadata e user ta metadata db).2.
Proof.
  unfold Router.put_metadata, Router.handle, bind at 1, Sql.select_token, gets.
  destruct (tokens db !! _); [|apply effect_refl].
  destruct (decide _); [apply effect_refl|].
  unfold bind, Sql.assign.
  destruct (decide _); [|apply effect_refl]. unfold ret.
  pose proof (update_effect e (Js.toLowerCase ta) (Router.put_set e metadata) db) as Hu.
  by destruct (Sql.update_token_metadata _ _ _ _) as [[err|[row|]] db1].
Qed.

Lemma truthy_Some s : s ≠ "" → Js.truthy (Some s) = true.
Proof.
  intros H. unfold Js.truthy. destruct (String.eqb_spec s ""); [done | reflexivity].
Qed.

(** What [POST /upload-logo] does with a token address once the caller
    passed the ownership check. *)
Lemma post_upload_logo_gate_passed e user ta f db tok :
  ta ≠ "" →
  tokens db !! Js.toLowerCase ta = Some tok →
  Js.toLowerCase (owner_address tok) = Js.toLowerCase user →
  Router.post_upload_logo e user (Some ta) (Some f) db
  = let url := Router.store_logo e (Some ta) f in
    match Sql.update_token_metadata e (Js.toLowerCase ta)
            (Router.logo_set e url (Js.toLowerCase user)) db with
    | (inr _, db') => (Ok (LogoUrl url), db')
    | (inl _, db') => (Fail 500 "Failed to upload logo", db')
    end.
Proof.
  intros Hta Htok Hown.
  unfold Router.post_upload_logo, Router.handle.
  rewrite (truthy_Some _ Hta). cbn [Router.lower_of].
  unfold bind at 1. unfold bind at 1, ret at 1. unfold bind at 1, Sql.select_token, gets.
  rewrite Htok. destruct (decide _) as [Hne|_]; [done|].
  unfold bind, ret.
  destruct (Sql.update_token_metadata _ _ _ _) as [[err|row] db']; reflexivity.
Qed.

Lemma post_upload_logo_ok_inv e user ta f db b :
  ta ≠ "" →
  (Router.post_upload_logo e user (Some ta) (Some f) db).1 = Ok b →
  ∃ tok, tokens db !! Js.toLowerCase ta = Some tok
         ∧ Js.toLowerCase (owner_address tok) = Js.toLowerCase user.
Proof.
  intros Hta.
  unfold Router.post_upload_logo, Router.handle.
  rewrite (truthy_Some _ Hta). cbn [Router.lower_of].
  unfold bind at 1. unfold bind at 1, ret at 1. unfold bind at 1, Sql.select_token, gets.
  destruct (tokens db !! Js.toLowerCase ta) as [tok|]; [|done].
  destruct (decide _) as [Hne|Heq]; [done|].
  intros _. exists tok. split; [done|]. by apply dec_stable.
Qed.

Lemma post_upload_logo_effect e user ta file db :
  effect db (Router.post_upload_logo e user ta file db).2.
Proof.
  destruct file as [f|]; [|apply effect_refl].
  destruct ta as [ta|]; [|apply effect_refl].
  destruct (decide (ta = "")) as [->|Hta]; [apply effect_refl|].
  unfold Router.post_upload_logo, Router.handle.
  rewrite (truthy_Some _ Hta). cbn [Router.lower_of].
  unfold bind at 1. unfold bind at 1, ret at 1. unfold bind at 1, Sql.select_token, gets.
  destruct (tokens db !! Js.toLowerCase ta) as [tok|]; [|apply effect_refl].
  destruct (decide _) as [Hne|Heq]; [apply effect_refl|].
  unfold bind, ret.
  pose proof (update_effect e (Js.toLowerCase ta)
                (Router.logo_set e (Router.store_logo e (Some ta) f)
                   (Js.toLowerCase user)) db) as Hu.
  by destruct (Sql.update_token_metadata _ _ _ _) as [[err|row] db'].
Qed.

Lemma respond_effect e r db : effect db (respond e r db).2.
Proof.
  destruct r; simpl.
  - apply post_temporary_effect.
  - apply post_link_effect.
  - apply get_history_effect.
  - apply post_verify_effect.
  - apply effect_refl || (unfold Router.get_metadata, Router.handle, bind,
      Sql.select_token_metadata, gets; destruct (token_metadata db !! _);
      apply effect_refl).
  - apply post_metadata_effect.
  - apply put_metadata_effect.
  - apply post_upload_logo_effect.
Qed.

Lemma insert_token_step_effect e a NEW db :
  effect db (Sql.insert_token e a NEW db).2.
Proof.
  unfold Sql.insert_token, atomic, bind at 1, Sql.select_token, gets.
  destruct (tokens db !! a); [apply effect_refl|].
  unfold bind at 1, modify.
  unfold Sql.link_temporary_metadata, bind at 1, gets.
  destruct (Sql.newest _) as [[sid t]|]; [|cbn; by apply NoWrite].
  unfold bind at 1. unfold bind at 1.
  pose proof (insert_effect e a (t_fields t) None (Some (owner_address NEW)) 1
                (with_tokens (<[a:=NEW]> (tokens db)) db) eq_refl) as Hi.
  destruct (Sql.insert_token_metadata _ _ _ _ _ _ _) as [[err|row] db1];
    [apply effect_refl|].
  cbn. exact Hi.
Qed.

Lemma step_effect e ev db : effect db (step e ev db).
Proof.
  destruct ev; simpl.
  - apply respond_effect.
  - apply insert_token_step_effect.
  - by apply NoWrite.
Qed.

Lemma history_count_eq a db db' :
  token_metadata_history db' = token_metadata_history db →
  history_count a db' = history_count a db.
Proof. unfold history_count. by intros ->. Qed.

Lemma history_count_app a db db' h :
  token_metadata_history db' = token_metadata_history db ++ [h] →
  history_count a db'
  = history_count a db + (if decide (h_token_address h = a) then 1 else 0).
Proof.
  unfold history_count. intros ->.
  rewrite filter_app, length_app, (filter_cons _ h), filter_nil.
  destruct (decide (h_token_address h = a)); cbn [List.length]; lia.
Qed.

(** An existing record across one [effect]: the counter does not go down,
    and it moves by the number of history rows added for the token. *)
Lemma effect_audit db db' a r0 :
  effect db db' →
  token_metadata db !! a = Some r0 →
  ∃ r, token_metadata db' !! a = Some r
       ∧ update_count r0 ≤ update_count r
       ∧ history_count a db' - history_count a db = update_count r - update_count r0.
Proof.
  intros [Htm Hh | k old new h Hold Htm Hc Hh Hk Hp | k new Hnone Htm Hc Hh] Ha.
  - exists r0. rewrite Htm, (history_count_eq a db db' Hh). repeat split; [done|lia..].
  - rewrite (history_count_app a db db' h Hh), Htm.
    destruct (decide (k = a)) as [->|Hne].
    + exists new. rewrite lookup_insert_eq.
      rewrite Ha in Hold. injection Hold as <-.
      destruct (decide _) as [_|Hn]; [|done]. repeat split; lia.
    + exists r0. rewrite lookup_insert_ne by done.
      destruct (decide _) as [Hy|_]; [congruence|]. repeat split; [done|lia..].
  - exists r0. rewrite Htm, (history_count_eq a db db' Hh).
    rewrite lookup_insert_ne by congruence. repeat split; [done|lia..].
Qed.

(** A record that appears during one [effect] comes with no history row. *)
Lemma effect_creation db db' a r :
  effect db db' →
  token_metadata db !! a = None →
  token_metadata db' !! a = Some r →
  history_count a db' = history_count a db ∧ update_count r = 1.
Proof.
  intros [Htm Hh | k old new h Hold Htm Hc Hh Hk Hp | k new Hnone Htm Hc Hh] Ha Ha'.
  - rewrite Htm in Ha'. congruence.
  - rewrite Htm in Ha'. rewrite lookup_insert_ne in Ha' by congruence. congruence.
  - rewrite Htm in Ha'. destruct (decide (k = a)) as [->|Hne].
    + rewrite lookup_insert_eq in Ha'. injection Ha' as <-.
      split; [by apply history_count_eq | done].
    + rewrite lookup_insert_ne in Ha' by done. congruence.
Qed.

Lemma run_audit trace : ∀ db a r0,
  token_metadata db !! a = Some r0 →
  ∃ r, token_metadata (run trace db) !! a = Some r
       ∧ update_count r0 ≤ update_count r
       ∧ history_count a (run trace db) - history_count a db
         = update_count r - update_count r0.
Proof.
  induction trace as [|[e ev] rest IH]; intros db a r0 Ha; simpl.
  - exists r0. repeat split; [done|lia..].
  - destruct (effect_audit db (step e ev db) a r0 (step_effect e ev db) Ha)
      as (r1 & H1 & Hle1 & Hc1).
    destruct (IH (step e ev db) a r1 H1) as (r & Hr & Hle & Hc).
    exists r. repeat split; [done|lia..].
Qed.

(** What [POST /:tokenAddress/verify] does for an admin. *)
Lemma post_verify_admin e user ta db :
  Js.toLowerCase user
    ∈ map Js.toLowerCase (Js.split "," (Js.or_else (process_env e "ADMIN_ADDRESSES") "")) →
  Router.post_verify e user ta db
  = match Sql.update_token_metadata e (Js.toLowerCase ta)
            (λ old, inr (Router.set_verified old (now e))) db with
    | (inr (Some row), db') => (Ok (MetadataRow (Js.toLowerCase ta) row), db')
    | (inr None, db') => (Fail 404 "Token metadata not found", db')
    | (inl _, db') => (Fail 500 "Failed to verify metadata", db')
    end.
Proof.
  intros Hadmin. unfold Router.post_verify, Router.handle.
  destruct (decide _) as [_|Hn]; [|done].
  unfold bind.
  by destruct (Sql.update_token_metadata _ _ _ _) as [[err|[row|]] db'].
Qed.

Lemma post_verify_ok_inv e user ta db b :
  (Router.post_verify e user ta db).1 = Ok b →
  Js.toLowerCase user
    ∈ map Js.toLowerCase (Js.split "," (Js.or_else (process_env e "ADMIN_ADDRESSES") "")).
Proof.
  unfold Router.post_verify, Router.handle.
  by destruct (decide _) as [H|H].
Qed.

(** An UPDATE that returned a row: the row it matched, the counter and the
    history entry. *)
Lemma update_returned_row e a SET db row db' :
  Sql.update_token_metadata e a SET db = (inr (Some row), db') →
  ∃ old new h,
    token_metadata db !! a = Some old
    ∧ SET old = inr new
    ∧ row = row_after e old new
    ∧ token_metadata db' = <[a := row]> (token_metadata db)
    ∧ update_count row = update_count old + 1
    ∧ token_metadata_history db' = token_metadata_history db ++ [h]
    ∧ h_token_address h = a
    ∧ previous_data h = old.
Proof.
  intros Hrun.
  destruct (update_cases e a SET db)
    as [[_ Hu]|[(old & new & who & tok & Hold & Hset & _ & _ & _ & Hu)
               |(old & err & _ & Hu)]]; rewrite Hu in Hrun; try discriminate.
  injection Hrun as <- <-.
  exists old, new, (Sql.history_entry e a who old). by repeat split.
Qed.

Lemma effect_audited db db' : effect db db' → audited db → audited db'.
Proof.
  intros [Htm Hh | k old new h Hold Htm Hc Hh Hk Hp | k new Hnone Htm Hc Hh] Hinv a;
    specialize (Hinv a).
  - by rewrite Htm, (history_count_eq a db db' Hh).
  - rewrite (history_count_app a db db' h Hh), Htm.
    destruct (decide (k = a)) as [->|Hne].
    + rewrite lookup_insert_eq. rewrite Hold in Hinv.
      destruct (decide _) as [_|Hn]; [lia | done].
    + rewrite lookup_insert_ne by done.
      destruct (decide _) as [Hy|_]; [congruence | lia].
  - rewrite (history_count_eq a db db' Hh), Htm.
    destruct (decide (k = a)) as [->|Hne].
    + rewrite lookup_insert_eq. rewrite Hnone in Hinv. lia.
    + by rewrite lookup_insert_ne.
Qed.

Lemma run_audited trace : ∀ db, audited db → audited (run trace db).
Proof.
  induction trace as [|[e ev] rest IH]; intros db Hinv; simpl; [done|].
  apply IH. exact (effect_audited db (step e ev db) (step_effect e ev db) Hinv).
Qed.

Lemma audited_blank db :
  token_metadata db = ∅ → token_metadata_history db = [] → audited db.
Proof.
  intros Htm Hh a. unfold history_count. by rewrite Htm, Hh, lookup_empty.
Qed.

(** C8. Every UPDATE of a [token_metadata] row that goes through, whatever
    its SET clause, appends exactly one history row holding the prior row
    and raises [update_count] by exactly one; this covers the UPDATE of
    Verify and the one of UploadLogo.  Hence, along any sequence of
    requests, token insertions and sweeps, the [update_count] of a record
    never goes down and moves by exactly the number of history rows added
    for its token; and the step that creates a record adds no history row
    and sets the counter to 1.  So, from a store with no record and no
    history, the history rows of a token always number [update_count]
    minus 1, its value at creation. *)
Theorem every_update_is_audited :
  (∀ e a SET db row db',
     Sql.update_token_metadata e a SET db = (inr (Some row), db') →
     ∃ old h,
       token_metadata db !! a = Some old
       ∧ token_metadata db' = <[a := row]> (token_metadata db)
       ∧ update_count row = update_count old + 1
       ∧ token_metadata_history db' = token_metadata_history db ++ [h]
       ∧ h_token_address h = a
       ∧ previous_data h = old)
  ∧ (∀ e user ta db b,
       (Router.post_verify e user ta db).1 = Ok b →
       ∃ old row h,
         token_metadata db !! Js.toLowerCase ta = Some old
         ∧ b = MetadataRow (Js.toLowerCase ta) row
         ∧ verified row = true
         ∧ update_count row = update_count old + 1
         ∧ token_metadata_history (Router.post_verify e user ta db).2
           = token_metadata_history db ++ [h]
         ∧ h_token_address h = Js.toLowerCase ta
         ∧ previous_data h = old)
  ∧ (∀ e user ta f db b old,
       ta ≠ "" →
       (Router.post_upload_logo e user (Some ta) (Some f) db).1 = Ok b →
       token_metadata db !! Js.toLowerCase ta = Some old →
       ∃ row h,
         token_metadata (Router.post_upload_logo e user (Some ta) (Some f) db).2
           !! Js.toLowerCase ta = Some row
         ∧ b = LogoUrl (Router.store_logo e (Some ta) f)
         ∧ logo_url row = Some (Router.store_logo e (Some ta) f)
         ∧ update_count row = update_count old + 1
         ∧ token_metadata_history
             (Router.post_upload_logo e user (Some ta) (Some f) db).2
           = token_metadata_history db ++ [h]
         ∧ h_token_address h = Js.toLowerCase ta
         ∧ previous_data h = old)
  ∧ (∀ trace db a r0,
       token_metadata db !! a = Some r0 →
       ∃ r, token_metadata (run trace db) !! a = Some r
            ∧ update_count r0 ≤ update_count r
            ∧ history_count a (run trace db) - history_count a db
              = update_count r - update_count r0)
  ∧ (∀ e ev db a r,
       token_metadata db !! a = None →
       token_metadata (step e ev db) !! a = Some r →
       history_count a (step e ev db) = history_count a db
       ∧ update_count r = 1)
  ∧ (∀ trace db a r,
       token_metadata db = ∅ → token_metadata_history db = [] →
       token_metadata (run trace db) !! a = Some r →
       history_count a (run trace db) = update_count r - 1).
Proof.
  split; [|split; [|split; [|split; [|split]]]].
  - intros e a SET db row db' Hrun.
    destruct (update_returned_row _ _ _ _ _ _ Hrun)
      as (old & new & h & Hold & _ & _ & Htm & Hc & Hh & Hk & Hp).
    by exists old, h.
  - intros e user ta db b Hok.
    pose proof (post_verify_ok_inv _ _ _ _ _ Hok) as Hadmin.
    rewrite (post_verify_admin _ _ _ _ Hadmin) in Hok |- *.
    destruct (Sql.update_token_metadata _ _ _ _) as [[err|[row|]] db'] eqn:Hrun;
      simpl in Hok; try discriminate.
    injection Hok as <-.
    destruct (update_returned_row _ _ _ _ _ _ Hrun)
      as (old & new & h & Hold & Hset & Hrow & Htm & Hc & Hh & Hk & Hp).
    exists old, row, h. repeat split; try done.
    injection Hset as <-. by rewrite Hrow.
  - intros e user ta f db b old Hta Hok Hold.
    destruct (post_upload_logo_ok_inv _ _ _ _ _ _ Hta Hok) as (tok & Htok & Hown).
    rewrite (post_upload_logo_gate_passed _ _ _ _ _ _ Hta Htok Hown) in Hok |- *.
    cbv zeta in Hok |- *.
    destruct (update_cases e (Js.toLowerCase ta)
                (Router.logo_set e (Router.store_logo e (Some ta) f)
                   (Js.toLowerCase user)) db)
      as [[Hnone _]|[(old' & new & who & tok' & Hold' & Hset & _ & _ & _ & Hu)
                    |(old' & err & _ & Hu)]].
    + congruence.
    + rewrite Hu in Hok |- *. simpl in Hok |- *. injection Hok as <-.
      rewrite Hold in Hold'. injection Hold' as <-.
      injection Hset as <-.
      eexists _, _. rewrite lookup_insert_eq. by repeat split.
    + rewrite Hu in Hok. discriminate.
  - apply run_audit.
  - intros e ev db a r Hnone Hsome.
    exact (effect_creation db (step e ev db) a r (step_effect e ev db) Hnone Hsome).
  - intros trace db a r Htm Hh Hr.
    pose proof (run_audited trace db (audited_blank db Htm Hh) a) as Hinv.
    by rewrite Hr in Hinv.
Qed.

Lemma every_update_is_audited_witness :
  let db := Scenario.published in
  let verify := Router.post_verify (Scenario.admin_env 100) "0xAdmin" "0xToken1" db in
  let upload := Router.post_upload_logo (Scenario.env_at 300) "0xAAA"
                  (Some "0xToken1") (Some Scenario.logo_file) db in
  let link := step (Scenario.env_at 100)
                (Http (PostLink "0xAAA" (Some "0xToken1") (Some "s1")))
                Scenario.staged in
  (∃ old row h,
     token_metadata db !! Js.toLowerCase "0xToken1" = Some old
     ∧ MetadataRow "0xtoken1" (row_after (Scenario.admin_env 100)
                                 (Scenario.record (Some "0xaaa") 1)
                                 (Router.set_verified (Scenario.record (Some "0xaaa") 1) 100))
       = MetadataRow (Js.toLowerCase "0xToken1") row
     ∧ verified row = true
     ∧ update_count row = update_count old + 1
     ∧ token_metadata_history verify.2 = token_metadata_history db ++ [h]
     ∧ h_token_address h = Js.toLowerCase "0xToken1"
     ∧ previous_data h = old)
  ∧ (∃ row h,
       token_metadata upload.2 !! Js.toLowerCase "0xToken1" = Some row
       ∧ LogoUrl "http://localhost:3001/uploads/logo-1-2.png"
         = LogoUrl (Router.store_logo (Scenario.env_at 300) (Some "0xToken1")
                      Scenario.logo_file)
       ∧ logo_url row
         = Some (Router.store_logo (Scenario.env_at 300) (Some "0xToken1")
                   Scenario.logo_file)
       ∧ update_count row = update_count (Scenario.record (Some "0xaaa") 1) + 1
       ∧ token_metadata_history upload.2 = token_metadata_history db ++ [h]
       ∧ h_token_address h = Js.toLowerCase "0xToken1"
       ∧ previous_data h = Scenario.record (Some "0xaaa") 1)
  ∧ (∃ r, token_metadata (run Scenario.busy_day db) !! "0xtoken1" = Some r
          ∧ update_count (Scenario.record (Some "0xaaa") 1) ≤ update_count r
          ∧ history_count "0xtoken1" (run Scenario.busy_day db)
            - history_count "0xtoken1" db
            = update_count r - update_count (Scenario.record (Some "0xaaa") 1))
  ∧ (history_count "0xtoken1" link = history_count "0xtoken1" Scenario.staged
     ∧ update_count
         {| fields := Scenario.foo; logo_url := None; created_at := 100;
            updated_at := 100; last_updated_by := Some "0xaaa";
            update_count := 1; verified := false |} = 1)
  ∧ history_count "0xtoken1" (run Scenario.launch Scenario.empty_db)
    = update_count
        {| fields := Scenario.bar; logo_url := None; created_at := 20;
           updated_at := 40; last_updated_by := Some "0xaaa";
           update_count := 3; verified := true |} - 1.
Proof.
  intros db verify upload link.
  destruct every_update_is_audited
    as (_ & Hverify & Hupload & Hrun & Hcreate & Hlaunch).
  split; [|split; [|split; [|split]]].
  - apply (Hverify (Scenario.admin_env 100) "0xAdmin" "0xToken1" db).
    vm_compute. reflexivity.
  - apply (Hupload (Scenario.env_at 300) "0xAAA" "0xToken1" Scenario.logo_file db).
    + discriminate.
    + vm_compute. reflexivity.
    + vm_compute. reflexivity.
  - apply (Hrun Scenario.busy_day db "0xtoken1"). vm_compute. reflexivity.
  - eapply (Hcreate (Scenario.env_at 100)
              (Http (PostLink "0xAAA" (Some "0xToken1") (Some "s1")))
              Scenario.staged "0xtoken1").
    + vm_compute. reflexivity.
    + vm_compute. reflexivity.
  - apply (Hlaunch Scenario.launch Scenario.empty_db "0xtoken1");
      vm_compute; reflexivity.
Defined.

(** After [launch] the record of [0xtoken1] has counter 3 and two history
    rows. *)
Example launch_counts :
  let db' := run Scenario.launch Scenario.empty_db in
  (update_count <$> token_metadata db' !! "0xtoken1") = Some 3
  ∧ (verified <$> token_metadata db' !! "0xtoken1") = Some true
  ∧ history_count "0xtoken1" db' = 2.
Proof. vm_compute. repeat split; reflexivity. Qed.

(** After [busy_day] the record of [0xtoken1], created with counter 1, has
    counter 4 and three history rows. *)
Example busy_day_counts :
  let db' := run Scenario.busy_day Scenario.published in
  (update_count <$> token_metadata db' !! "0xtoken1") = Some 4
  ∧ history_count "0xtoken1" db' = 3
  ∧ (update_count ∘ previous_data <$> token_metadata_history db') = [1; 2; 3].
Proof. vm_compute. repeat split; reflexivity. Qed.

(** ** UploadLogo and the record *)

(** C9, as stated, fails: the token [0xtoken1] exists and belongs to the
    caller, but has no metadata record yet.  The UPDATE matches no row, the
    handler does not look at its result, and the response is a 200 with the
    URL while nothing was persisted. *)
Lemma upload_logo_success_without_record :
  ¬ logo_persisted_on_success (Scenario.env_at 100) "0xAAA" "0xToken1"
      Scenario.logo_file Scenario.staged.
Proof.
  intros H.
  destruct (H "http://localhost:3001/uploads/logo-1-2.png") as (row & Hrow & _).
  - vm_compute. reflexivity.
  - vm_compute in Hrow. discriminate.
Qed.

(** C9, amended. For UploadLogo with a token address: a success carries the
    URL of the stored asset; if the token has a metadata record, that URL
    is on the record afterwards (with the caller as [last_updated_by]); if
    it has none, the store is unchanged.  If the UPDATE raises, the
    response is the 500 of the handler and the store is unchanged.  And
    the recorded owner does get a success: without a record the answer is
    the 200 with the URL and the store as it was, and with a record whose
    counter can still go up the answer is the 200 with the URL. *)
Theorem upload_logo_persists_on_existing_record
    (e : Env) (user ta : string) (f : UploadedFile) (db : DB) :
  ta ≠ "" →
  let res := Router.post_upload_logo e user (Some ta) (Some f) db in
  let url := Router.store_logo e (Some ta) f in
  (∀ b, res.1 = Ok b →
        b = LogoUrl url
        ∧ match token_metadata db !! Js.toLowerCase ta with
          | Some old =>
              ∃ row, token_metadata res.2 !! Js.toLowerCase ta = Some row
                     ∧ logo_url row = Some url
                     ∧ last_updated_by row = Some (Js.toLowerCase user)
                     ∧ fields row = fields old
          | None => res.2 = db
          end)
  ∧ (∀ err db1,
       is_owner db user (Some ta) = true →
       Sql.update_token_metadata e (Js.toLowerCase ta)
         (Router.logo_set e url (Js.toLowerCase user)) db = (inl err, db1) →
       res = (Fail 500 "Failed to upload logo", db))
  ∧ (is_owner db user (Some ta) = true →
     token_metadata db !! Js.toLowerCase ta = None →
     res = (Ok (LogoUrl url), db))
  ∧ (∀ old,
       is_owner db user (Some ta) = true →
       token_metadata db !! Js.toLowerCase ta = Some old →
       Sql.INT4_MIN ≤ update_count old + 1 ≤ Sql.INT4_MAX →
       res.1 = Ok (LogoUrl url)).
Proof.
  intros Hta res url. subst res url. split; [|split; [|split]].
  - intros b Hok.
    destruct (post_upload_logo_ok_inv _ _ _ _ _ _ Hta Hok) as (tok & Htok & Hown).
    rewrite (post_upload_logo_gate_passed _ _ _ _ _ _ Hta Htok Hown) in Hok |- *.
    cbv zeta in Hok |- *.
    destruct (update_cases e (Js.toLowerCase ta)
                (Router.logo_set e (Router.store_logo e (Some ta) f)
                   (Js.toLowerCase user)) db)
      as [[Hnone Hu]|[(old & new & who & tok' & Hold & Hset & _ & _ & _ & Hu)
                     |(old & err & _ & Hu)]];
      rewrite Hu in Hok |- *; simpl in Hok |- *; try discriminate.
    + injection Hok as <-. by rewrite Hnone.
    + injection Hok as <-. rewrite Hold. split; [done|].
      injection Hset as <-.
      eexists. rewrite lookup_insert_eq. by repeat split.
  - intros err db1 Hown Hu. simpl in Hown.
    destruct (tokens db !! Js.toLowerCase ta) as [tok|] eqn:Htok; [|done].
    apply bool_decide_eq_true in Hown.
    rewrite (post_upload_logo_gate_passed _ _ _ _ _ _ Hta Htok Hown).
    cbv zeta. rewrite Hu.
    destruct (update_cases e (Js.toLowerCase ta)
                (Router.logo_set e (Router.store_logo e (Some ta) f)
                   (Js.toLowerCase user)) db)
      as [[_ Hu']|[(old & new & who & tok' & _ & _ & _ & _ & _ & Hu')
                  |(old & err' & _ & Hu')]];
      rewrite Hu' in Hu; try discriminate.
    by injection Hu as _ <-.
  - intros Hown Hnone. simpl in Hown.
    destruct (tokens db !! Js.toLowerCase ta) as [tok|] eqn:Htok; [|done].
    apply bool_decide_eq_true in Hown.
    rewrite (post_upload_logo_gate_passed _ _ _ _ _ _ Hta Htok Hown).
    cbv zeta. by rewrite update_no_row.
  - intros old Hown Hold Hrange. simpl in Hown.
    destruct (tokens db !! Js.toLowerCase ta) as [tok|] eqn:Htok; [|done].
    apply bool_decide_eq_true in Hown.
    rewrite (post_upload_logo_gate_passed _ _ _ _ _ _ Hta Htok Hown).
    cbv zeta.
    by rewrite (update_row e (Js.toLowerCase ta)
                  (Router.logo_set e (Router.store_logo e (Some ta) f)
                     (Js.toLowerCase user))
                  db old _ (Js.toLowerCase user) tok Hold eq_refl eq_refl Htok Hrange).
Qed.

Lemma upload_logo_persists_on_existing_record_witness :
  let e := Scenario.env_at 300 in
  let url := Router.store_logo e (Some "0xToken1") Scenario.logo_file in
  ("0xToken1" ≠ ""
   ∧ is_owner Scenario.saturated "0xAAA" (Some "0xToken1") = true
   ∧ Sql.update_token_metadata e (Js.toLowerCase "0xToken1")
       (Router.logo_set e url (Js.toLowerCase "0xAAA")) Scenario.saturated
     = (inl "integer out of range", Scenario.saturated)
   ∧ is_owner Scenario.staged "0xAAA" (Some "0xToken1") = true
   ∧ token_metadata Scenario.staged !! Js.toLowerCase "0xToken1" = None)
  ∧ (let res := Router.post_upload_logo e "0xAAA" (Some "0xToken1")
                  (Some Scenario.logo_file) Scenario.published in
     LogoUrl "http://localhost:3001/uploads/logo-1-2.png" = LogoUrl url
     ∧ match token_metadata Scenario.published !! Js.toLowerCase "0xToken1" with
       | Some old =>
           ∃ row, token_metadata res.2 !! Js.toLowerCase "0xToken1" = Some row
                  ∧ logo_url row = Some url
                  ∧ last_updated_by row = Some (Js.toLowerCase "0xAAA")
                  ∧ fields row = fields old
       | None => res.2 = Scenario.published
       end)
  ∧ Router.post_upload_logo e "0xAAA" (Some "0xToken1")
      (Some Scenario.logo_file) Scenario.saturated
    = (Fail 500 "Failed to upload logo", Scenario.saturated)
  ∧ Router.post_upload_logo e "0xAAA" (Some "0xToken1")
      (Some Scenario.logo_file) Scenario.staged
    = (Ok (LogoUrl url), Scenario.staged)
  ∧ (Router.post_upload_logo e "0xAAA" (Some "0xToken1")
       (Some Scenario.logo_file) Scenario.published).1
    = Ok (LogoUrl url).
Proof.
  intros e url.
  split; [split; [discriminate | repeat split; vm_compute; reflexivity]|].
  pose proof (λ db, upload_logo_persists_on_existing_record e "0xAAA" "0xToken1"
                      Scenario.logo_file db ltac:(discriminate)) as H.
  cbv zeta in H.
  split; [|split; [|split]].
  - apply (proj1 (H Scenario.published)). vm_compute. reflexivity.
  - eapply (proj1 (proj2 (H Scenario.saturated))); vm_compute; reflexivity.
  - apply (proj1 (proj2 (proj2 (H Scenario.staged)))); vm_compute; reflexivity.
  - apply (proj2 (proj2 (proj2 (H Scenario.published)))
             (Scenario.record (Some "0xaaa") 1));
      [vm_compute; reflexivity | vm_compute; reflexivity |].
    split; vm_compute; discriminate.
Defined.

(** ** The ownership check *)

(** C1, as stated, fails.  [tokens] records [0xAAA] as the owner of
    [0xtoken1] while [owner()] on chain answers [0xBBB]:
    [verifyTokenOwnership] denies [0xAAA], yet the Update of [0xAAA] is let
    through. *)
Lemma ownership_not_decided_on_chain :
  ¬ decided_on_chain (Scenario.env_at 100)
      (PutMetadata "0xAAA" "0xToken1" Scenario.update_body) Scenario.published.
Proof.
  intros H. specialize (H "0xAAA" "0xToken1" eq_refl).
  vm_compute in H. discriminate.
Qed.

(** The chain and the record disagree in both directions on that store. *)
Example chain_owner_is_turned_away :
  Router.verifyTokenOwnership (Scenario.env_at 100) "0xToken1" "0xBBB"
    Scenario.published = true
  ∧ Router.put_metadata (Scenario.env_at 100) "0xBBB" "0xToken1" Scenario.update_body
      Scenario.published
    = (Fail 403 "Only the token owner can update metadata", Scenario.published).
Proof. vm_compute. split; reflexivity. Qed.

Lemma respond_ignores_chain c e r db :
  respond (with_chain_owner c e) r db = respond e r db.
Proof. destruct r; reflexivity. Qed.

Lemma gate_unknown_token e r db user ta :
  gate_subject r = Some (user, ta) →
  tokens db !! Js.toLowerCase ta = None →
  respond e r db = (Fail 404 "Token not found", db).
Proof.
  intros Hg Hnone. destruct r as [u body|u ta' sid'|u ta'|u ta'|ta'|u metadata|u ta' metadata|u ta' file];
    simpl in Hg; try discriminate.
  - destruct ta' as [ta'|], sid' as [sid|]; try discriminate.
    destruct (_ || _) eqn:Hempty; [discriminate|]. injection Hg as <- <-.
    simpl. unfold Router.post_link, Router.handle. rewrite Hempty.
    unfold bind, Sql.select_token, gets. by rewrite Hnone.
  - injection Hg as <- <-. simpl.
    unfold Router.get_history, Router.handle, bind, Sql.select_token, gets.
    by rewrite Hnone.
  - destruct (tokenAddress metadata) as [ta'|] eqn:Hta; [|discriminate].
    destruct (String.eqb_spec ta' ""); [discriminate|]. injection Hg as <- <-.
    simpl. unfold Router.post_metadata, Router.handle. rewrite Hta.
    rewrite truthy_Some by done. cbn [Router.lower_of].
    unfold bind, ret, Sql.select_token, gets. by rewrite Hnone.
  - injection Hg as <- <-. simpl.
    unfold Router.put_metadata, Router.handle, bind, Sql.select_token, gets.
    by rewrite Hnone.
  - destruct ta' as [ta'|]; [|discriminate].
    destruct file as [f|]; [|discriminate].
    destruct (String.eqb_spec ta' "") as [|Hta']; [discriminate|]. injection Hg as <- <-.
    simpl. unfold Router.post_upload_logo, Router.handle.
    rewrite truthy_Some by done. cbn [Router.lower_of].
    unfold bind, ret, Sql.select_token, gets. by rewrite Hnone.
Qed.

Lemma gate_other_owner e r db user ta tok :
  gate_subject r = Some (user, ta) →
  tokens db !! Js.toLowerCase ta = Some tok →
  Js.toLowerCase (owner_address tok) ≠ Js.toLowerCase user →
  ∃ msg, respond e r db = (Fail 403 msg, db).
Proof.
  intros Hg Htok Hne. destruct r as [u body|u ta' sid'|u ta'|u ta'|ta'|u metadata|u ta' metadata|u ta' file];
    simpl in Hg; try discriminate.
  - destruct ta' as [ta'|], sid' as [sid|]; try discriminate.
    destruct (_ || _) eqn:Hempty; [discriminate|]. injection Hg as <- <-.
    simpl. unfold Router.post_link, Router.handle. rewrite Hempty.
    unfold bind, Sql.select_token, gets. rewrite Htok.
    destruct (decide _); [by eexists | done].
  - injection Hg as <- <-. simpl.
    unfold Router.get_history, Router.handle, bind, Sql.select_token, gets.
    rewrite Htok. destruct (decide _); [by eexists | done].
  - destruct (tokenAddress metadata) as [ta'|] eqn:Hta; [|discriminate].
    destruct (String.eqb_spec ta' ""); [discriminate|]. injection Hg as <- <-.
    simpl. unfold Router.post_metadata, Router.handle. rewrite Hta.
    rewrite truthy_Some by done. cbn [Router.lower_of].
    unfold bind, ret, Sql.select_token, gets. rewrite Htok.
    destruct (decide _); [by eexists | done].
  - injection Hg as <- <-. simpl.
    unfold Router.put_metadata, Router.handle, bind, Sql.select_token, gets.
    rewrite Htok. destruct (decide _); [by eexists | done].
  - destruct ta' as [ta'|]; [|discriminate].
    destruct file as [f|]; [|discriminate].
    destruct (String.eqb_spec ta' "") as [|Hta']; [discriminate|]. injection Hg as <- <-.
    simpl. unfold Router.post_upload_logo, Router.handle.
    rewrite truthy_Some by done. cbn [Router.lower_of].
    unfold bind, ret, Sql.select_token, gets. rewrite Htok.
    destruct (decide _); [by eexists | done].
Qed.

Lemma gate_recorded_owner e r db user ta tok :
  gate_subject r = Some (user, ta) →
  tokens db !! Js.toLowerCase ta = Some tok →
  Js.toLowerCase (owner_address tok) = Js.toLowerCase user →
  refused (respond e r db).1 = false.
Proof.
  intros Hg Htok Hown. destruct r as [u body|u ta' sid'|u ta'|u ta'|ta'|u metadata|u ta' metadata|u ta' file];
    simpl in Hg; try discriminate.
  - destruct ta' as [ta'|], sid' as [sid|]; try discriminate.
    destruct (_ || _) eqn:Hempty; [discriminate|]. injection Hg as <- <-.
    simpl. unfold Router.post_link, Router.handle. rewrite Hempty.
    unfold bind at 1, Sql.select_token, gets. rewrite Htok.
    destruct (decide _); [done|].
    unfold bind at 1, Sql.select_temporary_of, gets.
    destruct (match temporary_metadata db !! sid with Some _ => _ | None => _ end)
      as [t|]; [|reflexivity].
    unfold bind at 1, Sql.select_token_metadata, gets.
    destruct (token_metadata db !! _).
    + unfold bind at 1.
      destruct (Sql.update_token_metadata _ _ _ _) as [[err|row] db1]; reflexivity.
    + unfold bind at 1.
      destruct (Sql.insert_token_metadata _ _ _ _ _ _ _) as [[err|row] db1]; reflexivity.
  - injection Hg as <- <-. simpl.
    unfold Router.get_history, Router.handle, bind, Sql.select_token, gets.
    rewrite Htok. destruct (decide _); [done | reflexivity].
  - destruct (tokenAddress metadata) as [ta'|] eqn:Hta; [|discriminate].
    destruct (String.eqb_spec ta' ""); [discriminate|]. injection Hg as <- <-.
    simpl. unfold Router.post_metadata, Router.handle. rewrite Hta.
    rewrite truthy_Some by done. cbn [Router.lower_of].
    unfold bind at 1. unfold bind at 1, ret at 1.
    unfold bind at 1, Sql.select_token, gets. rewrite Htok.
    destruct (decide _); [done|].
    unfold ret at 1. unfold bind at 1, ret at 1.
    unfold bind at 1, Sql.select_token_metadata, gets.
    destruct (token_metadata db !! _).
    + unfold bind at 1, Sql.assign.
      destruct (decide _); [|reflexivity]. unfold ret at 1, bind at 1.
      destruct (Sql.update_token_metadata _ _ _ _) as [[err|row] db1]; reflexivity.
    + unfold bind at 1, Sql.assign.
      destruct (decide _); [|reflexivity]. unfold ret at 1, bind at 1.
      destruct (Sql.insert_token_metadata _ _ _ _ _ _ _) as [[err|row] db1]; reflexivity.
  - injection Hg as <- <-. simpl.
    rewrite (put_metadata_gate_passed _ _ _ _ _ _ Htok Hown).
    destruct (decide _); [|reflexivity].
    destruct (Sql.update_token_metadata _ _ _ _) as [[err|[row|]] db1]; reflexivity.
  - destruct ta' as [ta'|]; [|discriminate].
    destruct file as [f|]; [|discriminate].
    destruct (String.eqb_spec ta' "") as [|Hta']; [discriminate|]. injection Hg as <- <-.
    simpl. rewrite (post_upload_logo_gate_passed _ _ _ _ _ _ Hta' Htok Hown).
    cbv zeta.
    destruct (Sql.update_token_metadata _ _ _ _) as [[err|row] db1]; reflexivity.
Qed.

(** C1, amended. For Create and UploadLogo with a token address, Update,
    LinkSession and GetHistory, the ownership check reads the owner that the
    [tokens] table holds when the request runs and compares it, lowered,
    with the lowered caller address: the caller is turned away exactly when
    the table has no such token or names another owner, and then the store
    is unchanged.  The answer of a request does not depend on what
    [owner()] returns on chain. *)
Theorem ownership_decided_on_record
    (e : Env) (r : Request) (db : DB) (user ta : string) :
  gate_subject r = Some (user, ta) →
  refused (respond e r db).1 = negb (is_owner db user (Some ta))
  ∧ (is_owner db user (Some ta) = false → (respond e r db).2 = db)
  ∧ (∀ c, respond (with_chain_owner c e) r db = respond e r db).
Proof.
  intros Hg. split; [|split]; [| |intros c; apply respond_ignores_chain].
  - unfold is_owner.
    destruct (tokens db !! Js.toLowerCase ta) as [tok|] eqn:Htok.
    + destruct (decide (Js.toLowerCase (owner_address tok) = Js.toLowerCase user))
        as [Hown|Hne].
      * rewrite (gate_recorded_owner e r db user ta tok Hg Htok Hown).
        by rewrite bool_decide_true.
      * destruct (gate_other_owner e r db user ta tok Hg Htok Hne) as [msg ->].
        by rewrite bool_decide_false.
    + by rewrite (gate_unknown_token e r db user ta Hg Htok).
  - unfold is_owner.
    destruct (tokens db !! Js.toLowerCase ta) as [tok|] eqn:Htok.
    + intros Hne%bool_decide_eq_false.
      by destruct (gate_other_owner e r db user ta tok Hg Htok Hne) as [msg ->].
    + intros _. by rewrite (gate_unknown_token e r db user ta Hg Htok).
Qed.

Lemma ownership_decided_on_record_witness :
  let e := Scenario.env_at 100 in
  let r := PutMetadata "0xAAA" "0xToken1" Scenario.update_body in
  gate_subject r = Some ("0xAAA", "0xToken1")
  ∧ refused (respond e r Scenario.published).1
    = negb (is_owner Scenario.published "0xAAA" (Some "0xToken1"))
  ∧ (is_owner Scenario.published "0xAAA" (Some "0xToken1") = false →
     (respond e r Scenario.published).2 = Scenario.published)
  ∧ (∀ c, respond (with_chain_owner c e) r Scenario.published
          = respond e r Scenario.published).
Proof.
  intros e r. split; [reflexivity|].
  apply (ownership_decided_on_record e r Scenario.published "0xAAA" "0xToken1").
  reflexivity.
Defined.

(** * Further properties of the router, the triggers and the client *)

(** ** Temporary sessions *)



(** [POST /temporary] with an identifier, by whether the parameters of its
    statement fit their columns. *)
Lemma post_temporary_eq e user body db sid :
  sessionId body = Some sid → sid ≠ "" →
  Router.post_temporary e user body db
  = if decide (Sql.columns_fit (temporary_params user body sid db)) then
      let t :=
        match temporary_metadata db !! sid with
        | Some old =>
            {| creator_address := creator_address old; t_fields := s_fields body;
               logo_data := logoData body; t_created_at := t_created_at old;
               expires_at := now e + Sql.INTERVAL_24_HOURS |}
        | None =>
            {| creator_address := Js.toLowerCase user; t_fields := s_fields body;
               logo_data := logoData body; t_created_at := now e;
               expires_at := now e + Sql.INTERVAL_24_HOURS |}
        end in
      (Ok (TemporaryRow sid t),
       with_temporary_metadata (<[sid := t]> (temporary_metadata db)) db)
    else (Fail 500 "Failed to save temporary metadata", db).
Proof.
  intros Hsid Hne.
  unfold Router.post_temporary, Router.handle, temporary_params. rewrite Hsid.
  destruct (String.eqb_spec sid ""); [done|].
  unfold bind at 1, Sql.select_temporary, gets.
  destruct (temporary_metadata db !! sid) as [old|] eqn:Hold.
  - unfold bind at 1. rewrite update_temporary_eq, Hold.
    by destruct (decide _).
  - unfold bind at 1. rewrite insert_temporary_eq, Hold.
    by destruct (decide _).
Qed.


Lemma post_temporary_without_id e user body db :
  Js.truthy (sessionId body) = false →
  Router.post_temporary e user body db = (Fail 400 "Session ID is required", db).
Proof.
  unfold Router.post_temporary, Router.handle, Js.truthy.
  destruct (sessionId body) as [sid|]; [|done].
  destruct (String.eqb sid ""); [done | discriminate].
Qed.



(** X2. [cleanup_expired_metadata()] deletes exactly the sessions whose
    [expires_at] lies before the clock and nothing else; running it again
    at the same time changes nothing.  A session that expires at this very
    instant survives the sweep, although the trigger on [tokens] no longer
    counts it as live. *)
Theorem sweep_deletes_expired_only (e : Env) (db : DB) :
  let db' := (Sql.cleanup_expired_metadata e db).2 in
  (∀ sid,
     temporary_metadata db' !! sid
     = match temporary_metadata db !! sid with
       | Some t => if decide (expires_at t < now e) then None else Some t
       | None => None
       end)
  ∧ tokens db' = tokens db
  ∧ token_metadata db' = token_metadata db
  ∧ token_metadata_history db' = token_metadata_history db
  ∧ Sql.cleanup_expired_metadata e db' = (inr tt, db')
  ∧ (∀ sid t, temporary_metadata db !! sid = Some t → expires_at t = now e →
              temporary_metadata db' !! sid = Some t
              ∧ ¬ Sql.owned_and_live e (creator_address t) t).
Proof.
  intros db'.
  assert (Hlook : ∀ sid,
            temporary_metadata db' !! sid
            = match temporary_metadata db !! sid with
              | Some t => if decide (expires_at t < now e) then None else Some t
              | None => None
              end).
  { intros sid. subst db'. cbn. rewrite map_lookup_filter.
    destruct (temporary_metadata db !! sid) as [t|]; [|done]. simpl.
    destruct (decide (expires_at t < now e)) as [Hlt|Hge].
    - rewrite option_guard_False; [done|]. simpl. tauto.
    - by rewrite option_guard_True. }
  split; [exact Hlook|]. repeat split; try reflexivity.
  - unfold Sql.cleanup_expired_metadata, modify. f_equal.
    destruct db' as [tk tm tmp hist] eqn:Hdb'. unfold with_temporary_metadata. cbn.
    f_equal. apply map_eq. intros sid. rewrite map_lookup_filter.
    pose proof (Hlook sid) as H. cbn in H.
    destruct (tmp !! sid) as [t|] eqn:Ht; [|done]. simpl.
    destruct (temporary_metadata db !! sid) as [t0|]; [|done].
    destruct (decide (expires_at t0 < now e)); [done|]. injection H as ->.
    by rewrite option_guard_True.
  - rewrite Hlook, H. destruct (decide _); [lia | done].
  - intros [_ Hlive]. lia.
Qed.

Lemma sweep_deletes_expired_only_witness :
  let e := Scenario.env_at 500 in
  let db' := (Sql.cleanup_expired_metadata e Scenario.drafts).2 in
  (temporary_metadata Scenario.drafts !! "old" = Some (Scenario.session "0xaaa" 10 500)
   ∧ expires_at (Scenario.session "0xaaa" 10 500) = now e)
  ∧ temporary_metadata db' !! "old" = Some (Scenario.session "0xaaa" 10 500)
  ∧ ¬ Sql.owned_and_live e (creator_address (Scenario.session "0xaaa" 10 500))
        (Scenario.session "0xaaa" 10 500).
Proof.
  intros e db'. split; [split; vm_compute; reflexivity|].
  destruct (sweep_deletes_expired_only e Scenario.drafts)
    as (_ & _ & _ & _ & _ & Hedge).
  apply (Hedge "old" (Scenario.session "0xaaa" 10 500)); vm_compute; reflexivity.
Defined.

(** ** Verification by an admin *)

Lemma toLowerCase_nonempty s : s ≠ "" → Js.toLowerCase s ≠ "".
Proof. by destruct s. Qed.

Lemma post_verify_not_admin e user ta db :
  Js.toLowerCase user ∉ adminAddresses e →
  Router.post_verify e user ta db = (Fail 403 "Only admins can verify metadata", db).
Proof.
  intros Hn. unfold Router.post_verify, Router.handle.
  fold (adminAddresses e). by destruct (decide _).
Qed.

(** X3. [POST /:tokenAddress/verify]: a caller outside the allow-list gets
    403 and an admin asking for a token without a record gets 404, both
    without any change.  When it succeeds, the caller is on the allow-list
    and the record differs from the one before only in [verified = true],
    the counter (one more) and [updated_at]: fields, logo, creation time and
    [last_updated_by] are those of the old row, so the admin is not
    recorded as the last writer. *)
Theorem verify_sets_only_the_flag (e : Env) (user ta : string) (db : DB) :
  let res := Router.post_verify e user ta db in
  (Js.toLowerCase user ∉ adminAddresses e →
   res = (Fail 403 "Only admins can verify metadata", db))
  ∧ (Js.toLowerCase user ∈ adminAddresses e →
     token_metadata db !! Js.toLowerCase ta = None →
     res = (Fail 404 "Token metadata not found", db))
  ∧ (∀ b, res.1 = Ok b →
       Js.toLowerCase user ∈ adminAddresses e
       ∧ ∃ old row,
           token_metadata db !! Js.toLowerCase ta = Some old
           ∧ b = MetadataRow (Js.toLowerCase ta) row
           ∧ token_metadata res.2 = <[Js.toLowerCase ta := row]> (token_metadata db)
           ∧ row = {| fields := fields old; logo_url := logo_url old;
                      created_at := created_at old; updated_at := now e;
                      last_updated_by := last_updated_by old;
                      update_count := update_count old + 1; verified := true |}).
Proof.
  intros res. subst res. split; [|split].
  - apply post_verify_not_admin.
  - intros Hadmin Hnone. rewrite (post_verify_admin _ _ _ _ Hadmin).
    by rewrite update_no_row.
  - intros b Hok.
    pose proof (post_verify_ok_inv _ _ _ _ _ Hok) as Hadmin.
    split; [exact Hadmin|].
    rewrite (post_verify_admin _ _ _ _ Hadmin) in Hok |- *.
    destruct (Sql.update_token_metadata _ _ _ _) as [[err|[row|]] db'] eqn:Hrun;
      simpl in Hok; try discriminate.
    injection Hok as <-.
    destruct (update_returned_row _ _ _ _ _ _ Hrun)
      as (old & new & h & Hold & Hset & Hrow & Htm & _).
    exists old, row. injection Hset as <-. subst row.
    repeat split; [exact Hold | exact Htm].
Qed.

Lemma verify_sets_only_the_flag_witness :
  let e := Scenario.admin_env 100 in
  let res := Router.post_verify e "0xAdmin" "0xToken1" Scenario.published in
  res.1 = Ok (MetadataRow "0xtoken1"
                {| fields := Scenario.foo; logo_url := None; created_at := 50;
                   updated_at := 100; last_updated_by := Some "0xaaa";
                   update_count := 2; verified := true |})
  ∧ Js.toLowerCase "0xAdmin" ∈ adminAddresses e
  ∧ ∃ old row,
      token_metadata Scenario.published !! Js.toLowerCase "0xToken1" = Some old
      ∧ MetadataRow "0xtoken1"
          {| fields := Scenario.foo; logo_url := None; created_at := 50;
             updated_at := 100; last_updated_by := Some "0xaaa";
             update_count := 2; verified := true |}
        = MetadataRow (Js.toLowerCase "0xToken1") row
      ∧ token_metadata res.2
        = <[Js.toLowerCase "0xToken1" := row]> (token_metadata Scenario.published)
      ∧ row = {| fields := fields old; logo_url := logo_url old;
                 created_at := created_at old; updated_at := now e;
                 last_updated_by := last_updated_by old;
                 update_count := update_count old + 1; verified := true |}.
Proof.
  intros e res. split; [vm_compute; reflexivity|].
  destruct (verify_sets_only_the_flag e "0xAdmin" "0xToken1" Scenario.published)
    as (_ & _ & Hok).
  apply Hok. vm_compute. reflexivity.
Defined.

(** X4. With [ADMIN_ADDRESSES] unset or empty, the allow-list is the
    one-element list holding the empty string: every caller with a
    non-empty address is refused by Verify, and nothing changes. *)
Theorem verify_refused_without_admin_list (e : Env) (user ta : string) (db : DB) :
  Js.or_else (process_env e "ADMIN_ADDRESSES") "" = "" →
  user ≠ "" →
  Router.post_verify e user ta db = (Fail 403 "Only admins can verify metadata", db).
Proof.
  intros Hunset Huser.
  apply post_verify_not_admin.
  unfold adminAddresses. rewrite Hunset. cbn.
  intros [Heq|Hin]%elem_of_cons; [|by apply elem_of_nil in Hin].
  by apply (toLowerCase_nonempty user).
Qed.

Lemma verify_refused_without_admin_list_witness :
  (Js.or_else (process_env (Scenario.env_at 100) "ADMIN_ADDRESSES") "" = ""
   ∧ "0xAAA" ≠ "")
  ∧ Router.post_verify (Scenario.env_at 100) "0xAAA" "0xToken1" Scenario.published
    = (Fail 403 "Only admins can verify metadata", Scenario.published).
Proof.
  split; [split; [reflexivity | discriminate]|].
  apply (verify_refused_without_admin_list (Scenario.env_at 100) "0xAAA" "0xToken1"
           Scenario.published); [reflexivity | discriminate].
Defined.

(** ** The on-chain verifier *)

(** X5. [verifyTokenOwnership] fails closed: it answers [true] only if the
    token is in [tokens], an RPC URL is configured for its network, the
    [owner()] call went through and the owner it returned equals the
    wallet up to letter case; in every other case it answers [false].  The
    letter case of the wallet address does not matter. *)
Theorem verifyTokenOwnership_fails_closed
    (e : Env) (tokenAddress walletAddress : string) (db : DB) :
  (Router.verifyTokenOwnership e tokenAddress walletAddress db = true ↔
   ∃ tok rpcUrl owner,
     tokens db !! Js.toLowerCase tokenAddress = Some tok
     ∧ process_env e (Js.toUpperCase (network_id tok) +:+ "_RPC_URL") = Some rpcUrl
     ∧ rpcUrl ≠ ""
     ∧ chain_owner e rpcUrl tokenAddress = Some owner
     ∧ Js.toLowerCase owner = Js.toLowerCase walletAddress)
  ∧ Router.verifyTokenOwnership e tokenAddress (Js.toLowerCase walletAddress) db
    = Router.verifyTokenOwnership e tokenAddress walletAddress db.
Proof.
  split.
  - unfold Router.verifyTokenOwnership. split.
    + destruct (tokens db !! _) as [tok|]; [|done].
      destruct (process_env e _) as [rpcUrl|] eqn:Hurl; [|done].
      destruct (String.eqb_spec rpcUrl ""); [done|].
      destruct (chain_owner e rpcUrl tokenAddress) as [owner|] eqn:Hcall; [|done].
      intros Heq%bool_decide_eq_true. by exists tok, rpcUrl, owner.
    + intros (tok & rpcUrl & owner & -> & -> & Hne & -> & Heq).
      destruct (String.eqb_spec rpcUrl ""); [done|]. by apply bool_decide_eq_true.
  - unfold Router.verifyTokenOwnership. by rewrite toLowerCase_idemp.
Qed.

Lemma verifyTokenOwnership_fails_closed_witness :
  Router.verifyTokenOwnership (Scenario.env_at 100) "0xToken1" "0xbbb"
    Scenario.published = true
  ∧ ∃ tok rpcUrl owner,
      tokens Scenario.published !! Js.toLowerCase "0xToken1" = Some tok
      ∧ process_env (Scenario.env_at 100)
          (Js.toUpperCase (network_id tok) +:+ "_RPC_URL") = Some rpcUrl
      ∧ rpcUrl ≠ ""
      ∧ chain_owner (Scenario.env_at 100) rpcUrl "0xToken1" = Some owner
      ∧ Js.toLowerCase owner = Js.toLowerCase "0xbbb".
Proof.
  split; [vm_compute; reflexivity|].
  apply (proj1 (verifyTokenOwnership_fails_closed (Scenario.env_at 100) "0xToken1"
                  "0xbbb" Scenario.published)).
  vm_compute. reflexivity.
Defined.

(** ** Reading the history *)

#[local] Instance newer_first_total : Total Sql.newer_first.
Proof. intros a b. unfold Sql.newer_first. lia. Qed.

#[local] Instance newer_first_trans : Transitive Sql.newer_first.
Proof. intros a b c. unfold Sql.newer_first. lia. Qed.

Lemma history_unchanged e user ta db :
  (Router.get_history e user ta db).2 = db.
Proof.
  unfold Router.get_history, Router.handle, bind, Sql.select_token, gets.
  destruct (tokens db !! Js.toLowerCase ta) as [tok|]; [|done].
  by destruct (decide _).
Qed.

(** X6. [GET /:tokenAddress/history] never changes the store.  When it
    succeeds, the caller is the recorded owner and the answer holds exactly
    the history rows of the lowered token address, each as often as the
    table holds it, ordered so that no row comes before a newer one. *)
Theorem history_is_read_newest_first (e : Env) (user ta : string) (db : DB) :
  let res := Router.get_history e user ta db in
  res.2 = db
  ∧ (∀ b, res.1 = Ok b →
       is_owner db user (Some ta) = true
       ∧ ∃ rows,
           b = HistoryRows rows
           ∧ rows ≡ₚ filter (λ h, h_token_address h = Js.toLowerCase ta)
                       (token_metadata_history db)
           ∧ StronglySorted Sql.newer_first rows).
Proof.
  intros res. subst res.
  unfold Router.get_history, Router.handle, bind, Sql.select_token, gets, is_owner.
  destruct (tokens db !! Js.toLowerCase ta) as [tok|]; [|by split].
  destruct (decide _) as [Hne|Heq]; [by split|].
  apply dec_stable in Heq. cbn. split; [done|].
  intros b [= <-]. split; [by apply bool_decide_eq_true|].
  eexists. split; [reflexivity|]. split.
  - apply merge_sort_Permutation.
  - apply StronglySorted_merge_sort; apply _.
Qed.

Lemma history_is_read_newest_first_witness :
  let db := run Scenario.busy_day Scenario.published in
  let res := Router.get_history (Scenario.env_at 400) "0xAAA" "0xToken1" db in
  (update_timestamp <$> match res.1 with Ok (HistoryRows rows) => rows | _ => [] end)
  = [300; 200; 100]
  ∧ is_owner db "0xAAA" (Some "0xToken1") = true
  ∧ ∃ rows,
      match res.1 with Ok b => b | Fail _ _ => Undefined end = HistoryRows rows
      ∧ rows ≡ₚ filter (λ h, h_token_address h = Js.toLowerCase "0xToken1")
                  (token_metadata_history db)
      ∧ StronglySorted Sql.newer_first rows.
Proof.
  intros db res. split; [vm_compute; reflexivity|].
  destruct (history_is_read_newest_first (Scenario.env_at 400) "0xAAA" "0xToken1" db)
    as [_ Hok].
  apply Hok. vm_compute. reflexivity.
Defined.

(** ** LinkSession when it goes through *)

(** What [POST /link] does once the caller passed the ownership check and
    the session was found. *)
Lemma post_link_after_checks e user ta sid db tok t :
  ta ≠ "" → sid ≠ "" →
  tokens db !! Js.toLowerCase ta = Some tok →
  Js.toLowerCase (owner_address tok) = Js.toLowerCase user →
  temporary_metadata db !! sid = Some t →
  creator_address t = Js.toLowerCase user →
  Router.post_link e user (Some ta) (Some sid) db
  = match token_metadata db !! Js.toLowerCase ta with
    | Some _ =>
        match Sql.update_token_metadata e (Js.toLowerCase ta)
                (Router.link_set e t (Router.link_logo e ta (logo_data t))
                   (Js.toLowerCase user)) db with
        | (inr result, db1) =>
            (Ok (Router.metadata_row0 (Js.toLowerCase ta) result),
             with_temporary_metadata (delete sid (temporary_metadata db1)) db1)
        | (inl _, db1) => (Fail 500 "Failed to link metadata", db1)
        end
    | None =>
        match Sql.insert_token_metadata e (Js.toLowerCase ta) (t_fields t)
                (Router.link_logo e ta (logo_data t))
                (Some (Js.toLowerCase user)) 1 db with
        | (inr row, db1) =>
            (Ok (MetadataRow (Js.toLowerCase ta) row),
             with_temporary_metadata (delete sid (temporary_metadata db1)) db1)
        | (inl _, db1) => (Fail 500 "Failed to link metadata", db1)
        end
    end.
Proof.
  intros Hta Hsid Htok Hown Ht Hcreator.
  unfold Router.post_link, Router.handle.
  destruct (String.eqb_spec ta ""); [done|].
  destruct (String.eqb_spec sid ""); [done|]. cbn [orb].
  unfold bind at 1, Sql.select_token, gets. rewrite Htok.
  destruct (decide _) as [Hne|_]; [done|].
  unfold bind at 1, Sql.select_temporary_of, gets. rewrite Ht.
  destruct (decide _) as [_|Hn]; [|done].
  unfold bind at 1, Sql.select_token_metadata, gets.
  destruct (token_metadata db !! Js.toLowerCase ta).
  - unfold bind at 1.
    destruct (Sql.update_token_metadata _ _ _ _) as [[err|result] db1]; reflexivity.
  - unfold bind at 1.
    destruct (Sql.insert_token_metadata _ _ _ _ _ _ _) as [[err|row] db1]; reflexivity.
Qed.

(** A successful [POST /link] passed every check. *)
Lemma post_link_ok_inv e user ota osid db b :
  (Router.post_link e user ota osid db).1 = Ok b →
  ∃ ta sid tok t,
    ota = Some ta ∧ osid = Some sid ∧ ta ≠ "" ∧ sid ≠ ""
    ∧ tokens db !! Js.toLowerCase ta = Some tok
    ∧ Js.toLowerCase (owner_address tok) = Js.toLowerCase user
    ∧ temporary_metadata db !! sid = Some t
    ∧ creator_address t = Js.toLowerCase user.
Proof.
  unfold Router.post_link, Router.handle.
  destruct ota as [ta|], osid as [sid|]; try done.
  destruct (String.eqb_spec ta ""); [done|].
  destruct (String.eqb_spec sid ""); [done|]. cbn [orb].
  unfold bind at 1, Sql.select_token, gets.
  destruct (tokens db !! Js.toLowerCase ta) as [tok|] eqn:Htok; [|done].
  destruct (decide _) as [Hne|Heq]; [done|]. apply dec_stable in Heq.
  unfold bind at 1, Sql.select_temporary_of, gets.
  destruct (temporary_metadata db !! sid) as [t|] eqn:Ht; [|done].
  destruct (decide _) as [Hc|Hc]; [|done].
  intros _. by exists ta, sid, tok, t.
Qed.

Lemma insert_fresh e a f logo who c db tok :
  token_metadata db !! a = None → tokens db !! a = Some tok →
  Sql.insert_token_metadata e a f logo who c db
  = (inr {| fields := f; logo_url := logo; created_at := now e; updated_at := now e;
            last_updated_by := who; update_count := c; verified := false |},
     with_token_metadata
       (<[a := {| fields := f; logo_url := logo; created_at := now e;
                  updated_at := now e; last_updated_by := who;
                  update_count := c; verified := false |}]> (token_metadata db)) db).
Proof.
  intros Hnone Htok.
  unfold Sql.insert_token_metadata, atomic, bind, Sql.select_token_metadata,
    Sql.select_token, gets.
  by rewrite Hnone, Htok.
Qed.

(** X7. LinkSession on a token that has no record yet: when the caller is
    the recorded owner and created the session, the link succeeds.  The
    new record sits under the lowered token address, carries the fields of
    the session, names the lowered caller as [last_updated_by], starts
    with [update_count = 1] and unverified; the session is deleted and no
    history row is written. *)
Theorem link_creates_record
    (e : Env) (user ta sid : string) (db : DB) (tok : Token) (t : TemporaryMetadata) :
  ta ≠ "" → sid ≠ "" →
  tokens db !! Js.toLowerCase ta = Some tok →
  Js.toLowerCase (owner_address tok) = Js.toLowerCase user →
  temporary_metadata db !! sid = Some t →
  creator_address t = Js.toLowerCase user →
  token_metadata db !! Js.toLowerCase ta = None →
  let row := {| fields := t_fields t;
                logo_url := Router.link_logo e ta (logo_data t);
                created_at := now e; updated_at := now e;
                last_updated_by := Some (Js.toLowerCase user);
                update_count := 1; verified := false |} in
  Router.post_link e user (Some ta) (Some sid) db
  = (Ok (MetadataRow (Js.toLowerCase ta) row),
     {| tokens := tokens db;
        token_metadata := <[Js.toLowerCase ta := row]> (token_metadata db);
        temporary_metadata := delete sid (temporary_metadata db);
        token_metadata_history := token_metadata_history db |}).
Proof.
  intros Hta Hsid Htok Hown Ht Hcreator Hnone row.
  rewrite (post_link_after_checks e user ta sid db tok t) by done.
  rewrite Hnone. by rewrite (insert_fresh _ _ _ _ _ _ _ tok).
Qed.

Lemma link_creates_record_witness :
  let e := Scenario.env_at 100 in
  let t := Scenario.session "0xaaa" 0 86400 in
  ("0xToken1" ≠ "" ∧ "s1" ≠ ""
   ∧ tokens Scenario.staged !! Js.toLowerCase "0xToken1" = Some Scenario.token1
   ∧ Js.toLowerCase (owner_address Scenario.token1) = Js.toLowerCase "0xAaa"
   ∧ temporary_metadata Scenario.staged !! "s1" = Some t
   ∧ creator_address t = Js.toLowerCase "0xAaa"
   ∧ token_metadata Scenario.staged !! Js.toLowerCase "0xToken1" = None)
  ∧ Router.post_link e "0xAaa" (Some "0xToken1") (Some "s1") Scenario.staged
    = (Ok (MetadataRow (Js.toLowerCase "0xToken1")
             {| fields := t_fields t;
                logo_url := Router.link_logo e "0xToken1" (logo_data t);
                created_at := now e; updated_at := now e;
                last_updated_by := Some (Js.toLowerCase "0xAaa");
                update_count := 1; verified := false |}),
       {| tokens := tokens Scenario.staged;
          token_metadata :=
            <[Js.toLowerCase "0xToken1" :=
                {| fields := t_fields t;
                   logo_url := Router.link_logo e "0xToken1" (logo_data t);
                   created_at := now e; updated_at := now e;
                   last_updated_by := Some (Js.toLowerCase "0xAaa");
                   update_count := 1; verified := false |}]>
              (token_metadata Scenario.staged);
          temporary_metadata := delete "s1" (temporary_metadata Scenario.staged);
          token_metadata_history := token_metadata_history Scenario.staged |}).
Proof.
  intros e t.
  split; [repeat split; try discriminate; vm_compute; reflexivity|].
  apply (link_creates_record e "0xAaa" "0xToken1" "s1" Scenario.staged
           Scenario.token1 t); try discriminate; vm_compute; reflexivity.
Defined.

(** X8. A session is consumed once: after a LinkSession that succeeded,
    the same request on the resulting store answers 404 "Temporary metadata
    not found" and changes nothing. *)
Theorem link_consumes_session
    (e e' : Env) (user : string) (ta sid : option string) (db : DB) (b : Body) :
  let res := Router.post_link e user ta sid db in
  res.1 = Ok b →
  Router.post_link e' user ta sid res.2
  = (Fail 404 "Temporary metadata not found", res.2).
Proof.
  intros res Hok. subst res.
  destruct (post_link_ok_inv _ _ _ _ _ _ Hok)
    as (ta' & sid' & tok & t & -> & -> & Hta & Hsid & Htok & Hown & Ht & Hc).
  rewrite (post_link_after_checks e user ta' sid' db tok t) in Hok |- * by done.
  assert (Hafter : ∀ db1 : DB,
            tokens db1 = tokens db →
            Router.post_link e' user (Some ta') (Some sid')
              (with_temporary_metadata (delete sid' (temporary_metadata db1)) db1)
            = (Fail 404 "Temporary metadata not found",
               with_temporary_metadata (delete sid' (temporary_metadata db1)) db1)).
  { intros db1 Htokens.
    unfold Router.post_link, Router.handle.
    destruct (String.eqb_spec ta' ""); [done|].
    destruct (String.eqb_spec sid' ""); [done|]. cbn [orb].
    unfold bind at 1, Sql.select_token, gets.
    cbn [tokens with_temporary_metadata]. rewrite Htokens, Htok.
    destruct (decide _) as [Hne|_]; [done|].
    unfold bind at 1, Sql.select_temporary_of, gets.
    cbn [temporary_metadata with_temporary_metadata].
    by rewrite lookup_delete_eq. }
  destruct (token_metadata db !! Js.toLowerCase ta').
  - destruct (update_cases e (Js.toLowerCase ta')
                (Router.link_set e t (Router.link_logo e ta' (logo_data t))
                   (Js.toLowerCase user)) db)
      as [[_ Hu]|[(old & new & who & tok' & _ & _ & _ & _ & _ & Hu)
                 |(old & err & _ & Hu)]];
      rewrite Hu in Hok |- *; simpl in Hok; try discriminate;
      cbn [fst snd]; by apply Hafter.
  - destruct (Sql.insert_token_metadata _ _ _ _ _ _ _) as [[err|row] db1] eqn:Hi;
      [discriminate|].
    cbn [fst snd]. apply Hafter.
    revert Hi.
    unfold Sql.insert_token_metadata, atomic, bind, Sql.select_token_metadata,
      Sql.select_token, gets.
    destruct (token_metadata db !! Js.toLowerCase ta'); [done|].
    destruct (tokens db !! Js.toLowerCase ta'); [|done].
    cbn. by intros [= _ <-].
Qed.

Lemma link_consumes_session_witness :
  let e := Scenario.env_at 100 in
  let res := Router.post_link e "0xAAA" (Some "0xToken1") (Some "s1") Scenario.staged in
  res.1 = Ok (MetadataRow "0xtoken1"
                {| fields := Scenario.foo; logo_url := None; created_at := 100;
                   updated_at := 100; last_updated_by := Some "0xaaa";
                   update_count := 1; verified := false |})
  ∧ Router.post_link (Scenario.env_at 200) "0xAAA" (Some "0xToken1") (Some "s1") res.2
    = (Fail 404 "Temporary metadata not found", res.2).
Proof.
  intros e res. split; [vm_compute; reflexivity|].
  eapply (link_consumes_session e (Scenario.env_at 200) "0xAAA" (Some "0xToken1")
            (Some "s1") Scenario.staged).
  vm_compute. reflexivity.
Defined.

(** The outcome of an UPDATE that matched a row, by what can go wrong. *)
Lemma update_decided e a SET db old :
  token_metadata db !! a = Some old →
  match SET old with
  | inl err => Sql.update_token_metadata e a SET db = (inl err, db)
  | inr new =>
      match last_updated_by new, tokens db !! a with
      | Some who, Some _ =>
          if decide (Sql.INT4_MIN ≤ update_count old + 1 ≤ Sql.INT4_MAX)
          then Sql.update_token_metadata e a SET db
               = (inr (Some (row_after e old new)), db_after e a who old new db)
          else ∃ err, Sql.update_token_metadata e a SET db = (inl err, db)
      | _, _ => ∃ err, Sql.update_token_metadata e a SET db = (inl err, db)
      end
  end.
Proof.
  intros Hold.
  destruct (SET old) as [err|new] eqn:Hset.
  { unfold Sql.update_token_metadata, atomic, bind, Sql.select_token_metadata, gets, lift.
    by rewrite Hold, Hset. }
  destruct (last_updated_by new) as [who|] eqn:Hwho.
  2:{ eexists.
      unfold Sql.update_token_metadata, atomic, bind, Sql.select_token_metadata, gets, lift.
      rewrite Hold, Hset. cbn. unfold Sql.insert_history. rewrite Hwho. reflexivity. }
  destruct (tokens db !! a) as [tok|] eqn:Htok.
  2:{ eexists.
      unfold Sql.update_token_metadata, atomic, bind, Sql.select_token_metadata, gets, lift.
      rewrite Hold, Hset. cbn.
      unfold Sql.insert_history, bind, Sql.select_token, gets. rewrite Hwho, Htok.
      reflexivity. }
  destruct (decide _) as [Hr|Hr]; [by apply update_row with tok|].
  eexists.
  unfold Sql.update_token_metadata, atomic, bind, Sql.select_token_metadata, gets, lift.
  rewrite Hold, Hset. cbn.
  unfold Sql.insert_history, bind, Sql.select_token, gets, Sql.int4, lift.
  rewrite Hwho, Htok. cbn.
  destruct (decide _) as [Hy|_]; [by destruct Hr|]. reflexivity.
Qed.

(** X9. LinkSession onto a token that already has a record: the record
    takes the fields of the session and the lowered caller as
    [last_updated_by]; its logo is the URL of the stored inline image if
    that upload produced one and the logo it had otherwise; the counter
    goes up by one, the old row goes to the history under the caller, and
    creation time and verification flag stay.  The session is deleted. *)
Theorem link_updates_record
    (e : Env) (user ta sid : string) (db : DB) (tok : Token) (t : TemporaryMetadata)
    (old : TokenMetadata) :
  ta ≠ "" → sid ≠ "" →
  tokens db !! Js.toLowerCase ta = Some tok →
  Js.toLowerCase (owner_address tok) = Js.toLowerCase user →
  temporary_metadata db !! sid = Some t →
  creator_address t = Js.toLowerCase user →
  token_metadata db !! Js.toLowerCase ta = Some old →
  Sql.INT4_MIN ≤ update_count old + 1 ≤ Sql.INT4_MAX →
  let row := {| fields := t_fields t;
                logo_url := match Router.link_logo e ta (logo_data t) with
                            | Some url => Some url
                            | None => logo_url old
                            end;
                created_at := created_at old; updated_at := now e;
                last_updated_by := Some (Js.toLowerCase user);
                update_count := update_count old + 1;
                verified := verified old |} in
  Router.post_link e user (Some ta) (Some sid) db
  = (Ok (MetadataRow (Js.toLowerCase ta) row),
     {| tokens := tokens db;
        token_metadata := <[Js.toLowerCase ta := row]> (token_metadata db);
        temporary_metadata := delete sid (temporary_metadata db);
        token_metadata_history :=
          token_metadata_history db
          ++ [ {| h_token_address := Js.toLowerCase ta;
                  updated_by := Js.toLowerCase user;
                  update_timestamp := now e; previous_data := old |} ] |}).
Proof.
  intros Hta Hsid Htok Hown Ht Hcreator Hold Hrange row.
  rewrite (post_link_after_checks e user ta sid db tok t) by done.
  rewrite Hold.
  pose proof (update_decided e (Js.toLowerCase ta)
                (Router.link_set e t (Router.link_logo e ta (logo_data t))
                   (Js.toLowerCase user)) db old Hold) as Hu.
  unfold Router.link_set at 1, Sql.int4 in Hu.
  destruct (decide _) as [_|Hn]; [|done].
  cbn [last_updated_by] in Hu. rewrite Htok in Hu.
  rewrite Hu. reflexivity.
Qed.

Lemma link_updates_record_witness :
  let e := Scenario.env_at 100 in
  let db := with_temporary_metadata (temporary_metadata Scenario.drafts)
              Scenario.published in
  let t := {| creator_address := "0xaaa"; t_fields := Scenario.bar;
              logo_data := Some "data:image/png;base64,AAAA";
              t_created_at := 20; expires_at := 600 |} in
  let old := Scenario.record (Some "0xaaa") 1 in
  ("0xToken1" ≠ "" ∧ "new" ≠ ""
   ∧ tokens db !! Js.toLowerCase "0xToken1" = Some Scenario.token1
   ∧ Js.toLowerCase (owner_address Scenario.token1) = Js.toLowerCase "0xAAA"
   ∧ temporary_metadata db !! "new" = Some t
   ∧ creator_address t = Js.toLowerCase "0xAAA"
   ∧ token_metadata db !! Js.toLowerCase "0xToken1" = Some old
   ∧ Sql.INT4_MIN ≤ update_count old + 1 ≤ Sql.INT4_MAX)
  ∧ (Router.post_link e "0xAAA" (Some "0xToken1") (Some "new") db).1
    = Ok (MetadataRow "0xtoken1"
            {| fields := Scenario.bar; logo_url := None; created_at := 50;
               updated_at := 100; last_updated_by := Some "0xaaa";
               update_count := 2; verified := false |}).
Proof.
  intros e db t old.
  split; [repeat split; try discriminate; vm_compute; try reflexivity;
          intros ?; discriminate|].
  rewrite (link_updates_record e "0xAAA" "0xToken1" "new" db Scenario.token1 t old);
    try discriminate; try (vm_compute; reflexivity).
  vm_compute. split; intros ?; discriminate.
Defined.

(** The session lookup of [POST /link] failing, after the ownership check
    went through or not. *)
Lemma link_failure_leaves_store_aux e user ta sid db :
  session_of db user (Some sid) = None →
  ∃ st msg,
    Router.post_link e user (Some ta) (Some sid) db = (Fail st msg, db)
    ∧ st = if String.eqb ta "" || String.eqb sid "" then 400
           else match tokens db !! Js.toLowerCase ta with
                | None => 404
                | Some tok =>
                    if decide (Js.toLowerCase (owner_address tok) = Js.toLowerCase user)
                    then 404 else 403
                end.
Proof.
  intros Hs. unfold Router.post_link, Router.handle.
  destruct (String.eqb ta "" || String.eqb sid ""); [by eexists _, _|].
  unfold bind at 1, Sql.select_token, gets.
  destruct (tokens db !! Js.toLowerCase ta) as [tok|]; [|by eexists _, _].
  destruct (decide (Js.toLowerCase (owner_address tok) ≠ Js.toLowerCase user))
    as [Hne|Heq].
  { destruct (decide (_ = _)); [done | by eexists _, _]. }
  apply dec_stable in Heq. destruct (decide (_ = _)); [|done].
  unfold bind at 1, Sql.select_temporary_of, gets.
  simpl in Hs.
  destruct (temporary_metadata db !! sid) as [t|]; [|by eexists _, _].
  destruct (decide _); [done | by eexists _, _].
Qed.

(** X10. The inline logo is handled on a best-effort basis: whatever the
    file system and the remote store do (and whatever the clock reads),
    LinkSession answers with the same status, deletes the same session and
    leaves [tokens] alone.  A failing upload only decides which logo URL the
    record ends up with. *)
Theorem link_outcome_ignores_asset_store
    (e1 e2 : Env) (user : string) (ta sid : option string) (db : DB) :
  let r1 := Router.post_link e1 user ta sid db in
  let r2 := Router.post_link e2 user ta sid db in
  status r1.1 = status r2.1
  ∧ temporary_metadata r1.2 = temporary_metadata r2.2
  ∧ tokens r1.2 = tokens r2.2.
Proof.
  intros r1 r2. subst r1 r2.
  destruct ta as [ta|]; [|done]. destruct sid as [sid|]; [|done].
  destruct (decide (ta = "")) as [->|Hta]; [done|].
  destruct (decide (sid = "")) as [->|Hsid].
  { unfold Router.post_link, Router.handle.
    by destruct (String.eqb ta ""). }
  assert (gate_subject (PostLink user (Some ta) (Some sid)) = Some (user, ta)) as Hg
    by (simpl; by destruct (String.eqb_spec ta ""), (String.eqb_spec sid "")).
  destruct (tokens db !! Js.toLowerCase ta) as [tok|] eqn:Htok.
  2:{ pose proof (gate_unknown_token e1 _ db user ta Hg Htok) as H1.
      pose proof (gate_unknown_token e2 _ db user ta Hg Htok) as H2.
      cbn [respond] in H1, H2. by rewrite H1, H2. }
  destruct (decide (Js.toLowerCase (owner_address tok) = Js.toLowerCase user))
    as [Hown|Hne].
  2:{ destruct (gate_other_owner e1 _ db user ta tok Hg Htok Hne) as [m1 H1].
      destruct (gate_other_owner e2 _ db user ta tok Hg Htok Hne) as [m2 H2].
      cbn [respond] in H1, H2. by rewrite H1, H2. }
  destruct (session_of db user (Some sid)) as [t|] eqn:Hs.
  2:{ destruct (link_failure_leaves_store_aux e1 user ta sid db Hs) as (s1 & m1 & H1 & Hst1).
      destruct (link_failure_leaves_store_aux e2 user ta sid db Hs) as (s2 & m2 & H2 & Hst2).
      rewrite H1, H2. simpl. split; [congruence | done]. }
  simpl in Hs.
  destruct (temporary_metadata db !! sid) as [t'|] eqn:Ht; [|done].
  destruct (decide _) as [Hc|]; [|done]. injection Hs as ->.
  rewrite !(post_link_after_checks _ user ta sid db tok t) by done.
  destruct (token_metadata db !! Js.toLowerCase ta) as [old|] eqn:Hold.
  - pose proof (update_decided e1 (Js.toLowerCase ta)
                  (Router.link_set e1 t (Router.link_logo e1 ta (logo_data t))
                     (Js.toLowerCase user)) db old Hold) as H1.
    pose proof (update_decided e2 (Js.toLowerCase ta)
                  (Router.link_set e2 t (Router.link_logo e2 ta (logo_data t))
                     (Js.toLowerCase user)) db old Hold) as H2.
    unfold Router.link_set at 1, Sql.int4 in H1.
    unfold Router.link_set at 1, Sql.int4 in H2.
    destruct (decide _) as [Hr|Hr].
    + cbn [last_updated_by] in H1, H2. rewrite Htok in H1, H2.
      by rewrite H1, H2.
    + by rewrite H1, H2.
  - by rewrite !(insert_fresh _ _ _ _ _ _ _ tok).
Qed.

(** ** What a request writes *)

Lemma lowercase_toLowerCase s : lowercase (Js.toLowerCase s).
Proof. apply toLowerCase_idemp. Qed.

Lemma update_write e V S a SET db :
  lowercase a →
  (∀ old new, SET old = inr new →
     created_at new = created_at old
     ∧ (verified new = verified old ∨ (verified new = true ∧ V a))) →
  Write e V S db (Sql.update_token_metadata e a SET db).2.
Proof.
  intros Hlow Hset.
  destruct (update_cases e a SET db)
    as [[_ Hu]|[(old & new & who & tok & Hold & Hnew & _ & _ & _ & Hu)
               |(old & err & _ & Hu)]]; rewrite Hu; cbn [snd].
  - apply WriteNone; auto.
  - destruct (Hset old new Hnew) as [Hc Hv].
    apply (WriteUpdate e V S db _ a old (row_after e old new) who); auto.
  - apply WriteNone; auto.
Qed.

Lemma insert_write e V S a f logo who db :
  lowercase a →
  Write e V S db (Sql.insert_token_metadata e a f logo who 1 db).2.
Proof.
  intros Hlow.
  unfold Sql.insert_token_metadata, atomic, bind at 1, Sql.select_token_metadata, gets.
  destruct (token_metadata db !! a) eqn:Hnone; [apply WriteNone; auto|].
  unfold bind at 1, Sql.select_token, gets.
  destruct (tokens db !! a) eqn:Htok; [|apply WriteNone; auto].
  cbn. eapply (WriteInsert e V S db _ a); eauto.
Qed.

Lemma write_same e V S db : Write e V S db db.
Proof. apply WriteNone; auto. Qed.

(** Deleting or rewriting sessions on top of a write. *)
Lemma write_then_sessions e V (S : Prop) db db1 m :
  S → Write e V S db db1 → Write e V S db (with_temporary_metadata m db1).
Proof.
  intros HS [Ht Hs Hm Hh | a old new who Ht Hs Hl Ho Hm Hh Hc Hcr Hv
            | a new Ht Hs Hl Hn Htok Hm Hh Hc Hcr Hv].
  - apply WriteNone; auto.
  - eapply WriteUpdate; eauto.
  - eapply WriteInsert; eauto.
Qed.

Lemma respond_write e r db :
  Write e (verified_by e r) (on_sessions r) db (respond e r db).2.
Proof.
  destruct r as [u body|u ota osid|u ta|u ta|ta|u metadata|u ta metadata|u ota file];
    cbn [respond].
  - (* POST /temporary *)
    unfold Router.post_temporary, Router.handle.
    destruct (sessionId body) as [sid|]; [|apply write_same].
    destruct (String.eqb sid ""); [apply write_same|].
    unfold bind at 1, Sql.select_temporary, gets.
    destruct (temporary_metadata db !! sid) as [t|] eqn:Ht.
    + unfold bind at 1. rewrite update_temporary_eq, Ht.
      destruct (decide _); [|apply write_same].
      cbn. apply WriteNone; cbn; auto.
    + unfold bind at 1. rewrite insert_temporary_eq, Ht.
      destruct (decide _); [|apply write_same].
      cbn. apply WriteNone; cbn; auto.
  - (* POST /link *)
    unfold Router.post_link, Router.handle.
    destruct ota as [ta|], osid as [sid|]; try apply write_same.
    destruct (_ || _); [apply write_same|].
    unfold bind at 1, Sql.select_token, gets.
    destruct (tokens db !! _) as [tok|]; [|apply write_same].
    destruct (decide _); [apply write_same|].
    unfold bind at 1, Sql.select_temporary_of, gets.
    destruct (match temporary_metadata db !! sid with Some _ => _ | None => _ end)
      as [t|]; [|apply write_same].
    unfold bind at 1, Sql.select_token_metadata, gets.
    destruct (token_metadata db !! _).
    + unfold bind at 1.
      pose proof (update_write e (verified_by e (PostLink u (Some ta) (Some sid)))
                    (on_sessions (PostLink u (Some ta) (Some sid)))
                    (Js.toLowerCase ta)
                    (Router.link_set e t (Router.link_logo e ta (logo_data t))
                       (Js.toLowerCase u)) db (lowercase_toLowerCase ta)) as Hu.
      destruct (Sql.update_token_metadata _ _ _ _) as [[err|row] db1].
      * apply Hu. intros old new. unfold Router.link_set.
        destruct (Sql.int4 _); [done|]. intros [= <-]. auto.
      * cbn. apply write_then_sessions; [exact I|].
        apply Hu. intros old new. unfold Router.link_set.
        destruct (Sql.int4 _); [done|]. intros [= <-]. auto.
    + unfold bind at 1.
      pose proof (insert_write e (verified_by e (PostLink u (Some ta) (Some sid)))
                    (on_sessions (PostLink u (Some ta) (Some sid)))
                    (Js.toLowerCase ta) (t_fields t)
                    (Router.link_logo e ta (logo_data t))
                    (Some (Js.toLowerCase u)) db (lowercase_toLowerCase ta)) as Hi.
      destruct (Sql.insert_token_metadata _ _ _ _ _ _ _) as [[err|row] db1]; [done|].
      cbn. by apply write_then_sessions.
  - (* GET history *)
    unfold Router.get_history, Router.handle, bind at 1, Sql.select_token, gets.
    destruct (tokens db !! _); [|apply write_same].
    destruct (decide _); apply write_same.
  - (* POST verify *)
    unfold Router.post_verify, Router.handle. fold (adminAddresses e).
    destruct (decide _) as [Hadmin|]; [|apply write_same].
    unfold bind.
    pose proof (update_write e (verified_by e (PostVerify u ta))
                  (on_sessions (PostVerify u ta)) (Js.toLowerCase ta)
                  (λ old, inr (Router.set_verified old (now e))) db
                  (lowercase_toLowerCase ta)) as Hu.
    assert (Write e (verified_by e (PostVerify u ta)) (on_sessions (PostVerify u ta)) db
              (Sql.update_token_metadata e (Js.toLowerCase ta)
                 (λ old, inr (Router.set_verified old (now e))) db).2) as Hw.
    { apply Hu. intros old new [= <-]. split; [done|]. right. split; [done|].
      by exists u, ta. }
    by destruct (Sql.update_token_metadata _ _ _ _) as [[err|[row|]] db1].
  - (* GET *)
    unfold Router.get_metadata, Router.handle, bind, Sql.select_token_metadata, gets.
    destruct (token_metadata db !! _); apply write_same.
  - (* POST / *)
    unfold Router.post_metadata, Router.handle.
    destruct (tokenAddress metadata) as [ta|]; [|apply write_same].
    set (V := verified_by e (PostMetadata u metadata)).
    set (S := on_sessions (PostMetadata u metadata)).
    assert (Hbody : ∀ db0, db0 = db →
              Write e V S db
                (match
                   (let! address := Router.lower_of (Some ta) in
                    let! existingResult := Sql.select_token_metadata address in
                    match existingResult with
                    | Some _ =>
                        Sql.assign (Sql.descriptive_columns (b_fields metadata)) ;;
                        let! result :=
                          Sql.update_token_metadata e address
                            (Router.post_set e metadata (Js.toLowerCase u)) in
                        ret (Ok (Router.metadata_row0 address result))
                    | None =>
                        Sql.assign (Sql.descriptive_columns (b_fields metadata)) ;;
                        let! row :=
                          Sql.insert_token_metadata e address (b_fields metadata)
                            (logoUrl metadata) (Some (Js.toLowerCase u)) 1 in
                        ret (Ok (MetadataRow address row))
                    end) db0
                 with
                 | (inr r, db') => (r, db')
                 | (inl _, db') => (Fail 500 "Failed to save token metadata", db')
                 end).2).
    { intros db0 ->. cbn [Router.lower_of].
      unfold bind at 1, ret at 1. unfold bind at 1, Sql.select_token_metadata, gets.
      destruct (token_metadata db !! _).
      - unfold bind at 1, Sql.assign.
        destruct (decide _); [|apply write_same]. unfold ret at 1, bind at 1.
        pose proof (update_write e V S (Js.toLowerCase ta)
                      (Router.post_set e metadata (Js.toLowerCase u)) db
                      (lowercase_toLowerCase ta)) as Hu.
        assert (Write e V S db
                  (Sql.update_token_metadata e (Js.toLowerCase ta)
                     (Router.post_set e metadata (Js.toLowerCase u)) db).2) as Hw.
        { apply Hu. intros old new. unfold Router.post_set.
          destruct (Sql.int4 _); [done|]. intros [= <-]. auto. }
        by destruct (Sql.update_token_metadata _ _ _ _) as [[err|row] db1].
      - unfold bind at 1, Sql.assign.
        destruct (decide _); [|apply write_same]. unfold ret at 1, bind at 1.
        pose proof (insert_write e V S (Js.toLowerCase ta) (b_fields metadata)
                      (logoUrl metadata) (Some (Js.toLowerCase u)) db
                      (lowercase_toLowerCase ta)) as Hi.
        by destruct (Sql.insert_token_metadata _ _ _ _ _ _ _) as [[err|row] db1]. }
    destruct (Js.truthy (Some ta)).
    + unfold bind at 1. cbn [Router.lower_of].
      unfold bind at 1, ret at 1. unfold bind at 1, Sql.select_token, gets.
      destruct (tokens db !! _); [|apply write_same].
      destruct (decide _); [apply write_same|].
      unfold ret at 1. by apply Hbody.
    + unfold bind at 1, ret at 1. by apply Hbody.
  - (* PUT *)
    unfold Router.put_metadata, Router.handle, bind at 1, Sql.select_token, gets.
    destruct (tokens db !! _); [|apply write_same].
    destruct (decide _); [apply write_same|].
    unfold bind, Sql.assign.
    destruct (decide _); [|apply write_same]. unfold ret.
    pose proof (update_write e (verified_by e (PutMetadata u ta metadata))
                  (on_sessions (PutMetadata u ta metadata)) (Js.toLowerCase ta)
                  (Router.put_set e metadata) db (lowercase_toLowerCase ta)) as Hu.
    assert (Write e (verified_by e (PutMetadata u ta metadata))
              (on_sessions (PutMetadata u ta metadata)) db
              (Sql.update_token_metadata e (Js.toLowerCase ta)
                 (Router.put_set e metadata) db).2) as Hw.
    { apply Hu. intros old new [= <-]. auto. }
    by destruct (Sql.update_token_metadata _ _ _ _) as [[err|[row|]] db1].
  - (* POST /upload-logo *)
    destruct file as [f|]; [|apply write_same].
    destruct ota as [ta|]; [|apply write_same].
    destruct (decide (ta = "")) as [->|Hta]; [apply write_same|].
    unfold Router.post_upload_logo, Router.handle.
    rewrite (truthy_Some _ Hta). cbn [Router.lower_of].
    unfold bind at 1. unfold bind at 1, ret at 1.
    unfold bind at 1, Sql.select_token, gets.
    destruct (tokens db !! Js.toLowerCase ta) as [tok|]; [|apply write_same].
    destruct (decide _) as [Hne|Heq]; [apply write_same|].
    unfold bind, ret.
    pose proof (update_write e
                  (verified_by e (PostUploadLogo u (Some ta) (Some f)))
                  (on_sessions (PostUploadLogo u (Some ta) (Some f)))
                  (Js.toLowerCase ta)
                  (Router.logo_set e (Router.store_logo e (Some ta) f)
                     (Js.toLowerCase u)) db (lowercase_toLowerCase ta)) as Hu.
    assert (Write e (verified_by e (PostUploadLogo u (Some ta) (Some f)))
              (on_sessions (PostUploadLogo u (Some ta) (Some f))) db
              (Sql.update_token_metadata e (Js.toLowerCase ta)
                 (Router.logo_set e (Router.store_logo e (Some ta) f)
                    (Js.toLowerCase u)) db).2) as Hw.
    { apply Hu. intros old new [= <-]. auto. }
    by destruct (Sql.update_token_metadata _ _ _ _) as [[err|row] db1].
Qed.

Lemma requests_leave_sessions e r db :
  ¬ on_sessions r →
  temporary_metadata (respond e r db).2 = temporary_metadata db.
Proof.
  intros Hn.
  destruct (respond_write e r db)
    as [_ Hs _ _ | a old new who _ Hs _ _ _ _ _ _ _ | a new _ Hs _ _ _ _ _ _ _ _];
    by destruct Hs.
Qed.

(** X11. No request to the router changes [tokens], and only
    [POST /temporary] and [POST /link] change the sessions. *)
Theorem requests_leave_tokens_and_sessions (e : Env) (r : Request) (db : DB) :
  tokens (respond e r db).2 = tokens db
  ∧ (¬ on_sessions r →
     temporary_metadata (respond e r db).2 = temporary_metadata db).
Proof.
  destruct (respond_write e r db)
    as [Ht Hs _ _ | a old new who Ht Hs _ _ _ _ _ _ _ | a new Ht Hs _ _ _ _ _ _ _ _];
    (split; [exact Ht | intros Hn; by destruct Hs]).
Qed.

Lemma requests_leave_tokens_and_sessions_witness :
  let r := PutMetadata "0xAAA" "0xToken1" Scenario.update_body in
  ¬ on_sessions r
  ∧ temporary_metadata (respond (Scenario.env_at 100) r Scenario.staged).2
    = temporary_metadata Scenario.staged.
Proof.
  intros r. split; [intros []|].
  apply (proj2 (requests_leave_tokens_and_sessions (Scenario.env_at 100) r
                  Scenario.staged)).
  intros [].
Defined.

(** What [INSERT INTO tokens] and its trigger do to [token_metadata] and
    the history. *)
Lemma insert_token_meta e k NEW db :
  token_metadata_history (Sql.insert_token e k NEW db).2 = token_metadata_history db
  ∧ (token_metadata (Sql.insert_token e k NEW db).2 = token_metadata db
     ∨ ∃ row, token_metadata db !! k = None
              ∧ token_metadata (Sql.insert_token e k NEW db).2
                = <[k := row]> (token_metadata db)
              ∧ verified row = false).
Proof.
  unfold Sql.insert_token, Sql.link_temporary_metadata, Sql.insert_token_metadata,
    Sql.select_token, Sql.select_token_metadata, atomic, bind, modify, gets, ret, throw.
  destruct (tokens db !! k); [split; [|left]; done|].
  destruct (Sql.newest _) as [[sid t]|]; [|cbn; split; [|left]; done].
  cbn [token_metadata tokens with_tokens].
  destruct (token_metadata db !! k) eqn:Hnone; [split; [|left]; done|].
  unfold with_tokens at 1 4 7. cbn [tokens]. rewrite !lookup_insert_eq. cbn.
  split; [done|]. right. by eexists.
Qed.

(** X12. The flag [verified] is only ever set by Verify: if after a
    request, a token insertion or a sweep a record is verified, then it
    was verified before, or the event was a Verify of that very address by
    a caller on the admin allow-list. *)
Theorem verified_only_by_admin
    (e : Env) (ev : Event) (db : DB) (a : string) (row : TokenMetadata) :
  token_metadata (step e ev db) !! a = Some row →
  verified row = true →
  (∃ old, token_metadata db !! a = Some old ∧ verified old = true)
  ∨ (∃ r, ev = Http r ∧ verified_by e r a).
Proof.
  intros Hrow Hver. destruct ev as [r|k NEW|]; cbn [step] in Hrow.
  - destruct (respond_write e r db)
      as [_ _ Hm _ | k old new who _ _ _ Hold Hm _ _ _ Hv
         | k new _ _ _ Hnone _ Hm _ _ _ Hv]; rewrite Hm in Hrow.
    + left. by exists row.
    + destruct (decide (k = a)) as [->|Hne].
      * rewrite lookup_insert_eq in Hrow. injection Hrow as ->.
        destruct Hv as [Hv|[_ HV]]; [|right; by exists r].
        left. exists old. split; [done | congruence].
      * rewrite lookup_insert_ne in Hrow by done. left. by exists row.
    + destruct (decide (k = a)) as [->|Hne].
      * rewrite lookup_insert_eq in Hrow. injection Hrow as ->. congruence.
      * rewrite lookup_insert_ne in Hrow by done. left. by exists row.
  - destruct (insert_token_meta e k NEW db) as [_ [Hm|(new & Hnone & Hm & Hv)]];
      rewrite Hm in Hrow.
    + left. by exists row.
    + destruct (decide (k = a)) as [->|Hne].
      * rewrite lookup_insert_eq in Hrow. injection Hrow as ->. congruence.
      * rewrite lookup_insert_ne in Hrow by done. left. by exists row.
  - left. by exists row.
Qed.

Lemma verified_only_by_admin_witness :
  let e := Scenario.admin_env 100 in
  let ev := Http (PostVerify "0xAdmin" "0xToken1") in
  let row := {| fields := Scenario.foo; logo_url := None; created_at := 50;
                updated_at := 100; last_updated_by := Some "0xaaa";
                update_count := 2; verified := true |} in
  (token_metadata (step e ev Scenario.published) !! "0xtoken1" = Some row
   ∧ verified row = true)
  ∧ ((∃ old, token_metadata Scenario.published !! "0xtoken1" = Some old
             ∧ verified old = true)
     ∨ (∃ r, ev = Http r ∧ verified_by e r "0xtoken1")).
Proof.
  intros e ev row. split; [split; vm_compute; reflexivity|].
  apply (verified_only_by_admin e ev Scenario.published "0xtoken1" row);
    vm_compute; reflexivity.
Defined.

(** One event on an existing record and on the history: the record stays
    under its address with its creation time, and the history grows at the
    end. *)
Lemma step_keeps_records e ev db :
  (∃ suffix, token_metadata_history (step e ev db)
             = token_metadata_history db ++ suffix)
  ∧ ∀ a r0, token_metadata db !! a = Some r0 →
            ∃ r, token_metadata (step e ev db) !! a = Some r
                 ∧ created_at r = created_at r0.
Proof.
  assert (Hsame : ∀ db' : DB,
            token_metadata db' = token_metadata db →
            token_metadata_history db' = token_metadata_history db →
            (∃ suffix, token_metadata_history db' = token_metadata_history db ++ suffix)
            ∧ ∀ a r0, token_metadata db !! a = Some r0 →
                      ∃ r, token_metadata db' !! a = Some r
                           ∧ created_at r = created_at r0).
  { intros db' Hm Hh. split.
    - exists []. by rewrite app_nil_r.
    - intros a r0 Ha. exists r0. by rewrite Hm. }
  assert (Hins : ∀ (db' : DB) k new,
            token_metadata db !! k = None →
            token_metadata db' = <[k := new]> (token_metadata db) →
            token_metadata_history db' = token_metadata_history db →
            (∃ suffix, token_metadata_history db' = token_metadata_history db ++ suffix)
            ∧ ∀ a r0, token_metadata db !! a = Some r0 →
                      ∃ r, token_metadata db' !! a = Some r
                           ∧ created_at r = created_at r0).
  { intros db' k new Hnone Hm Hh. split.
    - exists []. by rewrite app_nil_r.
    - intros a r0 Ha. exists r0. rewrite Hm, lookup_insert_ne by congruence. done. }
  destruct ev as [r|k NEW|]; cbn [step].
  - destruct (respond_write e r db)
      as [_ _ Hm Hh | k old new who _ _ _ Hold Hm Hh _ Hc _
         | k new _ _ _ Hnone _ Hm Hh _ _ _].
    + by apply Hsame.
    + split; [by eexists|].
      intros a r0 Ha. rewrite Hm. destruct (decide (k = a)) as [->|Hne].
      * exists new. rewrite lookup_insert_eq. split; [done | congruence].
      * exists r0. by rewrite lookup_insert_ne.
    + by apply (Hins _ k new).
  - destruct (insert_token_meta e k NEW db) as [Hh [Hm|(new & Hnone & Hm & _)]].
    + by apply Hsame.
    + by apply (Hins _ k new).
  - by apply Hsame.
Qed.

(** X13. Along any sequence of requests, token insertions and sweeps, the
    history only grows at its end (no row is removed, changed or
    reordered), no record disappears, and no record changes its
    [created_at]. *)
Theorem history_append_only_records_kept (trace : list (Env * Event)) (db : DB) :
  (∃ suffix, token_metadata_history (run trace db)
             = token_metadata_history db ++ suffix)
  ∧ ∀ a r0, token_metadata db !! a = Some r0 →
            ∃ r, token_metadata (run trace db) !! a = Some r
                 ∧ created_at r = created_at r0.
Proof.
  revert db. induction trace as [|[e ev] rest IH]; intros db; simpl.
  - split; [exists []; by rewrite app_nil_r | intros a r0 Ha; by exists r0].
  - destruct (step_keeps_records e ev db) as [[s1 Hs1] Hk1].
    destruct (IH (step e ev db)) as [[s2 Hs2] Hk2].
    split.
    + exists (s1 ++ s2). by rewrite Hs2, Hs1, app_assoc.
    + intros a r0 Ha. destruct (Hk1 a r0 Ha) as (r1 & H1 & Hc1).
      destruct (Hk2 a r1 H1) as (r & Hr & Hc). exists r. split; [done | congruence].
Qed.

Lemma history_append_only_records_kept_witness :
  token_metadata Scenario.published !! "0xtoken1"
  = Some (Scenario.record (Some "0xaaa") 1)
  ∧ ∃ r, token_metadata (run Scenario.busy_day Scenario.published) !! "0xtoken1"
         = Some r
         ∧ created_at r = created_at (Scenario.record (Some "0xaaa") 1).
Proof.
  split; [vm_compute; reflexivity|].
  apply (proj2 (history_append_only_records_kept Scenario.busy_day Scenario.published)).
  vm_compute. reflexivity.
Defined.

(** ** Canonical addresses *)

Lemma update_keeps_sessions e a SET db :
  temporary_metadata (Sql.update_token_metadata e a SET db).2 = temporary_metadata db.
Proof.
  destruct (update_cases e a SET db)
    as [[_ Hu]|[(old & new & who & tok & _ & _ & _ & _ & _ & Hu)
               |(old & err & _ & Hu)]]; by rewrite Hu.
Qed.

Lemma insert_keeps_sessions e a f logo who c db :
  temporary_metadata (Sql.insert_token_metadata e a f logo who c db).2
  = temporary_metadata db.
Proof.
  unfold Sql.insert_token_metadata, Sql.select_token_metadata, Sql.select_token,
    atomic, bind, modify, gets, ret, throw.
  destruct (token_metadata db !! a); [done|].
  by destruct (tokens db !! a).
Qed.

(** [POST /link] either succeeds or leaves the store as it was. *)
Lemma post_link_all_or_nothing e user ota osid db :
  (∃ st msg, Router.post_link e user ota osid db = (Fail st msg, db))
  ∨ (∃ b, (Router.post_link e user ota osid db).1 = Ok b).
Proof.
  destruct ota as [ta|]; [|left; by eexists _, _].
  destruct osid as [sid|]; [|left; by eexists _, _].
  destruct (decide (ta = "")) as [->|Hta]; [left; by eexists _, _|].
  destruct (decide (sid = "")) as [->|Hsid].
  { left. unfold Router.post_link, Router.handle.
    destruct (String.eqb ta ""); by eexists _, _. }
  assert (gate_subject (PostLink user (Some ta) (Some sid)) = Some (user, ta)) as Hg
    by (simpl; by destruct (String.eqb_spec ta ""), (String.eqb_spec sid "")).
  destruct (tokens db !! Js.toLowerCase ta) as [tok|] eqn:Htok.
  2:{ left. pose proof (gate_unknown_token e _ db user ta Hg Htok) as H1.
      cbn [respond] in H1. by eexists _, _. }
  destruct (decide (Js.toLowerCase (owner_address tok) = Js.toLowerCase user))
    as [Hown|Hne].
  2:{ left. destruct (gate_other_owner e _ db user ta tok Hg Htok Hne) as [m1 H1].
      cbn [respond] in H1. by eexists _, _. }
  destruct (session_of db user (Some sid)) as [t|] eqn:Hs.
  2:{ left. destruct (link_failure_leaves_store_aux e user ta sid db Hs)
        as (s1 & m1 & H1 & _). by eexists _, _. }
  simpl in Hs.
  destruct (temporary_metadata db !! sid) as [t'|] eqn:Ht; [|done].
  destruct (decide _) as [Hc|]; [|done]. injection Hs as ->.
  rewrite !(post_link_after_checks _ user ta sid db tok t) by done.
  destruct (token_metadata db !! Js.toLowerCase ta) as [old|] eqn:Hold.
  - pose proof (update_decided e (Js.toLowerCase ta)
                  (Router.link_set e t (Router.link_logo e ta (logo_data t))
                     (Js.toLowerCase user)) db old Hold) as H1.
    unfold Router.link_set at 1, Sql.int4 in H1.
    destruct (decide _) as [Hr|Hr].
    + cbn [last_updated_by] in H1. rewrite Htok in H1.
      right. rewrite H1. by eexists.
    + left. rewrite H1. by eexists _, _.
  - right. rewrite (insert_fresh _ _ _ _ _ _ _ tok) by done. by eexists.
Qed.

(** [POST /link] deletes at most the session it was given. *)
Lemma post_link_sessions e user ota osid db :
  temporary_metadata (Router.post_link e user ota osid db).2 = temporary_metadata db
  ∨ ∃ sid, osid = Some sid
           ∧ temporary_metadata (Router.post_link e user ota osid db).2
             = delete sid (temporary_metadata db).
Proof.
  destruct (Router.post_link e user ota osid db).1 as [b|st msg] eqn:Hres.
  - destruct (post_link_ok_inv _ _ _ _ _ _ Hres)
      as (ta & sid & tok & t & -> & -> & Hta & Hsid & Htok & Hown & Ht & Hc).
    right. exists sid. split; [done|].
    rewrite (post_link_after_checks e user ta sid db tok t) in Hres |- * by done.
    destruct (token_metadata db !! Js.toLowerCase ta).
    + pose proof (update_keeps_sessions e (Js.toLowerCase ta)
                    (Router.link_set e t (Router.link_logo e ta (logo_data t))
                       (Js.toLowerCase user)) db) as Hk.
      destruct (Sql.update_token_metadata _ _ _ _) as [[err|res] db1];
        [discriminate|].
      cbn in Hk |- *. by rewrite Hk.
    + pose proof (insert_keeps_sessions e (Js.toLowerCase ta) (t_fields t)
                    (Router.link_logo e ta (logo_data t))
                    (Some (Js.toLowerCase user)) 1 db) as Hk.
      destruct (Sql.insert_token_metadata _ _ _ _ _ _ _) as [[err|row] db1];
        [discriminate|].
      cbn in Hk |- *. by rewrite Hk.
  - left. destruct (post_link_all_or_nothing e user ota osid db)
      as [(st' & msg' & ->)|[b Hb]]; [done | congruence].
Qed.

Lemma respond_keeps_creators_lowercase e r db :
  creators_lowercase db → creators_lowercase (respond e r db).2.
Proof.
  intros Hinv.
  assert (Hother : ¬ on_sessions r → creators_lowercase (respond e r db).2).
  { intros Hs sid t Ht. rewrite (requests_leave_sessions e r db Hs) in Ht.
    by apply (Hinv sid). }
  destruct r as [u body|u ota osid| | | | | |];
    try (apply Hother; intros []; fail); clear Hother; cbn [respond].
  - destruct (Js.truthy (sessionId body)) eqn:Htr.
    + unfold Js.truthy in Htr. destruct (sessionId body) as [sid|] eqn:Hsid; [|done].
      destruct (String.eqb_spec sid "") as [|Hsid']; [done|].
      rewrite (post_temporary_eq e u body db sid Hsid Hsid').
      destruct (decide _); [|exact Hinv]. cbv zeta.
      intros sid' t'. cbn. destruct (decide (sid = sid')) as [->|Hne].
      * rewrite lookup_insert_eq. intros [= <-].
        destruct (temporary_metadata db !! sid') as [old|] eqn:Hold.
        -- cbn. by apply (Hinv sid').
        -- cbn. apply lowercase_toLowerCase.
      * rewrite lookup_insert_ne by done. apply Hinv.
    + by rewrite post_temporary_without_id.
  - destruct (post_link_sessions e u ota osid db) as [H|(sid & _ & H)];
      intros sid' t' Ht'; rewrite H in Ht'; [by apply (Hinv sid')|].
    apply lookup_delete_Some in Ht' as [_ Ht']. by apply (Hinv sid').
Qed.

(** X14. The router keeps addresses canonical: whatever the spelling in a
    request, if all records were filed under lowercase addresses before
    it, they are afterwards; and all sessions stay filed under lowercase
    creator addresses. *)
Theorem requests_keep_addresses_lowercase (e : Env) (r : Request) (db : DB) :
  (keys_lowercase db → keys_lowercase (respond e r db).2)
  ∧ (creators_lowercase db → creators_lowercase (respond e r db).2).
Proof.
  split; [|apply respond_keeps_creators_lowercase].
  intros Hinv a row.
  destruct (respond_write e r db)
    as [_ _ Hm _ | k old new who _ _ Hl _ Hm _ _ _ _ | k new _ _ Hl _ _ Hm _ _ _ _];
    rewrite Hm.
  - apply Hinv.
  - destruct (decide (k = a)) as [<-|Hne]; [done|].
    rewrite lookup_insert_ne by done. apply Hinv.
  - destruct (decide (k = a)) as [<-|Hne]; [done|].
    rewrite lookup_insert_ne by done. apply Hinv.
Qed.

Lemma requests_keep_addresses_lowercase_witness :
  let r := PostLink "0xAAA" (Some "0xToken1") (Some "s1") in
  (keys_lowercase Scenario.staged ∧ creators_lowercase Scenario.staged)
  ∧ keys_lowercase (respond (Scenario.env_at 100) r Scenario.staged).2
  ∧ creators_lowercase (respond (Scenario.env_at 100) r Scenario.staged).2.
Proof.
  intros r.
  assert (Hk : keys_lowercase Scenario.staged).
  { intros a row H. unfold Scenario.staged in H. cbn [token_metadata] in H.
    by rewrite lookup_empty in H. }
  assert (Hc : creators_lowercase Scenario.staged).
  { intros sid t H. unfold Scenario.staged in H. cbn [temporary_metadata] in H.
    apply lookup_singleton_Some in H as [_ <-]. reflexivity. }
  split; [by split|].
  destruct (requests_keep_addresses_lowercase (Scenario.env_at 100) r Scenario.staged)
    as [H1 H2].
  split; [by apply H1 | by apply H2].
Defined.

(** X15. The trigger on [tokens] compares [creator_address] with
    [NEW.owner_address] as stored, while the router files sessions under
    the lowered caller address.  So when sessions are filed under lowercase
    creators and the new token's [owner_address] has an upper-case letter,
    the insertion links nothing and deletes nothing: only the token row is
    added. *)
Theorem trigger_misses_mixed_case_owner
    (e : Env) (a : string) (NEW : Token) (db : DB) :
  creators_lowercase db →
  ¬ lowercase (owner_address NEW) →
  tokens db !! a = None →
  Sql.insert_token e a NEW db
  = (inr tt, with_tokens (<[a := NEW]> (tokens db)) db).
Proof.
  intros Hinv Hmixed Hfresh.
  assert (Hnot : ∀ sid t, temporary_metadata db !! sid = Some t →
                          ¬ Sql.owned_and_live e (owner_address NEW) t).
  { intros sid t Ht [Hc _]. apply Hmixed. rewrite <- Hc. by apply (Hinv sid). }
  unfold Sql.insert_token, Sql.link_temporary_metadata, Sql.select_token,
    atomic, bind, modify, gets, ret.
  rewrite Hfresh. cbn [temporary_metadata with_tokens].
  assert (filter (λ kv, Sql.owned_and_live e (owner_address NEW) kv.2)
            (temporary_metadata db) = ∅) as ->.
  { apply map_eq. intros sid. rewrite lookup_empty.
    apply map_lookup_filter_None. right. intros t Ht. by apply (Hnot sid). }
  rewrite map_to_list_empty. cbn.
  f_equal. unfold with_temporary_metadata, with_tokens. cbn. f_equal.
  apply map_eq. intros sid. rewrite map_lookup_filter.
  destruct (temporary_metadata db !! sid) as [t|] eqn:Ht; [|done]. simpl.
  rewrite option_guard_True; [done|]. by apply (Hnot sid).
Qed.

Lemma trigger_misses_mixed_case_owner_witness :
  let NEW := {| owner_address := "0xAAA"; network_id := "ethereum" |} in
  (creators_lowercase Scenario.drafts
   ∧ ¬ lowercase (owner_address NEW)
   ∧ tokens Scenario.drafts !! "0xt9" = None)
  ∧ Sql.insert_token (Scenario.env_at 100) "0xt9" NEW Scenario.drafts
    = (inr tt, with_tokens (<["0xt9" := NEW]> (tokens Scenario.drafts)) Scenario.drafts).
Proof.
  intros NEW.
  assert (Hc : creators_lowercase Scenario.drafts).
  { intros sid t H.
    destruct (decide (sid = "old")) as [->|?];
      [vm_compute in H; injection H as <-; reflexivity|].
    destruct (decide (sid = "new")) as [->|?];
      [vm_compute in H; injection H as <-; reflexivity|].
    destruct (decide (sid = "gone")) as [->|?];
      [vm_compute in H; injection H as <-; reflexivity|].
    destruct (decide (sid = "other")) as [->|?];
      [vm_compute in H; injection H as <-; reflexivity|].
    unfold Scenario.drafts in H. cbn [temporary_metadata] in H.
    rewrite !lookup_insert_ne in H by done.
    by rewrite lookup_singleton_ne in H. }
  assert (Hm : ¬ lowercase (owner_address NEW)) by (vm_compute; discriminate).
  split; [split; [exact Hc | split; [exact Hm | reflexivity]]|].
  by apply (trigger_misses_mixed_case_owner (Scenario.env_at 100) "0xt9" NEW
              Scenario.drafts).
Defined.

(** ** Requests are all-or-nothing *)

Lemma insert_cases e a f logo who c db :
  (∃ err, Sql.insert_token_metadata e a f logo who c db = (inl err, db))
  ∨ (∃ row db', Sql.insert_token_metadata e a f logo who c db = (inr row, db')).
Proof.
  unfold Sql.insert_token_metadata, Sql.select_token_metadata, Sql.select_token,
    atomic, bind, modify, gets, ret, throw.
  destruct (token_metadata db !! a); [left; by eexists|].
  destruct (tokens db !! a); [right; by eexists _, _ | left; by eexists].
Qed.

Ltac all_or_nothing_done :=
  first [ by (right; reflexivity) | by (left; eexists; reflexivity) ].

Ltac after_update e a SET db :=
  let Hu := fresh "Hu" in
  destruct (update_cases e a SET db)
    as [[_ Hu]|[(? & ? & ? & ? & _ & _ & _ & _ & _ & Hu)|(? & ? & _ & Hu)]];
  rewrite Hu; cbn; all_or_nothing_done.

Ltac after_insert e a f logo who db :=
  let Hi := fresh "Hi" in
  destruct (insert_cases e a f logo who 1 db) as [[? Hi]|(? & ? & Hi)];
  rewrite Hi; cbn; all_or_nothing_done.

Lemma respond_all_or_nothing e r db : all_or_nothing db (respond e r db).
Proof.
  destruct r as [u body|u ota osid|u ta|u ta|ta|u metadata|u ta metadata|u ota file];
    cbn [respond].
  - destruct (Js.truthy (sessionId body)) eqn:Htr.
    + unfold Js.truthy in Htr. destruct (sessionId body) as [sid|] eqn:Hsid; [|done].
      destruct (String.eqb_spec sid "") as [|Hsid']; [done|].
      rewrite (post_temporary_eq e u body db sid Hsid Hsid').
      destruct (decide _); cbv zeta; all_or_nothing_done.
    + rewrite post_temporary_without_id by done. all_or_nothing_done.
  - destruct (post_link_all_or_nothing e u ota osid db) as [(st & msg & ->)|[b Hb]].
    + all_or_nothing_done.
    + left. by exists b.
  - right. apply history_unchanged.
  - unfold Router.post_verify, Router.handle.
    destruct (decide _); [|all_or_nothing_done].
    unfold bind.
    after_update e (Js.toLowerCase ta)
      (λ old : TokenMetadata, inr (Router.set_verified old (now e)) : string + _) db.
  - right. unfold Router.get_metadata, Router.handle, bind, Sql.select_token_metadata, gets.
    by destruct (token_metadata db !! _).
  - unfold Router.post_metadata, Router.handle.
    destruct (tokenAddress metadata) as [ta|]; [|all_or_nothing_done].
    assert (Hbody : ∀ db0, db0 = db →
              all_or_nothing db
                (match
                   (let! address := Router.lower_of (Some ta) in
                    let! existingResult := Sql.select_token_metadata address in
                    match existingResult with
                    | Some _ =>
                        Sql.assign (Sql.descriptive_columns (b_fields metadata)) ;;
                        let! result :=
                          Sql.update_token_metadata e address
                            (Router.post_set e metadata (Js.toLowerCase u)) in
                        ret (Ok (Router.metadata_row0 address result))
                    | None =>
                        Sql.assign (Sql.descriptive_columns (b_fields metadata)) ;;
                        let! row :=
                          Sql.insert_token_metadata e address (b_fields metadata)
                            (logoUrl metadata) (Some (Js.toLowerCase u)) 1 in
                        ret (Ok (MetadataRow address row))
                    end) db0
                 with
                 | (inr r, db') => (r, db')
                 | (inl _, db') => (Fail 500 "Failed to save token metadata", db')
                 end)).
    { intros db0 ->. cbn [Router.lower_of].
      unfold bind at 1, ret at 1. unfold bind at 1, Sql.select_token_metadata, gets.
      destruct (token_metadata db !! _).
      - unfold bind at 1, Sql.assign.
        destruct (decide _); [|all_or_nothing_done]. unfold ret at 1, bind at 1.
        after_update e (Js.toLowerCase ta)
          (Router.post_set e metadata (Js.toLowerCase u)) db.
      - unfold bind at 1, Sql.assign.
        destruct (decide _); [|all_or_nothing_done]. unfold ret at 1, bind at 1.
        after_insert e (Js.toLowerCase ta) (b_fields metadata) (logoUrl metadata)
          (Some (Js.toLowerCase u)) db. }
    destruct (Js.truthy (Some ta)).
    + unfold bind at 1. cbn [Router.lower_of].
      unfold bind at 1, ret at 1. unfold bind at 1, Sql.select_token, gets.
      destruct (tokens db !! _); [|all_or_nothing_done].
      destruct (decide _); [all_or_nothing_done|].
      unfold ret at 1. by apply Hbody.
    + unfold bind at 1, ret at 1. by apply Hbody.
  - unfold Router.put_metadata, Router.handle, bind at 1, Sql.select_token, gets.
    destruct (tokens db !! _); [|all_or_nothing_done].
    destruct (decide _); [all_or_nothing_done|].
    unfold bind, Sql.assign.
    destruct (decide _); [|all_or_nothing_done]. unfold ret.
    after_update e (Js.toLowerCase ta) (Router.put_set e metadata) db.
  - destruct file as [f|]; [|all_or_nothing_done].
    destruct ota as [ta|]; [|all_or_nothing_done].
    destruct (decide (ta = "")) as [->|Hta]; [all_or_nothing_done|].
    unfold Router.post_upload_logo, Router.handle.
    rewrite (truthy_Some _ Hta). cbn [Router.lower_of].
    unfold bind at 1. unfold bind at 1, ret at 1.
    unfold bind at 1, Sql.select_token, gets.
    destruct (tokens db !! Js.toLowerCase ta) as [tok|]; [|all_or_nothing_done].
    destruct (decide _) as [Hne|Heq]; [all_or_nothing_done|].
    unfold bind, ret.
    after_update e (Js.toLowerCase ta)
      (Router.logo_set e (Router.store_logo e (Some ta) f) (Js.toLowerCase u)) db.
Qed.

(** X16. Every request is all-or-nothing: it answers 200, or it leaves the
    whole store exactly as it was.  This covers the 4xx answers of the
    checks and the 500 of a statement that raised (a statement with its
    triggers is atomic, and no handler writes before its last fallible
    statement). *)
Theorem requests_are_all_or_nothing (e : Env) (r : Request) (db : DB) :
  (∃ b, (respond e r db).1 = Ok b) ∨ (respond e r db).2 = db.
Proof. exact (respond_all_or_nothing e r db). Qed.

(** ** Create as an upsert *)





(** ** UploadLogo without a token *)

(** X18. [POST /upload-logo] without a file answers 400.  With a file and
    no token address (absent or empty), no ownership check is made and the
    store is not touched: the answer is a 200 with the URL of the stored
    asset.  When the address is absent altogether that URL is always the
    local one, even with a working remote store, because the remote file
    name is built from the address. *)
Theorem upload_without_token_address
    (e : Env) (user : string) (ta : option string) (f : UploadedFile) (db : DB) :
  Router.post_upload_logo e user ta None db = (Fail 400 "No file uploaded", db)
  ∧ (Js.truthy ta = false →
     Router.post_upload_logo e user ta (Some f) db
     = (Ok (LogoUrl (Router.store_logo e ta f)), db))
  ∧ Router.store_logo e None f = Router.local_url e f.
Proof.
  split; [reflexivity|]. split.
  - intros Htr. unfold Router.post_upload_logo, Router.handle. by rewrite Htr.
  - unfold Router.store_logo. destruct (Router.web3_client e); [|done].
    by destruct (fs_ok e).
Qed.

Lemma upload_without_token_address_witness :
  Js.truthy (Some "") = false
  ∧ Router.post_upload_logo (Scenario.env_at 100) "0xAAA" (Some "")
      (Some Scenario.logo_file) Scenario.staged
    = (Ok (LogoUrl (Router.store_logo (Scenario.env_at 100) (Some "")
                      Scenario.logo_file)), Scenario.staged).
Proof.
  split; [reflexivity|].
  apply (upload_without_token_address (Scenario.env_at 100) "0xAAA" (Some "")
           Scenario.logo_file Scenario.staged).
  reflexivity.
Defined.

(** ** The tag toggle of the form *)

(** X19. [handleTagToggle]: toggling flips whether the tag is selected and
    leaves every other tag as it was; a selection without duplicates stays
    without duplicates; toggling a tag that was not selected and toggling
    it again gives back the very list one started from. *)
Theorem tag_toggle (tagId : string) (tags : list string) :
  let toggled := Form.handleTagToggle tagId (Some tags) in
  (tagId ∈ toggled ↔ tagId ∉ tags)
  ∧ (∀ t, t ≠ tagId → (t ∈ toggled ↔ t ∈ tags))
  ∧ (NoDup tags → NoDup toggled)
  ∧ (tagId ∉ tags → Form.handleTagToggle tagId (Some toggled) = tags).
Proof.
  intros toggled. subst toggled.
  unfold Form.handleTagToggle, default, from_option, id.
  destruct (decide (tagId ∈ tags)) as [Hin|Hnin].
  - split; [|split; [|split]].
    + rewrite list_elem_of_filter. naive_solver.
    + intros t Ht. rewrite list_elem_of_filter. naive_solver.
    + apply NoDup_filter.
    + done.
  - split; [|split; [|split]].
    + rewrite elem_of_app, list_elem_of_singleton. naive_solver.
    + intros t Ht. rewrite elem_of_app, list_elem_of_singleton. naive_solver.
    + intros Hnd. apply NoDup_app. split; [done|]. split.
      * intros x Hx Hx'. apply list_elem_of_singleton in Hx'. by subst x.
      * apply NoDup_singleton.
    + intros _.
      destruct (decide (tagId ∈ tags ++ [tagId])) as [_|Hn].
      * rewrite filter_app. rewrite (filter_cons _ tagId), filter_nil.
        destruct (decide (tagId ≠ tagId)) as [?|_]; [done|].
        rewrite app_nil_r.
        induction tags as [|x l IH]; [done|].
        rewrite filter_cons. apply not_elem_of_cons in Hnin as [Hx Hl].
        destruct (decide (x ≠ tagId)) as [_|Hx'];
          [|exfalso; apply Hx'; congruence].
        f_equal. by apply IH.
      * exfalso. apply Hn. rewrite elem_of_app, list_elem_of_singleton. by right.
Qed.

Lemma tag_toggle_witness :
  (NoDup ["defi"; "meme"] ∧ "nft" ∉ ["defi"; "meme"])
  ∧ NoDup (Form.handleTagToggle "nft" (Some ["defi"; "meme"]))
  ∧ Form.handleTagToggle "nft"
      (Some (Form.handleTagToggle "nft" (Some ["defi"; "meme"])))
    = ["defi"; "meme"].
Proof.
  assert (Hnd : NoDup ["defi"; "meme"]).
  { apply NoDup_cons. split; [|apply NoDup_singleton].
    intros H%list_elem_of_singleton. discriminate. }
  assert (Hn : "nft" ∉ ["defi"; "meme"]).
  { intros [H|[H|H]%elem_of_cons]%elem_of_cons; try discriminate.
    by apply elem_of_nil in H. }
  split; [by split|].
  destruct (tag_toggle "nft" ["defi"; "meme"]) as (_ & _ & Hk & Hback).
  split; [by apply Hk | by apply Hback].
Defined.

(** ** The session identifier in the browser *)

(** X20. The session identifier of [metadataService] survives a reload and
    is given up only by a successful link.  For a service object that
    agrees with [localStorage] (as one built by the constructor does) and a
    non-empty UUID: [getSessionId] returns a non-empty identifier, keeps
    returning it, and a service object rebuilt from the storage holds the
    same one.  [linkTemporaryMetadata] leaves the object untouched when it
    returns [false] (no session, no connection or a refusal by the
    server); when it returns [true] the identifier is gone from the object
    and from the storage. *)
Theorem client_session_identifier
    (uuid uuid' : string) (c : Client.State) :
  Client.create (Client.localStorage c) = c →
  uuid ≠ "" →
  let '(sid, c') := Client.getSessionId uuid c in
  (sid ≠ ""
   ∧ Client.this_sessionId c' = Some sid
   ∧ Client.create (Client.localStorage c') = c'
   ∧ Client.getSessionId uuid' c' = (sid, c'))
  ∧ ∀ online e user ta db,
      let '(linked, c2, _) := Client.linkTemporaryMetadata online e user ta c' db in
      if linked
      then Client.this_sessionId c2 = None
           ∧ Client.localStorage c2 !! Client.KEY = None
           ∧ Client.create (Client.localStorage c2) = c2
      else c2 = c'.
Proof.
  intros Hsync Huuid.
  assert (Hcreated :
    let c' := (Client.createSession uuid c).2 in
    Client.this_sessionId c' = Some uuid
    ∧ Client.create (Client.localStorage c') = c'
    ∧ Client.getSessionId uuid' c' = (uuid, c')).
  { cbn. unfold Client.create, Client.getSessionId. cbn.
    rewrite lookup_insert_eq. destruct (String.eqb_spec uuid ""); [done|]. done. }
  assert (Hlink : ∀ sid c',
            Client.this_sessionId c' = Some sid → sid ≠ "" →
            ∀ online e user ta db,
              let '(linked, c2, _) :=
                Client.linkTemporaryMetadata online e user ta c' db in
              if linked
              then Client.this_sessionId c2 = None
                   ∧ Client.localStorage c2 !! Client.KEY = None
                   ∧ Client.create (Client.localStorage c2) = c2
              else c2 = c').
  { intros sid c' Hsid Hne online e user ta db.
    unfold Client.linkTemporaryMetadata. rewrite Hsid, (truthy_Some _ Hne).
    destruct online; [|done].
    destruct (Router.post_link e user (Some ta) (Some sid) db) as [[b|st msg] db'];
      [|done].
    cbn. rewrite lookup_delete_eq. repeat split.
    unfold Client.create. cbn. by rewrite lookup_delete_eq. }
  unfold Client.getSessionId.
  destruct (Client.this_sessionId c) as [s|] eqn:Hs.
  - destruct (String.eqb_spec s "") as [->|Hne].
    + cbn in Hcreated |- *. destruct Hcreated as (H1 & H2 & H3).
      split; [by repeat split|]. by apply (Hlink uuid).
    + split.
      * repeat split; try done. unfold Client.getSessionId. rewrite Hs.
        by destruct (String.eqb_spec s "").
      * by apply (Hlink s).
  - cbn in Hcreated |- *. destruct Hcreated as (H1 & H2 & H3).
    split; [by repeat split|]. by apply (Hlink uuid).
Qed.

Lemma client_session_identifier_witness :
  let c := Client.create ∅ in
  (Client.create (Client.localStorage c) = c ∧ "id-1" ≠ "")
  ∧ let '(sid, c') := Client.getSessionId "id-1" c in
    (sid ≠ ""
     ∧ Client.this_sessionId c' = Some sid
     ∧ Client.create (Client.localStorage c') = c'
     ∧ Client.getSessionId "id-2" c' = (sid, c'))
    ∧ ∀ online e user ta db,
        let '(linked, c2, _) := Client.linkTemporaryMetadata online e user ta c' db in
        if linked
        then Client.this_sessionId c2 = None
             ∧ Client.localStorage c2 !! Client.KEY = None
             ∧ Client.create (Client.localStorage c2) = c2
        else c2 = c'.
Proof.
  intros c. split; [split; [reflexivity | discriminate]|].
  apply (client_session_identifier "id-1" "id-2" c); [reflexivity | discriminate].
Defined.



(** ** One submit of the metadata form *)

(** An upload by the recorded owner onto an existing record. *)
Lemma uploadLogo_on_record c user ta file db tok old :
  Client.reaches c = true →
  ta ≠ "" →
  tokens db !! Js.toLowerCase ta = Some tok →
  Js.toLowerCase (owner_address tok) = Js.toLowerCase user →
  token_metadata db !! Js.toLowerCase ta = Some old →
  Sql.INT4_MIN ≤ update_count old + 1 ≤ Sql.INT4_MAX →
  let e := Client.server c in
  let url := Router.store_logo e (Some ta)
               (Multer.single e (Client.uniqueSuffix c) file) in
  let new := {| fields := fields old; logo_url := Some url;
                created_at := created_at old; updated_at := now e;
                last_updated_by := Some (Js.toLowerCase user);
                update_count := update_count old; verified := verified old |} in
  Client.uploadLogo c user ta file db
  = (Some (Some url),
     db_after e (Js.toLowerCase ta) (Js.toLowerCase user) old new db).
Proof.
  intros Hc Hta Htok Hown Hold Hr e url new.
  unfold Client.uploadLogo. rewrite Hc.
  rewrite (post_upload_logo_gate_passed _ _ _ _ _ _ Hta Htok Hown). cbv zeta.
  by rewrite (update_row _ _ _ db old new (Js.toLowerCase user) tok).
Qed.


(** The two uploads of one submit, onto an existing record. *)
Lemma submit_uploads c1 c2 user ta file db tok old :
  Client.reaches c1 = true →
  Client.reaches c2 = true →
  ta ≠ "" →
  tokens db !! Js.toLowerCase ta = Some tok →
  Js.toLowerCase (owner_address tok) = Js.toLowerCase user →
  token_metadata db !! Js.toLowerCase ta = Some old →
  Sql.INT4_MIN ≤ update_count old + 1 ∧ update_count old + 2 ≤ Sql.INT4_MAX →
  let a := Js.toLowerCase ta in
  let who := Js.toLowerCase user in
  let url1 := Router.store_logo (Client.server c1) (Some ta)
                (Multer.single (Client.server c1) (Client.uniqueSuffix c1) file) in
  let url2 := Router.store_logo (Client.server c2) (Some ta)
                (Multer.single (Client.server c2) (Client.uniqueSuffix c2) file) in
  ∃ row1 row2 db2,
    (let '(_, db1) := Client.uploadLogo c1 user ta file db in
     Client.uploadLogo c2 user ta file db1) = (Some (Some url2), db2)
    ∧ (Client.uploadLogo c1 user ta file db).1 = Some (Some url1)
    ∧ tokens db2 = tokens db
    ∧ temporary_metadata db2 = temporary_metadata db
    ∧ token_metadata db2 = <[a := row2]> (token_metadata db)
    ∧ token_metadata_history db2
      = token_metadata_history db
        ++ [Sql.history_entry (Client.server c1) a who old;
            Sql.history_entry (Client.server c2) a who row1]
    ∧ row1 = {| fields := fields old; logo_url := Some url1;
                created_at := created_at old; updated_at := now (Client.server c1);
                last_updated_by := Some who;
                update_count := update_count old + 1; verified := verified old |}
    ∧ row2 = {| fields := fields old; logo_url := Some url2;
                created_at := created_at old; updated_at := now (Client.server c2);
                last_updated_by := Some who;
                update_count := update_count old + 2; verified := verified old |}.
Proof.
  intros Hc1 Hc2 Hta Htok Hown Hold [Hlo Hhi] a who url1 url2.
  rewrite (uploadLogo_on_record c1 user ta file db tok old) by (try done; lia).
  cbv zeta.
  match goal with
  | |- context [db_after ?e ?a ?w ?o ?n ?d] =>
      set (db1 := db_after e a w o n d); set (row1 := row_after e o n)
  end.
  assert (Hold1 : token_metadata db1 !! Js.toLowerCase ta = Some row1)
    by (subst db1; cbn [token_metadata db_after]; by rewrite lookup_insert_eq).
  rewrite (uploadLogo_on_record c2 user ta file db1 tok row1);
    [|done|done|exact Htok|done|exact Hold1|
     subst row1; unfold row_after, Sql.update_modified_column, Sql.set_updated_at,
       Sql.set_update_count; cbn [update_count]; lia].
  cbv zeta.
  eexists row1, _, _. split; [reflexivity|]. split; [reflexivity|].
  split; [reflexivity|]. split; [reflexivity|].
  split; [subst db1; cbn [token_metadata db_after]; by rewrite insert_insert_eq|].
  split; [subst db1; cbn [token_metadata_history db_after]; by rewrite <- app_assoc|].
  split; [reflexivity|].
  subst row1. unfold row_after, Sql.update_modified_column, Sql.set_updated_at,
    Sql.set_update_count. cbn. f_equal. lia.
Qed.





(** X24. A submit is not one transaction.  For the recorded owner of a
    token that has a record, when the two uploads arrive and the request
    that saves the metadata does not reach the server, the form reports
    the failure and nothing is handed to [onSave]; the record has
    nevertheless been rewritten twice: it carries the URL of the second upload in place of its logo,
    its other fields are the old ones, its counter is up by two and the
    history holds two new rows. *)
Theorem submit_keeps_uploads_when_save_fails
    (c1 c2 c3 : Client.Fetch) (user ta file : string) (id : option Z)
    (metadata : MetadataBody) (db : DB) (tok : Token) (old : TokenMetadata) :
  Form.validateForm metadata = true →
  Client.reaches c1 = true →
  Client.reaches c2 = true →
  Client.reaches c3 = false →
  ta ≠ "" →
  tokens db !! Js.toLowerCase ta = Some tok →
  Js.toLowerCase (owner_address tok) = Js.toLowerCase user →
  token_metadata db !! Js.toLowerCase ta = Some old →
  Sql.INT4_MIN ≤ update_count old + 1 ∧ update_count old + 2 ≤ Sql.INT4_MAX →
  let a := Js.toLowerCase ta in
  let who := Js.toLowerCase user in
  let url1 := Router.store_logo (Client.server c1) (Some ta)
                (Multer.single (Client.server c1) (Client.uniqueSuffix c1) file) in
  let url2 := Router.store_logo (Client.server c2) (Some ta)
                (Multer.single (Client.server c2) (Client.uniqueSuffix c2) file) in
  let row1 := {| fields := fields old; logo_url := Some url1;
                 created_at := created_at old; updated_at := now (Client.server c1);
                 last_updated_by := Some who;
                 update_count := update_count old + 1; verified := verified old |} in
  let row2 := {| fields := fields old; logo_url := Some url2;
                 created_at := created_at old; updated_at := now (Client.server c2);
                 last_updated_by := Some who;
                 update_count := update_count old + 2; verified := verified old |} in
  let res := Form.handleSubmit c1 c2 c3 user ta id metadata (Some file) db in
  res.1 = None
  ∧ tokens res.2 = tokens db
  ∧ temporary_metadata res.2 = temporary_metadata db
  ∧ token_metadata res.2 = <[a := row2]> (token_metadata db)
  ∧ token_metadata_history res.2
    = token_metadata_history db
      ++ [Sql.history_entry (Client.server c1) a who old;
          Sql.history_entry (Client.server c2) a who row1].
Proof.
  intros Hvalid Hc1 Hc2 Hc3 Hta Htok Hown Hold Hrange a who url1 url2 row1 row2 res.
  subst res. unfold Form.handleSubmit. rewrite Hvalid.
  destruct (submit_uploads c1 c2 user ta file db tok old)
    as (r1 & r2 & db2 & Hboth & Hfirst & Htk & Htmp & Htm & Hh & Hr1 & Hr2);
    [done..|].
  fold a who url1 url2 in Hboth, Hfirst, Htm, Hh, Hr1, Hr2.
  fold row1 in Hr1. fold row2 in Hr2. subst r1 r2.
  destruct (Client.uploadLogo c1 user ta file db) as [o1 db1].
  cbn [fst] in Hfirst. subst o1. rewrite Hboth.
  unfold Client.updateTokenMetadata, Client.saveTokenMetadata. rewrite Hc3.
  by destruct (Form.has_id id).
Qed.

Lemma submit_keeps_uploads_when_save_fails_witness :
  let c r t s := {| Client.reaches := r; Client.server := Scenario.env_at t;
                    Client.uniqueSuffix := s |} in
  let res := Form.handleSubmit (c true 100 "100-1") (c true 101 "101-2")
               (c false 102 "") "0xAAA" "0xToken1" None Scenario.update_body
               (Some "logo.png") Scenario.published in
  (Form.validateForm Scenario.update_body = true
   ∧ "0xToken1" ≠ ""
   ∧ tokens Scenario.published !! Js.toLowerCase "0xToken1" = Some Scenario.token1
   ∧ Js.toLowerCase (owner_address Scenario.token1) = Js.toLowerCase "0xAAA"
   ∧ token_metadata Scenario.published !! Js.toLowerCase "0xToken1"
     = Some (Scenario.record (Some "0xaaa") 1))
  ∧ res.1 = None
  ∧ List.length (token_metadata_history res.2) = 2%nat.
Proof.
  intros c res.
  split; [repeat split; try discriminate; vm_compute; reflexivity|].
  destruct (submit_keeps_uploads_when_save_fails (c true 100 "100-1")
              (c true 101 "101-2") (c false 102 "") "0xAAA" "0xToken1" "logo.png"
              None Scenario.update_body Scenario.published Scenario.token1
              (Scenario.record (Some "0xaaa") 1))
    as (Hnone & _ & _ & _ & Hh);
    try discriminate; try (vm_compute; reflexivity).
  - split; vm_compute; discriminate.
  - split; [exact Hnone|]. subst res. rewrite Hh. reflexivity.
Defined.
